(** * Eliv8-Sports: access-code redemption and profile bootstrap

    A shallow embedding of the one workflow of the repository that carries
    invariants: the SQL migration (tables, uniqueness constraints, the
    triggers [on_access_code_used] and [on_auth_user_created] with their
    functions) and the three client flows that consume an access code
    (athlete page, coach page, sign-up page).

    Conventions of the embedding.
    - Every call of the client to the data service is one atomic statement
      on the store and a handler is the sequence of its statements.  In
      [world] the sessions interleave handler by handler; the facts that
      must survive finer interleavings are proved statement by statement.
    - SQL NULL and JS null/undefined are [None].
    - The statements are given in two layers.  The first gives each
      statement as a role that bypasses row-level security executes it
      (the owner of the tables; the trigger functions, which are SECURITY
      DEFINER): the constraints, the triggers, the order of the statements
      of each handler.  There the two columns the athlete page names
      although no migration declares them ([access_codes.coach_id],
      [coach_athletes.gender]) are carried as nullable fields of the rows,
      and a statement is taken to be permitted.  The second layer gives
      the statements as the browser sends them, through the API with the
      anonymous key: resolved against the declared columns and run under
      the policies of the migration ([Schema], [permits], [Api],
      [Deployed]); there a statement that names one of the two fields is
      refused before it reaches a row.  What the redemption flows do to
      the store is proved in the second layer; the first carries the
      properties of the trigger functions and of the handlers taken by
      themselves.
    - Surrogate keys and creation stamps filled by column defaults are
      left out of the rows, and foreign keys are taken to resolve.
    - A text is a string of bytes: the UTF-8 encoding of the JavaScript
      string or of the SQL text. *)

From Stdlib Require Import Ascii String Bool Arith ZArith QArith Qround Lia.
From stdpp Require Import base tactics option list strings pretty.

Local Open Scope string_scope.
Local Open Scope list_scope.
Local Open Scope nat_scope.

(** ** Scalars *)

Definition uuid := string.
Definition text := string.
Definition timestamptz := nat.

(** CHECK (role IN ('admin', 'coach', 'athlete')) *)
Inductive role_t := admin | coach | athlete.

(** CHECK (gender IN ('male', 'female')) *)
Inductive gender_t := male | female.

#[global] Instance role_eq_dec : EqDecision role_t.
Proof. solve_decision. Defined.

#[global] Instance gender_eq_dec : EqDecision gender_t.
Proof. solve_decision. Defined.

Definition is_null {A} (o : option A) : bool :=
  match o with None => true | Some _ => false end.

Definition is_not_null {A} (o : option A) : bool := negb (is_null o).

(** ** Text primitives *)

Definition ascii_code (c : ascii) : nat := nat_of_ascii c.

(** The white space of JavaScript that is one byte in UTF-8: TAB, LF, VT,
    FF, CR, SPACE.  [js_trim] is [String.prototype.trim] on texts of
    ASCII characters; [trim], further down, is the method on any text. *)
Definition js_white_space (c : ascii) : bool :=
  let n := ascii_code c in
  ((9 <=? n) && (n <=? 13)) || (n =? 32).

(** SQL [trim(x)] removes space characters only. *)
Definition sql_space (c : ascii) : bool := ascii_code c =? 32.

Fixpoint drop_leading (p : ascii -> bool) (s : string) : string :=
  match s with
  | EmptyString => EmptyString
  | String c s' => if p c then drop_leading p s' else s
  end.

Definition strip (p : ascii -> bool) (s : string) : string :=
  String.rev (drop_leading p (String.rev (drop_leading p s))).

Definition js_trim : string -> string := strip js_white_space.
Definition sql_trim : string -> string := strip sql_space.

(** The character classes of the [valid_email] CHECK constraint,
    [^[A-Za-z0-9._%+-]+@[A-Za-z0-9.-]+\.[A-Za-z]{2,}$]. *)
Definition is_alpha (c : ascii) : bool :=
  let n := ascii_code c in
  ((65 <=? n) && (n <=? 90)) || ((97 <=? n) && (n <=? 122)).

Definition is_digit (c : ascii) : bool :=
  let n := ascii_code c in (48 <=? n) && (n <=? 57).

(* . _ % + - *)
Definition local_class (c : ascii) : bool :=
  let n := ascii_code c in
  is_alpha c || is_digit c ||
  (n =? 46) || (n =? 95) || (n =? 37) || (n =? 43) || (n =? 45).

(* . - *)
Definition domain_class (c : ascii) : bool :=
  let n := ascii_code c in
  is_alpha c || is_digit c || (n =? 46) || (n =? 45).

Definition is_at (c : ascii) : bool := ascii_code c =? 64.
Definition is_dot (c : ascii) : bool := ascii_code c =? 46.

(** The pattern is anchored at both ends and neither the domain class nor
    the top-level-domain class contains '@', so a match splits the text at
    its only '@'; the top-level domain has no '.', so the rest splits at
    its last '.'. *)
Fixpoint split_at_first (p : ascii -> bool) (l : list ascii)
  : option (list ascii * list ascii) :=
  match l with
  | [] => None
  | c :: l' =>
      if p c then Some ([], l')
      else match split_at_first p l' with
           | Some (a, b) => Some (c :: a, b)
           | None => None
           end
  end.

Definition split_at_last (p : ascii -> bool) (l : list ascii)
  : option (list ascii * list ascii) :=
  match split_at_first p (rev l) with
  | Some (b, a) => Some (rev a, rev b)
  | None => None
  end.

Definition nonempty_all (p : ascii -> bool) (l : list ascii) : bool :=
  negb (Nat.eqb (length l) 0) && forallb p l.

Definition email_regex_match (s : text) : bool :=
  match split_at_first is_at (list_ascii_of_string s) with
  | None => false
  | Some (local, rest) =>
      nonempty_all local_class local &&
      match split_at_last is_dot rest with
      | None => false
      | Some (dom, tld) =>
          nonempty_all domain_class dom &&
          (2 <=? length tld) && forallb is_alpha tld
      end
  end.

(** A CHECK constraint is violated only when its expression is false; on a
    NULL operand it is unknown, which passes. *)
Definition valid_email (email : option text) : bool :=
  match email with
  | None => true
  | Some e => email_regex_match e
  end.

(** ** Rows *)

Module AccessCode.
Record row := mk {
  code : text;                        (* UNIQUE NOT NULL *)
  organization_id : option uuid;
  role : role_t;                      (* NOT NULL *)
  sport_id : option uuid;
  gender : option gender_t;
  created_by : option uuid;
  coach_id : option uuid;             (* named by the athlete page; not declared *)
  used_at : option timestamptz;
  used_by : option uuid
}.
End AccessCode.

Module Profile.
Record row := mk {
  id : uuid;                          (* PRIMARY KEY *)
  role : option role_t;
  organization_id : option uuid;
  full_name : option text;
  email : option text
}.
End Profile.

Module UserSport.
Record row := mk {
  user_id : option uuid;
  sport_id : option uuid;
  organization_id : option uuid;      (* UNIQUE(user_id, sport_id, organization_id) *)
  gender : option gender_t
}.
End UserSport.

Module CoachAthlete.
Record row := mk {
  coach_id : uuid;                    (* NOT NULL, all four *)
  athlete_id : uuid;
  sport_id : uuid;
  organization_id : uuid;             (* UNIQUE(coach_id, athlete_id, sport_id, organization_id) *)
  gender : option gender_t            (* named by the athlete page; not declared *)
}.
End CoachAthlete.

(** The store.  [sports], [organizations] and [creators] are the relations
    the athlete page embeds in its lookup ([sports (name)],
    [organizations (name)], [creator:created_by (first_name, last_name)]). *)
Record db := mkdb {
  access_codes : list AccessCode.row;
  profiles : list Profile.row;
  user_sports : list UserSport.row;
  coach_athletes : list CoachAthlete.row;
  sports : list (uuid * text);
  organizations : list (uuid * text);
  creators : list (uuid * (text * text))
}.

Definition set_access_codes (l : list AccessCode.row) (d : db) : db :=
  mkdb l (profiles d) (user_sports d) (coach_athletes d)
       (sports d) (organizations d) (creators d).

Definition set_profiles (l : list Profile.row) (d : db) : db :=
  mkdb (access_codes d) l (user_sports d) (coach_athletes d)
       (sports d) (organizations d) (creators d).

Definition set_user_sports (l : list UserSport.row) (d : db) : db :=
  mkdb (access_codes d) (profiles d) l (coach_athletes d)
       (sports d) (organizations d) (creators d).

Definition set_coach_athletes (l : list CoachAthlete.row) (d : db) : db :=
  mkdb (access_codes d) (profiles d) (user_sports d) l
       (sports d) (organizations d) (creators d).

(** ** Statement outcomes *)

Inductive pg_error :=
  | unique_violation              (* 23505 *)
  | not_null_violation            (* 23502 *)
  | check_violation               (* 23514 *)
  | invalid_text_representation   (* 22P02 *)
  | no_single_row                 (* PGRST116: .single() on 0 or several rows *)
  | store_fault.                  (* any failure of the store itself *)

Inductive result (E A : Type) :=
  | Ok (a : A)
  | Err (e : E).
Arguments Ok {E A} a.
Arguments Err {E A} e.

#[global] Instance result_bind {E} : MBind (result E) := fun A B k r =>
  match r with
  | Ok a => k a
  | Err e => Err e
  end.

#[global] Instance result_ret {E} : MRet (result E) := fun A a => Ok a.

(** The outcome of one SQL statement. *)
Abbreviation pg := (result pg_error).

(** A statement the store fails to carry out leaves it untouched. *)
Definition attempt {A} (fault : bool) (r : pg A) : pg A :=
  if fault then Err store_fault else r.

(** The fault schedule of a handler: entry [i] tells whether its [i]-th
    statement is lost to a failure of the store or the network. *)
Definition fault_at (i : nat) (faults : list bool) : bool := nth i faults false.

(** What the client destructures from a reply: [{ data, error }]. *)
Record reply (A : Type) := mkreply { data : option A; error : option pg_error }.
Arguments mkreply {A} data error.
Arguments data {A} r.
Arguments error {A} r.

(** [.single()]: exactly one row, or an error and no data. *)
Definition single {A} (rows : list A) : reply A :=
  match rows with
  | [r] => mkreply (Some r) None
  | _ => mkreply None (Some no_single_row)
  end.

(** ** Statements on the relationship tables *)

Module Insert.
(** What an insert supplies; an absent or null property is [None]. *)
Record coach_athletes := mk_ca {
  coach_id : option uuid;
  athlete_id : option uuid;
  sport_id : option uuid;
  organization_id : option uuid;
  gender : option gender_t
}.
End Insert.

Inductive conflict_clause := no_clause | ON_CONFLICT_DO_NOTHING.

Definition same_connection (c a s o : uuid) (r : CoachAthlete.row) : bool :=
  bool_decide (CoachAthlete.coach_id r = c) &&
  bool_decide (CoachAthlete.athlete_id r = a) &&
  bool_decide (CoachAthlete.sport_id r = s) &&
  bool_decide (CoachAthlete.organization_id r = o).

(** INSERT INTO coach_athletes: four NOT NULL columns, one UNIQUE
    constraint over them. *)
Definition insert_coach_athletes (oc : conflict_clause)
    (v : Insert.coach_athletes) (d : db) : pg db :=
  match Insert.coach_id v, Insert.athlete_id v,
        Insert.sport_id v, Insert.organization_id v with
  | Some c, Some a, Some s, Some o =>
      if existsb (same_connection c a s o) (coach_athletes d) then
        match oc with
        | ON_CONFLICT_DO_NOTHING => Ok d
        | no_clause => Err unique_violation
        end
      else
        Ok (set_coach_athletes
              (coach_athletes d ++ [CoachAthlete.mk c a s o (Insert.gender v)]) d)
  | _, _, _, _ => Err not_null_violation
  end.

(** UNIQUE(user_id, sport_id, organization_id) over nullable columns: rows
    with a NULL in the key never conflict. *)
Definition same_user_sport (v r : UserSport.row) : bool :=
  is_not_null (UserSport.user_id v) &&
  is_not_null (UserSport.sport_id v) &&
  is_not_null (UserSport.organization_id v) &&
  bool_decide (UserSport.user_id r = UserSport.user_id v) &&
  bool_decide (UserSport.sport_id r = UserSport.sport_id v) &&
  bool_decide (UserSport.organization_id r = UserSport.organization_id v).

Definition insert_user_sports (v : UserSport.row) (d : db) : pg db :=
  if existsb (same_user_sport v) (user_sports d) then Err unique_violation
  else Ok (set_user_sports (user_sports d ++ [v]) d).

(** ** The trigger on access codes *)

(** WHEN (OLD.used_by IS NULL AND NEW.used_by IS NOT NULL) *)
Definition on_access_code_used_WHEN (OLD NEW : AccessCode.row) : bool :=
  is_null (AccessCode.used_by OLD) && is_not_null (AccessCode.used_by NEW).

Definition handle_athlete_access_code (NEW : AccessCode.row) (d : db) : pg db :=
  if bool_decide (AccessCode.role NEW = athlete) &&
     is_not_null (AccessCode.used_by NEW)
  then
    insert_coach_athletes ON_CONFLICT_DO_NOTHING
      (Insert.mk_ca (AccessCode.created_by NEW) (AccessCode.used_by NEW)
                    (AccessCode.sport_id NEW) (AccessCode.organization_id NEW)
                    None) d
  else Ok d.

(** ** UPDATE access_codes SET ... WHERE code = c *)

(** The payload all three flows send: [{ used_at: <now>, used_by: <id> }].
    A property whose value is [undefined] is not serialised, so that column
    keeps its value. *)
Record access_code_patch := mk_patch {
  patch_used_at : timestamptz;
  patch_used_by : option uuid
}.

Definition patch_row (p : access_code_patch) (r : AccessCode.row) : AccessCode.row :=
  AccessCode.mk (AccessCode.code r) (AccessCode.organization_id r)
    (AccessCode.role r) (AccessCode.sport_id r) (AccessCode.gender r)
    (AccessCode.created_by r) (AccessCode.coach_id r)
    (Some (patch_used_at p))
    (match patch_used_by p with
     | Some u => Some u
     | None => AccessCode.used_by r
     end).

Definition code_is (c : text) (r : AccessCode.row) : bool :=
  bool_decide (AccessCode.code r = c).

Definition patch_where (c : text) (p : access_code_patch)
    (rows : list AccessCode.row) : list AccessCode.row :=
  map (fun r => if code_is c r then patch_row p r else r) rows.

(** The (OLD, NEW) pairs of the rows the statement touches. *)
Definition touched (c : text) (p : access_code_patch)
    (rows : list AccessCode.row) : list (AccessCode.row * AccessCode.row) :=
  map (fun r => (r, patch_row p r)) (filter (fun r => code_is c r = true) rows).

(** AFTER UPDATE ... FOR EACH ROW: the function runs for each touched row
    that passes WHEN; [runs] counts the executions. *)
Fixpoint on_access_code_used (pairs : list (AccessCode.row * AccessCode.row))
    (d : db) (runs : nat) : pg (db * nat) :=
  match pairs with
  | [] => Ok (d, runs)
  | (OLD, NEW) :: rest =>
      if on_access_code_used_WHEN OLD NEW then
        d' ← handle_athlete_access_code NEW d;
        on_access_code_used rest d' (S runs)
      else on_access_code_used rest d runs
  end.

Record update_report := mk_report {
  after : db;
  rows_affected : nat;
  trigger_runs : nat
}.

(** An exception raised in the trigger aborts the statement: the store is
    as before and the client receives the error. *)
Definition update_access_codes (c : text) (p : access_code_patch) (d : db)
  : pg update_report :=
  let pairs := touched c p (access_codes d) in
  let d1 := set_access_codes (patch_where c p (access_codes d)) d in
  '(d2, n) ← on_access_code_used pairs d1 0;
  Ok (mk_report d2 (length pairs) n).

(** ** Statements on profiles *)

Definition profile_exists (i : uuid) (d : db) : bool :=
  existsb (fun r => bool_decide (Profile.id r = i)) (profiles d).

(** INSERT INTO profiles: CHECK valid_email, PRIMARY KEY (id). *)
Definition insert_profiles (r : Profile.row) (d : db) : pg db :=
  if negb (valid_email (Profile.email r)) then Err check_violation
  else if profile_exists (Profile.id r) d then Err unique_violation
  else Ok (set_profiles (profiles d ++ [r]) d).

(** UPDATE profiles SET organization_id = o [, role = ro] WHERE id = i.
    A filter value of [undefined] reaches the store as the text
    "undefined", which is no uuid. *)
Definition update_profiles (i : option uuid) (ro : option role_t)
    (o : option uuid) (d : db) : pg db :=
  match i with
  | None => Err invalid_text_representation
  | Some i =>
      Ok (set_profiles
            (map (fun r =>
                    if bool_decide (Profile.id r = i) then
                      Profile.mk (Profile.id r)
                        (match ro with Some x => Some x | None => Profile.role r end)
                        o (Profile.full_name r) (Profile.email r)
                    else r) (profiles d)) d)
  end.

(** ** The trigger on new accounts: [handle_new_user] *)

(** A jsonb object, as [->>] sees it: each member with the text of its
    value, JSON null being SQL NULL. *)
Definition jsonb := list (text * option text).

Fixpoint jsonb_get_text (o : jsonb) (k : text) : option text :=
  match o with
  | [] => None
  | (k', v) :: o' => if bool_decide (k' = k) then v else jsonb_get_text o' k
  end.

Module AuthUser.
(** The columns of [auth.users] the function reads from [new]. *)
Record row := mk {
  id : option uuid;
  email : option text;
  raw_user_meta_data : option jsonb
}.
End AuthUser.

(** What a run of the function leaves behind besides the store: the INSERT
    statements it executed, with their failure if any, the warnings it
    raised and its calls of [pg_sleep]. *)
Inductive notice :=
  | INSERT_INTO_profiles (full_name : text) (failure : option pg_error)
  | final_INSERT_INTO_profiles (full_name : text) (failure : option pg_error)
  | WARNING_failed_after (attempts : nat) (sqlerrm : pg_error)
  | WARNING_final_attempt_failed (sqlerrm : pg_error)
  | pg_sleep (milliseconds : nat).

Definition _max_retries : nat := 3.

(** The CASE expression that fills [_full_name]. *)
Definition extract_full_name (new : AuthUser.row) : text :=
  let fallback := default "New User" (AuthUser.email new) in
  match AuthUser.raw_user_meta_data new with
  | Some meta =>
      match jsonb_get_text meta "full_name" with
      | Some n => if 0 <? String.length (sql_trim n) then sql_trim n else fallback
      | None => fallback
      end
  | None => fallback
  end.

(** VALUES (new.id, 'athlete', <name>, new.email, NULL, now(), now()) *)
Definition profile_values (i : uuid) (name : text) (new : AuthUser.row) : Profile.row :=
  Profile.mk i (Some athlete) None (Some name) (AuthUser.email new).

Record retry_vars := mk_vars {
  _retry_count : nat;
  _success : bool;
  store : db;
  raised : list notice
}.

(** One pass through the body of the WHILE loop.  The block with the
    EXCEPTION clause is a savepoint: a failed INSERT leaves no row.  The
    fault schedule is indexed by attempt: 0, 1, 2 for the loop and
    [_max_retries] for the last attempt with minimal data. *)
Definition retry_body (faults : list bool) (i : uuid) (new : AuthUser.row)
    (_full_name : text) (v : retry_vars) : retry_vars :=
  match attempt (fault_at (_retry_count v) faults)
          (insert_profiles (profile_values i _full_name new) (store v)) with
  | Ok d' =>
      mk_vars (_retry_count v) true d'
        (raised v ++ [INSERT_INTO_profiles _full_name None])
  | Err e =>
      let n := _retry_count v + 1 in
      let '(d', l) :=
        if n =? _max_retries then
          match attempt (fault_at _max_retries faults)
                  (insert_profiles (profile_values i "New User" new) (store v)) with
          | Ok d' =>
              (d', [WARNING_failed_after _max_retries e;
                    final_INSERT_INTO_profiles "New User" None])
          | Err e' =>
              (store v, [WARNING_failed_after _max_retries e;
                         final_INSERT_INTO_profiles "New User" (Some e');
                         WARNING_final_attempt_failed e'])
          end
        else (store v, [])
      in
      mk_vars n false d'
        (raised v ++ [INSERT_INTO_profiles _full_name (Some e)] ++ l ++ [pg_sleep 10])
  end.

(** WHILE _retry_count < _max_retries AND NOT _success LOOP ... END LOOP;
    [None] when the fuel runs out before the condition turns false. *)
Fixpoint retry_loop (fuel : nat) (faults : list bool) (i : uuid)
    (new : AuthUser.row) (_full_name : text) (v : retry_vars) : option retry_vars :=
  if (_retry_count v <? _max_retries) && negb (_success v) then
    match fuel with
    | 0 => None
    | S fuel' =>
        retry_loop fuel' faults i new _full_name (retry_body faults i new _full_name v)
    end
  else Some v.

Inductive trigger_result :=
  | RETURN_new (d : db) (log : list notice)
  | RAISE_EXCEPTION (message : string).

Definition handle_new_user_fuel (fuel : nat) (faults : list bool)
    (new : AuthUser.row) (d : db) : option trigger_result :=
  match AuthUser.id new with
  | None => Some (RAISE_EXCEPTION "User ID cannot be null")
  | Some i =>
      if profile_exists i d then Some (RETURN_new d [])
      else
        v ← retry_loop fuel faults i new (extract_full_name new)
              (mk_vars 0 false d []);
        Some (RETURN_new (store v) (raised v))
  end.

Definition handle_new_user : list bool -> AuthUser.row -> db -> option trigger_result :=
  handle_new_user_fuel _max_retries.

(** ** Client side

    The handlers of the pages, statement by statement, each statement
    executed as a role that may: the first layer.  [Deployed], further
    down, has the handlers of the redemption flows against the API. *)

(** What a handler's [catch] receives. *)
Inductive js_error :=
  | Error (message : string)        (* throw new Error(message) *)
  | PostgrestError (e : pg_error)   (* throw <the error of a reply> *)
  | TypeError (property : string).  (* a property read on null *)

Abbreviation js := (result js_error).

Definition throw_if (b : bool) (e : js_error) : js unit :=
  if b then Err e else Ok tt.

(** The reply of a statement that only reads. *)
Definition select_reply {A} (fault : bool) (r : reply A) : reply A :=
  if fault then mkreply None (Some store_fault) else r.

Definition failed {A} (r : reply A) : bool := is_not_null (error r).

Fixpoint embed {V} (k : uuid) (l : list (uuid * V)) : option V :=
  match l with
  | [] => None
  | (k', v) :: l' => if bool_decide (k' = k) then Some v else embed k l'
  end.

(** The resources a lookup of an access code embeds through its foreign
    keys; null when the key is null. *)
Definition embed_sports (d : db) (r : AccessCode.row) : option text :=
  s ← AccessCode.sport_id r; embed s (sports d).

Definition embed_creator (d : db) (r : AccessCode.row) : option (text * text) :=
  c ← AccessCode.created_by r; embed c (creators d).

Definition embed_organizations (d : db) (r : AccessCode.row) : option text :=
  o ← AccessCode.organization_id r; embed o (organizations d).

(** athlete/AccessCode.tsx *)
Module AthletePage.

(** The object the lookup of [validateCode] yields for a row. *)
Record accessCode := mk_accessCode {
  role : role_t;
  used_at : option timestamptz;
  sport_id : option uuid;
  coach_id : option uuid;
  organization_id : option uuid;
  gender : option gender_t;
  sports : option text;                 (* sports (name) *)
  creator : option (text * text);       (* creator:created_by (first_name, last_name) *)
  organizations : option text           (* organizations (name) *)
}.

Definition select_row (d : db) (r : AccessCode.row) : accessCode :=
  mk_accessCode (AccessCode.role r) (AccessCode.used_at r)
    (AccessCode.sport_id r) (AccessCode.coach_id r)
    (AccessCode.organization_id r) (AccessCode.gender r)
    (embed_sports d r) (embed_creator d r) (embed_organizations d r).

Record AccessCodeDetails := mk_details {
  d_sport_id : option uuid;
  d_coach_id : option uuid;
  d_organization_id : option uuid;
  d_sport_name : text;
  d_coach_name : text;
  d_gender : option gender_t;
  d_organization_name : text
}.

(** The component's state: the text of the input, the error shown and the
    verified details.  The [loading] and [joining] flags are false
    whenever no handler is running and are left out. *)
Record state := mk_state {
  code : text;
  error : option js_error;
  codeDetails : option AccessCodeDetails
}.

(** .match({ athlete_id, coach_id, sport_id, organization_id }) *)
Definition connection_matches (athlete : uuid) (a : accessCode)
    (r : CoachAthlete.row) : bool :=
  bool_decide (CoachAthlete.athlete_id r = athlete) &&
  bool_decide (Some (CoachAthlete.coach_id r) = coach_id a) &&
  bool_decide (Some (CoachAthlete.sport_id r) = sport_id a) &&
  bool_decide (Some (CoachAthlete.organization_id r) = organization_id a).

Definition read_property {A} (o : option A) (name : string) : js A :=
  match o with
  | Some a => Ok a
  | None => Err (TypeError name)
  end.

(** The [try] block of [validateCode]. *)
Definition validateCode_try (user : option uuid) (faults : list bool)
    (d : db) (code : text) : js AccessCodeDetails :=
  _ ← throw_if (bool_decide (js_trim code = "")) (Error "Please enter an access code");
  uid ← match user with
        | Some uid => Ok uid
        | None => Err (Error "Authentication required")
        end;
  let r0 := select_reply (fault_at 0 faults)
              (single (map (select_row d)
                 (filter (fun r => code_is (js_trim code) r = true) (access_codes d)))) in
  _ ← throw_if (failed r0) (Error "Invalid access code");
  a ← match data r0 with
      | Some a => Ok a
      | None => Err (Error "Code not found")
      end;
  _ ← throw_if (is_not_null (used_at a)) (Error "This code has already been used");
  _ ← throw_if (negb (bool_decide (role a = athlete))) (Error "Invalid code type");
  let r1 := select_reply (fault_at 1 faults)
              (single (filter (fun r => connection_matches uid a r = true)
                         (coach_athletes d))) in
  _ ← throw_if (is_not_null (data r1)) (Error "You are already connected to this team");
  sp ← read_property (sports a) "name";
  cr ← read_property (creator a) "first_name";
  og ← read_property (organizations a) "name";
  Ok (mk_details (sport_id a) (coach_id a) (organization_id a)
        sp (cr.1 +:+ " " +:+ cr.2) (gender a) og).

Definition validateCode (user : option uuid) (faults : list bool) (d : db)
    (p : state) : state :=
  match validateCode_try user faults d (code p) with
  | Ok details => mk_state (code p) None (Some details)
  | Err e => mk_state (code p) (Some e) None
  end.

Record join_result := mk_join {
  page : state;
  final : db;
  navigate : option string
}.

Definition caught (p : state) (e : pg_error) (d : db) : join_result :=
  mk_join (mk_state (code p) (Some (PostgrestError e)) (codeDetails p)) d None.

Definition handleJoin (user : option uuid) (now : timestamptz)
    (faults : list bool) (d : db) (p : state) : join_result :=
  match codeDetails p, user with
  | Some cd, Some uid =>
      (* First mark the code as used *)
      match attempt (fault_at 0 faults)
              (update_access_codes (js_trim (code p)) (mk_patch now (Some uid)) d) with
      | Err e => caught p e d
      | Ok rep =>
          let d1 := after rep in
          (* Connect athlete to coach *)
          match attempt (fault_at 1 faults)
                  (insert_coach_athletes no_clause
                     (Insert.mk_ca (d_coach_id cd) (Some uid) (d_sport_id cd)
                        (d_organization_id cd) (d_gender cd)) d1) with
          | Err e => caught p e d1
          | Ok d2 =>
              (* Add sport to user's sports; the [.single()] on this insert
               only shapes the reply, which carries no row *)
              match attempt (fault_at 2 faults)
                      (insert_user_sports
                         (UserSport.mk (Some uid) (d_sport_id cd)
                            (d_organization_id cd) (d_gender cd)) d2) with
              | Err e => caught p e d2
              | Ok d3 => mk_join p d3 (Some "/athlete")
              end
          end
      end
  | _, _ => mk_join p d None
  end.

End AthletePage.

(** SELECT * FROM access_codes WHERE code = c AND used_at IS NULL, the
    lookup of the coach page and of the sign-up page. *)
Definition select_unused (c : text) (d : db) : list AccessCode.row :=
  filter (fun r => code_is c r && is_null (AccessCode.used_at r) = true)
         (access_codes d).

(** A statement whose reply the caller drops: the store moves on when it
    succeeded and stays when it failed. *)
Definition ignoring {A} (r : pg A) (proj : A -> db) (d : db) : db :=
  match r with
  | Ok a => proj a
  | Err _ => d
  end.

(** coach/AccessCode.tsx *)
Module CoachPage.

Record submit_result := mk_submit {
  error : option js_error;
  final : db;
  navigate : option string
}.

Definition handleSubmit (user : option uuid) (now : timestamptz)
    (faults : list bool) (d : db) (code : text) : submit_result :=
  (* Verify the access code *)
  let r0 := select_reply (fault_at 0 faults) (single (select_unused code d)) in
  match (if failed r0 then None else data r0) with
  | None => mk_submit (Some (Error "Invalid or expired access code")) d None
  | Some codeData =>
      if negb (bool_decide (AccessCode.role codeData = coach)) then
        mk_submit (Some (Error "This code is not valid for coaches")) d None
      else
        (* Update profile with organization *)
        match attempt (fault_at 1 faults)
                (update_profiles user None (AccessCode.organization_id codeData) d) with
        | Err e => mk_submit (Some (PostgrestError e)) d None
        | Ok d1 =>
            (* Mark code as used *)
            let d2 := ignoring
                        (attempt (fault_at 2 faults)
                           (update_access_codes code (mk_patch now user) d1))
                        after d1 in
            (* Add sport association if specified *)
            let d3 :=
              if is_not_null (AccessCode.sport_id codeData) then
                ignoring
                  (attempt (fault_at 3 faults)
                     (insert_user_sports
                        (UserSport.mk user (AccessCode.sport_id codeData)
                           (AccessCode.organization_id codeData) None) d2))
                  id d2
              else d2 in
            mk_submit None d3 (Some "/coach")
        end
  end.

End CoachPage.

(** auth/SignUp.tsx, the part of [handleSignUp] that follows a successful
    [auth.signUp]: [newUser] is the account just created. *)
Module SignUp.

Record code_result := mk_code_result {
  error : option js_error;
  final : db;
  setRole : option role_t
}.

Definition handleSignUp_accessCode (newUser : uuid) (now : timestamptz)
    (faults : list bool) (d : db) (accessCode : text) : code_result :=
  if bool_decide (js_trim accessCode = "") then mk_code_result None d None
  else
    let r0 := select_reply (fault_at 0 faults)
                (single (select_unused (js_trim accessCode) d)) in
    match (if failed r0 then None else data r0) with
    | None => mk_code_result (Some (Error "Invalid or expired access code")) d None
    | Some codeData =>
        let d1 := ignoring
                    (attempt (fault_at 1 faults)
                       (update_access_codes (js_trim accessCode)
                          (mk_patch now (Some newUser)) d))
                    after d in
        let d2 := ignoring
                    (attempt (fault_at 2 faults)
                       (update_profiles (Some newUser)
                          (Some (AccessCode.role codeData))
                          (AccessCode.organization_id codeData) d1))
                    id d1 in
        let d3 :=
          if is_not_null (AccessCode.sport_id codeData) then
            ignoring
              (attempt (fault_at 3 faults)
                 (insert_user_sports
                    (UserSport.mk (Some newUser) (AccessCode.sport_id codeData)
                       (AccessCode.organization_id codeData) None) d2))
              id d2
          else d2 in
        mk_code_result None d3 (Some (AccessCode.role codeData))
    end.

End SignUp.

(** ** Issuing codes *)

(** INSERT INTO access_codes (code, role, sport_id, gender,
    organization_id, created_by): the pages that generate codes supply
    these columns; [used_at] and [used_by] take their default, NULL. *)
Definition insert_access_codes (c : text) (ro : role_t) (sp : option uuid)
    (g : option gender_t) (org creator : option uuid) (d : db) : pg db :=
  if existsb (code_is c) (access_codes d) then Err unique_violation
  else Ok (set_access_codes
             (access_codes d ++ [AccessCode.mk c org ro sp g creator None None None]) d).

(** ** Sessions and interleavings *)

Record session := mk_session {
  user : option uuid;
  page : AthletePage.state
}.

Record world := mk_world {
  database : db;
  athletes : list session
}.

(** What can happen next: a keystroke or a click in the athlete page of
    session [i], a submission of the coach page, a sign-up with a code, the
    creation of an account, the issue of a code. *)
Inductive event :=
  | setCode (i : nat) (t : text)
  | validateCode (i : nat) (faults : list bool)
  | handleJoin (i : nat) (now : timestamptz) (faults : list bool)
  | handleSubmit (u : option uuid) (c : text) (now : timestamptz) (faults : list bool)
  | handleSignUp (newUser : uuid) (c : text) (now : timestamptz) (faults : list bool)
  | auth_users_insert (new : AuthUser.row) (faults : list bool)
  | generateCode (c : text) (ro : role_t) (sp : option uuid) (g : option gender_t)
                 (org creator : option uuid).

Definition with_session (i : nat) (w : world)
    (k : session -> db -> session * db) : world :=
  match athletes w !! i with
  | Some s =>
      let '(s', d') := k s (database w) in
      mk_world d' (<[i := s']> (athletes w))
  | None => w
  end.

Definition step (w : world) (e : event) : world :=
  match e with
  | setCode i t =>
      with_session i w (fun s d =>
        (mk_session (user s)
           (AthletePage.mk_state t (AthletePage.error (page s))
              (AthletePage.codeDetails (page s))), d))
  | validateCode i faults =>
      with_session i w (fun s d =>
        (mk_session (user s) (AthletePage.validateCode (user s) faults d (page s)), d))
  | handleJoin i now faults =>
      with_session i w (fun s d =>
        let r := AthletePage.handleJoin (user s) now faults d (page s) in
        (mk_session (user s) (AthletePage.page r), AthletePage.final r))
  | handleSubmit u c now faults =>
      mk_world (CoachPage.final (CoachPage.handleSubmit u now faults (database w) c))
               (athletes w)
  | handleSignUp newUser c now faults =>
      mk_world (SignUp.final (SignUp.handleSignUp_accessCode newUser now faults
                                (database w) c))
               (athletes w)
  | auth_users_insert new faults =>
      match handle_new_user faults new (database w) with
      | Some (RETURN_new d' _) => mk_world d' (athletes w)
      | _ => w
      end
  | generateCode c ro sp g org creator =>
      mk_world (ignoring (insert_access_codes c ro sp g org creator (database w))
                  id (database w))
               (athletes w)
  end.

Definition run (w : world) (es : list event) : world := fold_left step es w.

(** ** Reading the log of [handle_new_user] *)

Definition is_insert (n : notice) : bool :=
  match n with INSERT_INTO_profiles _ _ => true | _ => false end.

Definition is_failed_insert (n : notice) : bool :=
  match n with INSERT_INTO_profiles _ (Some _) => true | _ => false end.

Definition is_sleep (n : notice) : bool :=
  match n with pg_sleep 10 => true | _ => false end.

Definition is_final_insert (n : notice) : bool :=
  match n with final_INSERT_INTO_profiles "New User" _ => true | _ => false end.

Definition is_warning (n : notice) : bool :=
  match n with
  | WARNING_failed_after _ _ | WARNING_final_attempt_failed _ => true
  | _ => false
  end.

Definition count_if (p : notice -> bool) (log : list notice) : nat :=
  length (List.filter p log).

Definition profile_count (i : uuid) (d : db) : nat :=
  length (List.filter (fun r => bool_decide (Profile.id r = i)) (profiles d)).

(** The local part of an address, as the specification names it: what
    precedes its first '@'. *)
Definition local_part (e : text) : text :=
  match split_at_first is_at (list_ascii_of_string e) with
  | Some (l, _) => string_of_list_ascii l
  | None => e
  end.

(** What holds of the loop variables of [handle_new_user] each time the
    condition of the WHILE is tested, for a run on store [d]. *)
Record retry_inv (i : uuid) (new : AuthUser.row) (d : db) (v : retry_vars) : Prop := {
  inv_bound : _retry_count v <= _max_retries;
  inv_failed : count_if is_failed_insert (raised v) = _retry_count v;
  inv_sleeps : count_if is_sleep (raised v) = _retry_count v;
  inv_inserts :
    count_if is_insert (raised v) =
    _retry_count v + (if _success v then 1 else 0);
  inv_success :
    _success v = true ->
    _retry_count v < _max_retries /\
    count_if is_final_insert (raised v) = 0 /\
    insert_profiles (profile_values i (extract_full_name new) new) d = Ok (store v);
  inv_pending :
    _success v = false -> _retry_count v < _max_retries ->
    store v = d /\ count_if is_final_insert (raised v) = 0;
  inv_exhausted :
    _success v = false -> _retry_count v = _max_retries ->
    count_if is_final_insert (raised v) = 1 /\
    1 <= count_if is_warning (raised v) /\
    ((store v = d /\ ~ In (final_INSERT_INTO_profiles "New User" None) (raised v)) \/
     insert_profiles (profile_values i "New User" new) d = Ok (store v))
}.

(** ** Vocabulary of the specification *)

(** The failures the specification distinguishes. *)
Inductive failure :=
  | NotFound | AlreadyUsed | RoleMismatch | TransientStoreError | ValidationError.

(** ** Predicates on the store *)

(** A code row is consumed once its consumption time is set. *)
Definition consumed (r : AccessCode.row) : Prop := AccessCode.used_at r <> None.

(** A row that records a consumer also records when. *)
Definition timed (r : AccessCode.row) : Prop :=
  AccessCode.used_at r = None -> AccessCode.used_by r = None.

(** How a row of [access_codes] may differ between an earlier and a later
    state: nothing but the two consumption columns moves, neither of them
    goes back to NULL, and the consumer moves only together with the time. *)
Definition row_evolves (r r' : AccessCode.row) : Prop :=
  AccessCode.code r' = AccessCode.code r /\
  AccessCode.organization_id r' = AccessCode.organization_id r /\
  AccessCode.role r' = AccessCode.role r /\
  AccessCode.sport_id r' = AccessCode.sport_id r /\
  AccessCode.gender r' = AccessCode.gender r /\
  AccessCode.created_by r' = AccessCode.created_by r /\
  AccessCode.coach_id r' = AccessCode.coach_id r /\
  (AccessCode.used_at r <> None -> AccessCode.used_at r' <> None) /\
  (AccessCode.used_by r <> None -> AccessCode.used_by r' <> None) /\
  (AccessCode.used_at r' = None -> AccessCode.used_by r' = AccessCode.used_by r).

(** The later table holds the earlier rows, evolved, in place, followed by
    the rows issued since. *)
Definition codes_evolve (d d' : db) : Prop :=
  exists kept issued,
    access_codes d' = kept ++ issued /\
    Forall2 row_evolves (access_codes d) kept /\
    Forall timed issued.

Definition consumer_has_time (d : db) : Prop :=
  forall r, In r (access_codes d) -> timed r.

(** The rows of [access_codes] with code [c]. *)
Definition rows_of (c : text) (d : db) : list AccessCode.row :=
  filter (fun r => code_is c r = true) (access_codes d).

(** Successive updates of the code [c], a failed statement leaving the
    store as it was, with the number of completed runs of the trigger
    function. *)
Fixpoint update_many (c : text) (ps : list access_code_patch) (d : db) : db * nat :=
  match ps with
  | [] => (d, 0)
  | p :: ps' =>
      match update_access_codes c p d with
      | Ok rep =>
          let '(d', n) := update_many c ps' (after rep) in
          (d', trigger_runs rep + n)
      | Err _ => update_many c ps' d
      end
  end.


(** ** Sample data

    The scenario of the specification: code [AB-123-CD] issued for athletes,
    sport Soccer, gender female, organization O1. *)
Module Sample.

Definition empty : db := mkdb [] [] [] [] [] [] [].

(** An account created by the sign-up form, and one without metadata. *)
Definition jane : AuthUser.row :=
  AuthUser.mk (Some "u1") (Some "jane@example.com")
              (Some [("full_name", Some "  Jane Doe ")]).

Definition jane_bare : AuthUser.row :=
  AuthUser.mk (Some "u1") (Some "jane@example.com") None.

(** The code of the scenario, with the account that issued it and the
    coach it names. *)
Definition AB_123_CD (issuer coach : uuid) : AccessCode.row :=
  AccessCode.mk "AB-123-CD" (Some "O1") athlete (Some "soccer") (Some female)
                (Some issuer) (Some coach) None None.

(** A code that grants the coach role. *)
Definition CO_777_XX : AccessCode.row :=
  AccessCode.mk "CO-777-XX" (Some "O1") coach (Some "soccer") None
                (Some "admin-1") None None None.

(** The same code after some coach redeemed it. *)
Definition CO_777_XX_used : AccessCode.row :=
  AccessCode.mk "CO-777-XX" (Some "O1") coach (Some "soccer") None
                (Some "admin-1") None (Some 5) (Some "C0").

Definition store (codes : list AccessCode.row) : db :=
  mkdb codes [] [] []
       [("soccer", "Soccer")] [("O1", "Organization One")]
       [("coach-1", ("Carl", "Coach")); ("admin-1", ("Ada", "Admin"))].

(** The code issued by the coach it names, and issued by an admin. *)
Definition by_coach : db := store [AB_123_CD "coach-1" "coach-1"].
Definition by_admin : db := store [AB_123_CD "admin-1" "coach-1"].
Definition two_codes : db := store [AB_123_CD "admin-1" "coach-1"; CO_777_XX].

(** Two athletes, each on a blank page. *)
Definition sessions : list session :=
  [mk_session (Some "A") (AthletePage.mk_state "" None None);
   mk_session (Some "B") (AthletePage.mk_state "" None None)].

Definition initially (d : db) : world := mk_world d sessions.

(** The consumption columns of the table, row by row. *)
Definition consumption (d : db) : list (option timestamptz * option uuid) :=
  map (fun r => (AccessCode.used_at r, AccessCode.used_by r)) (access_codes d).

Definition page_of (i : nat) (w : world) : option AthletePage.state :=
  page <$> athletes w !! i.

End Sample.

(** ** The constraints of the migration as predicates on the store *)

Definition connection_key (r : CoachAthlete.row) : uuid * uuid * uuid * uuid :=
  (CoachAthlete.coach_id r, CoachAthlete.athlete_id r,
   CoachAthlete.sport_id r, CoachAthlete.organization_id r).

(** The key of UNIQUE(user_id, sport_id, organization_id), absent when one
    of its columns is NULL. *)
Definition user_sport_key (r : UserSport.row) : option (uuid * uuid * uuid) :=
  u ← UserSport.user_id r;
  s ← UserSport.sport_id r;
  o ← UserSport.organization_id r;
  Some (u, s, o).

Record constraints_hold (d : db) : Prop := {
  access_codes_code_key : NoDup (map AccessCode.code (access_codes d));
  profiles_pkey : NoDup (map Profile.id (profiles d));
  profiles_valid_email :
    Forall (fun r => valid_email (Profile.email r) = true) (profiles d);
  coach_athletes_key : NoDup (map connection_key (coach_athletes d));
  user_sports_key : NoDup (omap user_sport_key (user_sports d))
}.

(** The three ways in which one event changes the table of codes. *)
Inductive codes_step (l : list AccessCode.row) : list AccessCode.row -> Prop :=
  | codes_stay : codes_step l l
  | codes_patched c p : codes_step l (patch_where c p l)
  | codes_issued c org ro sp g creator :
      existsb (code_is c) l = false ->
      codes_step l (l ++ [AccessCode.mk c org ro sp g creator None None None]).

(** No row of [access_codes] and no verified page names a coach. *)
Definition no_coach_named (w : world) : Prop :=
  (forall r, In r (access_codes (database w)) -> AccessCode.coach_id r = None) /\
  (forall i s cd, athletes w !! i = Some s ->
     AthletePage.codeDetails (page s) = Some cd -> AthletePage.d_coach_id cd = None).

(** What the coach page writes into the profiles of account [u]. *)
Definition join_organization (u : uuid) (o : option uuid) (r : Profile.row) : Profile.row :=
  if bool_decide (Profile.id r = u)
  then Profile.mk (Profile.id r) (Profile.role r) o (Profile.full_name r) (Profile.email r)
  else r.

(** What the sign-up page writes into the profiles of account [u]. *)
Definition take_role (u : uuid) (ro : role_t) (o : option uuid) (r : Profile.row)
  : Profile.row :=
  if bool_decide (Profile.id r = u)
  then Profile.mk (Profile.id r) (Some ro) o (Profile.full_name r) (Profile.email r)
  else r.

(** ** Issuing codes: the generator of the coach

    coach/AccessCode.tsx holds, besides the page that redeems a code, the
    component [CoachCodeGenerator]. *)

(** A value of [Math.random]: a number of [0, 1).  The product with the
    length of the alphabet, a power of two, is exact in double precision,
    so the rationals compute the index the engine computes. *)
Definition unit_interval (r : Q) : Prop := (0 <= r)%Q /\ (r < 1)%Q.

(** [s[i]] for an integral index: [undefined] outside of the string. *)
Definition char_at (s : string) (i : Z) : option ascii :=
  if (i <? 0)%Z then None else String.get (Z.to_nat i) s.

(** [chars[Math.floor(r * chars.length)]] as [join('')] renders it:
    [undefined] gives the empty text. *)
Definition pick (chars : string) (r : Q) : string :=
  match char_at chars (Qfloor (r * inject_Z (Z.of_nat (String.length chars)))) with
  | Some c => String c ""
  | None => ""
  end.

(** [Array(n).fill(0).map(() => ...).join('')], the calls of
    [Math.random] being numbered from [first]. *)
Definition draw_chars (chars : string) (random : nat -> Q) (first n : nat) : string :=
  String.concat "" (map (fun k => pick chars (random k)) (seq first n)).

Module CoachCodeGenerator.

Definition chars : string := "ABCDEFGHJKLMNPQRSTUVWXYZ23456789".

(** [random k] is the value of the [k]-th call of [Math.random]. *)
Definition generateReadableCode (random : nat -> Q) : string :=
  String.concat "-"
    [draw_chars chars random 0 2; draw_chars chars random 2 3; draw_chars chars random 5 2].

(** The state of the component that [generateCode] reads and writes; the
    selection of the gender is '' until one is chosen. *)
Record state := mk_state {
  sportId : string;
  gender : option gender_t;
  generatedCode : string;
  error : option js_error
}.

Definition generateCode_try (user : option uuid) (random : nat -> Q)
    (faults : list bool) (d : db) (st : state) : js (string * db) :=
  _ ← throw_if (bool_decide (sportId st = "")) (Error "Please select a sport");
  g ← match gender st with
      | Some g => Ok g
      | None => Err (Error "Please select a gender")
      end;
  let code := generateReadableCode random in
  uid ← match user with
        | Some uid => Ok uid
        | None => Err (Error "Authentication required")
        end;
  match attempt (fault_at 0 faults)
          (insert_access_codes code athlete (Some (sportId st)) (Some g)
             None (Some uid) d) with
  | Ok d' => Ok (code, d')
  | Err e => Err (PostgrestError e)
  end.

Definition generateCode (user : option uuid) (random : nat -> Q)
    (faults : list bool) (d : db) (st : state) : state * db :=
  match generateCode_try user random faults d st with
  | Ok (code, d') => (mk_state (sportId st) (gender st) code None, d')
  | Err e => (mk_state (sportId st) (gender st) (generatedCode st) (Some e), d)
  end.

(** The table of [formatTimeAgo], in the order [Object.entries] lists it. *)
Definition intervals : list (string * Z) :=
  [("year", 31536000); ("month", 2592000); ("week", 604800);
   ("day", 86400); ("hour", 3600); ("minute", 60)]%Z.

(** The loop over the table: the first unit of which at least one fits. *)
Fixpoint first_interval (seconds : Z) (table : list (string * Z)) : option (Z * string) :=
  match table with
  | [] => None
  | (unit, secondsInUnit) :: rest =>
      let interval := (seconds / secondsInUnit)%Z in
      if (1 <=? interval)%Z then Some (interval, unit)
      else first_interval seconds rest
  end.

(** [date] and [now] are the values of [getTime()], in milliseconds, of a
    date that parses. *)
Definition formatTimeAgo (date now : Z) : string :=
  let seconds := ((now - date) / 1000)%Z in
  match first_interval seconds intervals with
  | Some (interval, unit) =>
      pretty interval +:+ " " +:+ unit +:+
      (if (interval =? 1)%Z then "" else "s") +:+ " ago"
  | None => "just now"
  end.

End CoachCodeGenerator.

(** ** More text primitives

    [toLowerCase] and [toUpperCase] on the letters of ASCII, the other
    single-byte characters being left as they are. *)

Definition is_upper (c : ascii) : bool :=
  let n := ascii_code c in (65 <=? n) && (n <=? 90).

Definition is_lower (c : ascii) : bool :=
  let n := ascii_code c in (97 <=? n) && (n <=? 122).

Definition to_lower (c : ascii) : ascii :=
  if is_upper c then ascii_of_nat (ascii_code c + 32) else c.

Definition to_upper (c : ascii) : ascii :=
  if is_lower c then ascii_of_nat (ascii_code c - 32) else c.

Fixpoint map_chars (f : ascii -> ascii) (s : string) : string :=
  match s with
  | EmptyString => EmptyString
  | String c s' => String (f c) (map_chars f s')
  end.

Definition toLowerCase : string -> string := map_chars to_lower.
Definition toUpperCase : string -> string := map_chars to_upper.



(** [s.replace(/X+/g, by)] for a class X of characters: every maximal run
    of characters of the class gives way to one [by]; [in_run] tells
    whether the character before belonged to the class. *)
Fixpoint replace_runs (p : ascii -> bool) (by_ : string) (in_run : bool) (s : string)
  : string :=
  match s with
  | EmptyString => EmptyString
  | String c s' =>
      if p c then (if in_run then "" else by_) +:+ replace_runs p by_ true s'
      else String c (replace_runs p by_ false s')
  end.

(** Every character of the text is of the class. *)
Fixpoint all_chars (p : ascii -> bool) (s : string) : bool :=
  match s with
  | EmptyString => true
  | String c s' => p c && all_chars p s'
  end.

(** ** The coach's list of sports and of athletes

    Two more components of coach/AccessCode.tsx: [CoachMySports] and
    [Athletes]. *)

Module CoachMySports.

(** The route [handleSportNavigation] navigates to; [\s] is, on
    single-byte characters, the class that [trim] removes. *)
Definition sportRoute (sportName : string) : string :=
  replace_runs js_white_space "-" false (toLowerCase sportName).

Definition handleSportNavigation (sportName : string) : string :=
  "/coach/sports/" +:+ sportRoute sportName.

End CoachMySports.

Module Athletes.

Record AthleteDetails := mk_athlete {
  id : uuid;
  full_name : text;
  email : text;
  created_at : Z;                       (* [new Date(created_at).getTime()] *)
  sports : list (text * option text)    (* name, gender *)
}.


Record stats_t := mk_stats {
  totalAthletes : nat;
  activeThisWeek : nat;
  recentJoins : nat
}.

(** The figures [fetchAthletes] computes from the rows it has formatted. *)
Definition stats (now : Z) (formattedAthletes : list AthleteDetails) : stats_t :=
  let oneWeekAgo := (now - 7 * 24 * 60 * 60 * 1000)%Z in
  let thirtyDaysAgo := (now - 30 * 24 * 60 * 60 * 1000)%Z in
  mk_stats
    (length formattedAthletes)
    (length (List.filter (fun a => (oneWeekAgo <? created_at a)%Z) formattedAthletes))
    (length (List.filter (fun a => (thirtyDaysAgo <? created_at a)%Z) formattedAthletes)).





End Athletes.

(** ** The store of the session: store/auth.ts *)

(** The text of a role, as the client and the CHECK constraint spell it. *)
Definition role_name (ro : role_t) : string :=
  match ro with
  | admin => "admin"
  | coach => "coach"
  | athlete => "athlete"
  end.

(** UPDATE profiles SET role = ro WHERE id = i, sent by [setRole]; a
    NULL role passes the CHECK of the column. *)
Definition update_profiles_role (i : uuid) (ro : option role_t) (d : db) : pg db :=
  Ok (set_profiles
        (map (fun r =>
                if bool_decide (Profile.id r = i) then
                  Profile.mk (Profile.id r) ro (Profile.organization_id r)
                    (Profile.full_name r) (Profile.email r)
                else r) (profiles d)) d).

(** SELECT ... FROM profiles WHERE id = i, with [.single()]. *)
Definition select_profile (i : uuid) (d : db) : reply Profile.row :=
  single (filter (fun r => Profile.id r = i) (profiles d)).

Module AuthStore.

(** The [User] object, as far as the pages read it. *)
Record User := mk_user {
  id : uuid;
  email : option text
}.

Record state := mk_state {
  user : option User;
  role : option role_t;
  organizationId : option uuid;
  loading : bool;
  initialized : bool
}.

Definition setUser (u : option User) (st : state) : state :=
  match u with
  | None => mk_state None None None false (initialized st)
  | Some u =>
      if bool_decide (Some (id u) = id <$> user st) then st
      else mk_state (Some u) (role st) (organizationId st) false (initialized st)
  end.

(** [setRole]: the profile is written first, and the role of the store
    follows only when that succeeded. *)
Definition setRole (ro : option role_t) (fault : bool) (d : db) (st : state)
  : state * db :=
  if bool_decide (ro = role st) then (st, d)
  else
    match user st with
    | Some u =>
        match attempt fault (update_profiles_role (id u) ro d) with
        | Ok d' => (mk_state (user st) ro (organizationId st) false (initialized st), d')
        | Err _ =>
            (mk_state (user st) (role st) (organizationId st) false (initialized st), d)
        end
    | None => (mk_state (user st) ro (organizationId st) false (initialized st), d)
    end.

(** [checkSession], for the session [getSession] reports: the role and
    the organization are read from the profile, null when the lookup
    yields no row. *)
Definition checkSession (session : option User) (fault : bool) (d : db) : state :=
  match session with
  | Some u =>
      let profile := data (select_reply fault (select_profile (id u) d)) in
      mk_state (Some u) (profile ≫= Profile.role) (profile ≫= Profile.organization_id)
               false true
  | None => mk_state None None None false true
  end.

End AuthStore.

(** ** Routing: App.tsx *)

Module App.

Inductive element :=
  | Spinner
  | Navigate (to : string)
  | children.

(** The component [ProtectedRoute]. *)
Definition ProtectedRoute (st : AuthStore.state) (requiredRole : option role_t) : element :=
  if AuthStore.loading st then Spinner
  else
    match AuthStore.user st, AuthStore.role st with
    | None, _ => Navigate "/login"
    | Some _, None => Navigate "/roleselection"
    | Some _, Some ro =>
        match requiredRole with
        | Some required =>
            if bool_decide (ro = required) then children
            else Navigate ("/" +:+ role_name ro)
        | None => children
        end
    end.

Definition getDashboardRedirect (st : AuthStore.state) : string :=
  match AuthStore.user st, AuthStore.role st with
  | None, _ => "/login"
  | Some _, None => "/roleselection"
  | Some _, Some ro => "/" +:+ role_name ro
  end.

(** The role a dashboard route requires: "/admin/*", "/coach/*" and
    "/athlete/*" in the table of routes. *)
Definition dashboard (ro : role_t) : string := "/" +:+ role_name ro.

End App.

(** ** Choosing a role: RoleSelection.tsx *)

(** [s.split(' ')[0]] *)
Fixpoint first_word (s : string) : string :=
  match s with
  | EmptyString => EmptyString
  | String c s' => if sql_space c then EmptyString else String c (first_word s')
  end.

(** UPDATE profiles SET id = i, role = ro, full_name = name WHERE id = i *)
Definition update_profiles_data (i : uuid) (ro : role_t) (name : text) (d : db) : pg db :=
  Ok (set_profiles
        (map (fun r =>
                if bool_decide (Profile.id r = i) then
                  Profile.mk i (Some ro) (Profile.organization_id r)
                    (Some name) (Profile.email r)
                else r) (profiles d)) d).

Module RoleSelection.

(** [user.email?.split('@')[0] || 'New User'] *)
Definition full_name (u : AuthStore.User) : text :=
  match AuthStore.email u with
  | Some e => if bool_decide (local_part e = "") then "New User" else local_part e
  | None => "New User"
  end.

Record result := mk_result {
  error : option js_error;
  final : db;
  auth : AuthStore.state;
  firstName : option string;            (* sessionStorage.firstName *)
  navigate : option string
}.

(** The fault schedule: 0 the lookup of the profile, 1 the update or the
    insert, 2 the update that [setRole] sends.  The error thrown for a
    failed statement carries the message of the store; it is kept as the
    error of the reply. *)
Definition handleRoleSelect (selectedRole : role_t) (faults : list bool) (d : db)
    (st : AuthStore.state) : result :=
  match AuthStore.user st with
  | None =>
      mk_result (Some (Error "User ID not found. Please try logging in again."))
                d st None None
  | Some u =>
      let i := AuthStore.id u in
      let name := full_name u in
      let existingProfile := data (select_reply (fault_at 0 faults) (select_profile i d)) in
      let upsert :=
        if is_not_null existingProfile
        then attempt (fault_at 1 faults) (update_profiles_data i selectedRole name d)
        else attempt (fault_at 1 faults)
               (insert_profiles (Profile.mk i (Some selectedRole) None (Some name) None) d)
      in
      match upsert with
      | Err e => mk_result (Some (PostgrestError e)) d st None None
      | Ok d1 =>
          let '(st', d2) := AuthStore.setRole (Some selectedRole) (fault_at 2 faults) d1 st in
          mk_result None d2 st' (Some (first_word name))
                    (Some ("/" +:+ role_name selectedRole))
      end
  end.

End RoleSelection.

(** * The program against the declared schema and policies

    The definitions above give every statement as a role that bypasses
    row-level security executes it (the owner of the tables, the functions
    declared SECURITY DEFINER), with the two columns the athlete page names
    beyond the migration carried along.  The browser is not such a role: its
    statements go through the API with the anonymous key of
    [lib/supabase.ts], which resolves every column and embedded resource
    against the declared tables and runs the statement under the policies of
    the migration.  What follows is that layer, and the pages on top of
    it. *)

(** ** Text as the browser holds it

    A text is the UTF-8 encoding of a JavaScript string without lone
    surrogates. *)

(** The code points [String.prototype.trim] removes: ECMAScript's
    WhiteSpace (TAB, VT, FF, U+FEFF and the category Zs) and LineTerminator
    (LF, CR, U+2028, U+2029), each as its UTF-8 bytes. *)
Definition white_space_code_points : list (list nat) :=
  [ [9]; [10]; [11]; [12]; [13]; [32];
    [194; 160];                                        (* U+00A0 *)
    [225; 154; 128];                                   (* U+1680 *)
    [226; 128; 128]; [226; 128; 129]; [226; 128; 130]; (* U+2000 .. *)
    [226; 128; 131]; [226; 128; 132]; [226; 128; 133];
    [226; 128; 134]; [226; 128; 135]; [226; 128; 136];
    [226; 128; 137]; [226; 128; 138];                  (* .. U+200A *)
    [226; 128; 168]; [226; 128; 169];                  (* U+2028, U+2029 *)
    [226; 128; 175];                                   (* U+202F *)
    [226; 129; 159];                                   (* U+205F *)
    [227; 128; 128];                                   (* U+3000 *)
    [239; 187; 191] ].                                 (* U+FEFF *)

Definition white_space : list (list ascii) :=
  map (map ascii_of_nat) white_space_code_points.

(** [l] without its prefix [w], when it has that prefix. *)
Fixpoint after_prefix (w l : list ascii) : option (list ascii) :=
  match w, l with
  | [], _ => Some l
  | a :: w', b :: l' => if bool_decide (a = b) then after_prefix w' l' else None
  | _ :: _, [] => None
  end.

Fixpoint after_any (table : list (list ascii)) (l : list ascii)
  : option (list ascii) :=
  match table with
  | [] => None
  | w :: table' =>
      match after_prefix w l with
      | Some l' => Some l'
      | None => after_any table' l
      end
  end.

(** Code points of [table] are removed from the front for as long as there
    is one; each removal shortens the text, so its length is fuel enough. *)
Fixpoint drop_all (table : list (list ascii)) (fuel : nat) (l : list ascii)
  : list ascii :=
  match fuel with
  | 0 => l
  | S fuel' =>
      match after_any table l with
      | Some l' => drop_all table fuel' l'
      | None => l
      end
  end.

Definition trimStart (l : list ascii) : list ascii :=
  drop_all white_space (length l) l.

(** From the end, the bytes of a code point come in reverse; UTF-8 is
    self-synchronising, so the reversed bytes of a white-space code point at
    the end of a text are that code point. *)
Definition trimEnd (l : list ascii) : list ascii :=
  rev (drop_all (map (@rev ascii) white_space) (length l) (rev l)).

(** [String.prototype.trim] *)
Definition trim (s : string) : string :=
  string_of_list_ascii (trimEnd (trimStart (list_ascii_of_string s))).

(** A printable ASCII character other than the space. *)
Definition solid (c : ascii) : bool :=
  (33 <=? ascii_code c) && (ascii_code c <=? 126).

(** [s.length] counts UTF-16 code units: none for a continuation byte, two
    for the lead byte of a code point beyond U+FFFF, one for any other. *)
Definition utf16_units (c : ascii) : nat :=
  let n := ascii_code c in
  if (128 <=? n) && (n <? 192) then 0
  else if 240 <=? n then 2
  else 1.

Fixpoint utf16_length (s : string) : nat :=
  match s with
  | EmptyString => 0
  | String c s' => utf16_units c + utf16_length s'
  end.

(** ** Errors of the API *)

Inductive api_error :=
  | sqlstate (e : pg_error)                        (* the statement ran and failed *)
  | undefined_column (relation column : string)    (* 42703, PGRST204 *)
  | no_relationship (relation embedded : string)   (* PGRST200 *)
  | insufficient_privilege (relation : string).    (* 42501: row-level security *)

Abbreviation api := (result api_error).

Definition sql {A} (r : pg A) : api A :=
  match r with
  | Ok a => Ok a
  | Err e => Err (sqlstate e)
  end.

(** ** The declared schema *)

Module Schema.

(** The columns of each table: CREATE TABLE in the base migration,
    [user_sports.gender] and [profiles.notification_preferences] added by
    ALTER TABLE. *)
Definition organizations : list string :=
  ["id"; "name"; "email"; "address"; "created_at"; "updated_at"].

Definition sports : list string := ["id"; "name"; "created_at"].

Definition access_codes : list string :=
  ["id"; "code"; "organization_id"; "role"; "sport_id"; "gender";
   "created_by"; "created_at"; "used_at"; "used_by"].

Definition profiles : list string :=
  ["id"; "role"; "organization_id"; "full_name"; "email"; "created_at";
   "updated_at"; "notification_preferences"].

Definition user_sports : list string :=
  ["id"; "user_id"; "sport_id"; "organization_id"; "created_at"; "gender"].

Definition coach_athletes : list string :=
  ["id"; "coach_id"; "athlete_id"; "sport_id"; "organization_id"; "created_at"].

Definition columns_of (relation : string) : list string :=
  if bool_decide (relation = "organizations") then organizations
  else if bool_decide (relation = "sports") then sports
  else if bool_decide (relation = "access_codes") then access_codes
  else if bool_decide (relation = "profiles") then profiles
  else if bool_decide (relation = "user_sports") then user_sports
  else if bool_decide (relation = "coach_athletes") then coach_athletes
  else [].

(** The foreign keys of [access_codes] into the exposed schema, as
    (column, table).  [created_by] and [used_by] reference [auth.users],
    which the API does not expose. *)
Definition access_codes_references : list (string * string) :=
  [("organization_id", "organizations"); ("sport_id", "sports")].

(** An embedded resource of a select: [hint (columns)], the hint being
    the name of a table or of a foreign-key column. *)
Record embedded := embed_of {
  hint : string;
  embedded_columns : list string
}.

Record request := mk_request {
  relation : string;
  columns : list string;
  resources : list embedded
}.

Definition has_column (relation column : string) : bool :=
  bool_decide (column ∈ columns_of relation).

Definition first_undeclared (relation : string) (cols : list string)
  : option api_error :=
  undefined_column relation <$> head (filter (fun c => has_column relation c = false) cols).

(** The table an embedding resolves to. *)
Definition resolve (refs : list (string * string)) (h : string) : option string :=
  snd <$> head (filter (fun r => r.1 = h \/ r.2 = h) refs).

Definition check_embedded (relation : string) (refs : list (string * string))
    (e : embedded) : option api_error :=
  match resolve refs (hint e) with
  | None => Some (no_relationship relation (hint e))
  | Some target => first_undeclared target (embedded_columns e)
  end.

Fixpoint first_error {A} (f : A -> option api_error) (l : list A) : option api_error :=
  match l with
  | [] => None
  | a :: l' =>
      match f a with
      | Some e => Some e
      | None => first_error f l'
      end
  end.

(** What the API answers to a select on [access_codes] before any row is
    read: the embedded resources are resolved first, then the columns. *)
Definition check (rq : request) : option api_error :=
  match first_error (check_embedded (relation rq) access_codes_references) (resources rq) with
  | Some e => Some e
  | None => first_undeclared (relation rq) (columns rq)
  end.

(** [*] *)
Definition star (relation : string) : request :=
  mk_request relation (columns_of relation) [].

End Schema.

(** ** Row-level security

    RLS is enabled on every table and every policy is declared TO
    authenticated: a statement sent without a session sees no row and may
    write none. *)

Inductive caller := anon | authenticated (uid : uuid).

Definition caller_of (user : option uuid) : caller :=
  match user with
  | Some uid => authenticated uid
  | None => anon
  end.

Inductive command := SELECT | INSERT | UPDATE | DELETE.

#[global] Instance command_eq_dec : EqDecision command.
Proof. solve_decision. Defined.

Definition ALL : list command := [SELECT; INSERT; UPDATE; DELETE].

(** CREATE POLICY ... FOR <commands> TO authenticated USING (<expression>).
    Without WITH CHECK the expression of USING is also what a new row must
    satisfy. *)
Record policy (Row : Type) := mk_policy {
  FOR : list command;
  USING : uuid -> db -> Row -> bool
}.
Arguments mk_policy {Row} FOR USING.
Arguments FOR {Row} p.
Arguments USING {Row} p.

(** The policies of a table are permissive: a row passes when one of the
    policies for the command passes it. *)
Definition permits {Row} (ps : list (policy Row)) (cmd : command)
    (c : caller) (d : db) (r : Row) : bool :=
  match c with
  | anon => false
  | authenticated uid =>
      existsb (fun p => bool_decide (cmd ∈ FOR p) && USING p uid d r) ps
  end.

(** organization_id IN (SELECT organization_id FROM profiles WHERE id =
    auth.uid()): the caller's own profile is visible to the subquery, and
    a NULL on either side matches nothing. *)
Definition organization_of_caller (uid : uuid) (d : db) (o : option uuid) : bool :=
  match o with
  | None => false
  | Some o =>
      existsb (fun p => bool_decide (Profile.id p = uid) &&
                        bool_decide (Profile.organization_id p = Some o))
              (profiles d)
  end.

(** "Users can view relevant access codes" is the only policy of the
    table. *)
Definition access_codes_policies : list (policy AccessCode.row) :=
  [ mk_policy [SELECT]
      (fun uid d r => organization_of_caller uid d (AccessCode.organization_id r)) ].

(** id IN (SELECT athlete_id FROM coach_athletes WHERE coach_id =
    auth.uid()) *)
Definition athlete_of_caller (uid : uuid) (d : db) (i : option uuid) : bool :=
  match i with
  | None => false
  | Some i =>
      existsb (fun r => bool_decide (CoachAthlete.coach_id r = uid) &&
                        bool_decide (CoachAthlete.athlete_id r = i))
              (coach_athletes d)
  end.

(** "Users can view their profile", "Users can update their profile",
    "Coaches can view their athletes' data", "Users can insert their own
    profile". *)
Definition profiles_policies : list (policy Profile.row) :=
  [ mk_policy [SELECT] (fun uid _ r => bool_decide (Profile.id r = uid));
    mk_policy [UPDATE] (fun uid _ r => bool_decide (Profile.id r = uid));
    mk_policy [SELECT] (fun uid d r => athlete_of_caller uid d (Some (Profile.id r)));
    mk_policy [INSERT] (fun uid _ r => bool_decide (Profile.id r = uid)) ].

(** "Users can view their sports", "Users can manage their sports",
    "Coaches can view their athletes' sports". *)
Definition user_sports_policies : list (policy UserSport.row) :=
  [ mk_policy [SELECT] (fun uid _ r => bool_decide (UserSport.user_id r = Some uid));
    mk_policy ALL (fun uid _ r => bool_decide (UserSport.user_id r = Some uid));
    mk_policy [SELECT] (fun uid d r => athlete_of_caller uid d (UserSport.user_id r)) ].

(** "Coaches can manage their athletes", "Athletes can view their
    coaches"; the row is what an insert proposes or what the table
    holds. *)
Definition coach_athletes_policies : list (policy Insert.coach_athletes) :=
  [ mk_policy ALL (fun uid _ r => bool_decide (Insert.coach_id r = Some uid));
    mk_policy [SELECT] (fun uid _ r => bool_decide (Insert.athlete_id r = Some uid)) ].

Definition stored (r : CoachAthlete.row) : Insert.coach_athletes :=
  Insert.mk_ca (Some (CoachAthlete.coach_id r)) (Some (CoachAthlete.athlete_id r))
               (Some (CoachAthlete.sport_id r)) (Some (CoachAthlete.organization_id r))
               (CoachAthlete.gender r).

(** ** The statements as the browser sends them *)

(** UPDATE access_codes SET ... WHERE <condition>, as in
    [update_access_codes], for any condition on the row. *)
Definition touched_where (q : AccessCode.row -> bool) (p : access_code_patch)
    (rows : list AccessCode.row) : list (AccessCode.row * AccessCode.row) :=
  map (fun r => (r, patch_row p r)) (filter (fun r => q r = true) rows).

Definition update_access_codes_where (q : AccessCode.row -> bool)
    (p : access_code_patch) (d : db) : pg update_report :=
  let pairs := touched_where q p (access_codes d) in
  let d1 := set_access_codes
              (map (fun r => if q r then patch_row p r else r) (access_codes d)) d in
  '(d2, n) ← on_access_code_used pairs d1 0;
  Ok (mk_report d2 (length pairs) n).

Module Api.

(** [{ data, error }] *)
Record reply (A : Type) := mk_reply { data : option A; error : option api_error }.
Arguments mk_reply {A} data error.
Arguments data {A} r.
Arguments error {A} r.

Definition failed {A} (r : reply A) : bool := is_not_null (error r).

(** A statement that the network or the store loses changes nothing and
    answers with an error. *)
Definition attempt {A} (fault : bool) (r : api A) : api A :=
  if fault then Err (sqlstate store_fault) else r.

(** [.single()] *)
Definition single {A} (r : api (list A)) : reply A :=
  match r with
  | Err e => mk_reply None (Some e)
  | Ok [a] => mk_reply (Some a) None
  | Ok _ => mk_reply None (Some (sqlstate no_single_row))
  end.

(** SELECT <request> FROM access_codes WHERE <condition>: the rows the
    caller may see among those that meet the condition. *)
Definition select_access_codes (rq : Schema.request) (c : caller)
    (q : AccessCode.row -> bool) (d : db) : api (list AccessCode.row) :=
  match Schema.check rq with
  | Some e => Err e
  | None =>
      Ok (filter (fun r => q r && permits access_codes_policies SELECT c d r = true)
                 (access_codes d))
  end.

(** SELECT id FROM coach_athletes WHERE <condition> *)
Definition select_coach_athletes (c : caller) (q : CoachAthlete.row -> bool)
    (d : db) : api (list CoachAthlete.row) :=
  Ok (filter (fun r => q r && permits coach_athletes_policies SELECT c d (stored r) = true)
             (coach_athletes d)).

(** The columns of the payload [{ used_at, used_by }]; a property whose
    value is [undefined] is not sent. *)
Definition patch_columns (p : access_code_patch) : list string :=
  "used_at" :: (if is_not_null (patch_used_by p) then ["used_by"] else []).

(** UPDATE access_codes SET ... WHERE code = c.  The statement reaches the
    rows that pass both the policies for UPDATE and those for SELECT, and
    a row it writes must pass the policies for UPDATE again; the rows it
    does not reach are left as they are, without an error. *)
Definition update_access_codes (c : caller) (code : text)
    (p : access_code_patch) (d : db) : api update_report :=
  match Schema.first_undeclared "access_codes" (patch_columns p) with
  | Some e => Err e
  | None =>
      let q r := code_is code r &&
                 permits access_codes_policies UPDATE c d r &&
                 permits access_codes_policies SELECT c d r in
      if forallb (fun on => permits access_codes_policies UPDATE c d on.2)
                 (touched_where q p (access_codes d))
      then sql (update_access_codes_where q p d)
      else Err (insufficient_privilege "access_codes")
  end.

(** INSERT INTO access_codes (...) *)
Definition insert_access_codes (c : caller) (r : AccessCode.row) (d : db) : api db :=
  if permits access_codes_policies INSERT c d r then
    sql (insert_access_codes (AccessCode.code r) (AccessCode.role r)
           (AccessCode.sport_id r) (AccessCode.gender r)
           (AccessCode.organization_id r) (AccessCode.created_by r) d)
  else Err (insufficient_privilege "access_codes").

(** INSERT INTO user_sports (<columns>) VALUES (...): the policy is
    checked on the proposed row before the constraints. *)
Definition insert_user_sports (columns : list string) (c : caller)
    (v : UserSport.row) (d : db) : api db :=
  match Schema.first_undeclared "user_sports" columns with
  | Some e => Err e
  | None =>
      if permits user_sports_policies INSERT c d v then sql (insert_user_sports v d)
      else Err (insufficient_privilege "user_sports")
  end.

(** INSERT INTO coach_athletes (<columns>) VALUES (...) *)
Definition insert_coach_athletes (columns : list string) (c : caller)
    (v : Insert.coach_athletes) (d : db) : api db :=
  match Schema.first_undeclared "coach_athletes" columns with
  | Some e => Err e
  | None =>
      if permits coach_athletes_policies INSERT c d v
      then sql (insert_coach_athletes no_clause v d)
      else Err (insufficient_privilege "coach_athletes")
  end.

(** What an update of [profiles] writes into a row: the organization,
    and the role when the payload has one. *)
Definition set_profile (ro : option (option role_t)) (o : option (option uuid))
    (r : Profile.row) : Profile.row :=
  Profile.mk (Profile.id r)
    (match ro with Some x => x | None => Profile.role r end)
    (match o with Some x => x | None => Profile.organization_id r end)
    (Profile.full_name r) (Profile.email r).

(** UPDATE profiles SET <columns> WHERE id = i.  A filter value of
    [undefined] reaches the store as the text "undefined", which is no
    uuid. *)
Definition update_profiles (columns : list string) (c : caller) (i : option uuid)
    (ro : option (option role_t)) (o : option (option uuid)) (d : db) : api db :=
  match Schema.first_undeclared "profiles" columns with
  | Some e => Err e
  | None =>
      match i with
      | None => Err (sqlstate invalid_text_representation)
      | Some i =>
          let q r := bool_decide (Profile.id r = i) &&
                     permits profiles_policies UPDATE c d r &&
                     permits profiles_policies SELECT c d r in
          if forallb (fun r => negb (q r) ||
                               permits profiles_policies UPDATE c d (set_profile ro o r))
                     (profiles d)
          then Ok (set_profiles
                     (map (fun r => if q r then set_profile ro o r else r) (profiles d)) d)
          else Err (insufficient_privilege "profiles")
      end
  end.

End Api.

(** ** [handle_new_user], statement by statement

    [handle_new_user] above lets a failure reach the INSERT statements of
    the function only, each inside the block that traps it.  The function
    has more statements than those, and its handlers do not trap
    everything: the SELECT that looks for an existing profile stands
    outside every block, [pg_sleep] is called inside the handler itself,
    and WHEN others traps neither a cancellation of the statement
    (query_canceled) nor a failed assertion.  Here every statement has its
    own ending. *)
Module Bootstrap.

Inductive ending :=
  | completes                 (* the statement runs against the store *)
  | fails (e : pg_error)      (* it ends with an error that WHEN others traps *)
  | cancelled.                (* it ends with query_canceled *)

(** How the statements of one run end: the SELECT, the INSERTs in the
    order 0, 1, 2 for the loop and [_max_retries] for the last one with
    minimal data, and the calls of [pg_sleep], one per pass through the
    handler. *)
Record schedule := mk_schedule {
  lookup : ending;
  inserts : list ending;
  sleeps : list ending
}.

Definition ending_at (i : nat) (l : list ending) : ending := nth i l completes.

(** The schedule in which every statement completes. *)
Definition quiet : schedule := mk_schedule completes [] [].

(** The schedule in which the only failures are those of a fault
    schedule of [handle_new_user]. *)
Definition of_faults (faults : list bool) : schedule :=
  mk_schedule completes
    (map (fun b : bool => if b then fails store_fault else completes) faults) [].

(** What leaves the function through no handler. *)
Inductive condition :=
  | raised_by (e : pg_error)
  | query_canceled.

(** An INSERT inside BEGIN ... EXCEPTION WHEN others: its row, the error
    the handler receives, or a cancellation, which the handler does not
    see.  The block is a savepoint: a failed INSERT leaves no row. *)
Inductive trapped :=
  | inserted (d : db)
  | caught (e : pg_error)
  | escapes.

Definition INSERT_INTO_profiles_VALUES (en : ending) (r : Profile.row) (d : db)
  : trapped :=
  match en with
  | completes =>
      match insert_profiles r d with
      | Ok d' => inserted d'
      | Err e => caught e
      end
  | fails e => caught e
  | cancelled => escapes
  end.

(** PERFORM pg_sleep(0.01), in the handler: whatever ends it other than
    its completion leaves the function. *)
Definition PERFORM_pg_sleep (en : ending) : option condition :=
  match en with
  | completes => None
  | fails e => Some (raised_by e)
  | cancelled => Some query_canceled
  end.

Inductive pass :=
  | goes_on (v : retry_vars)
  | leaves (c : condition) (log : list notice).

(** One pass through the body of the WHILE loop. *)
Definition retry_body (s : schedule) (i : uuid) (new : AuthUser.row)
    (_full_name : text) (v : retry_vars) : pass :=
  match INSERT_INTO_profiles_VALUES (ending_at (_retry_count v) (inserts s))
          (profile_values i _full_name new) (store v) with
  | inserted d' =>
      goes_on (mk_vars (_retry_count v) true d'
                 (raised v ++ [INSERT_INTO_profiles _full_name None]))
  | escapes => leaves query_canceled (raised v)
  | caught e =>
      let n := _retry_count v + 1 in
      let log := raised v ++ [INSERT_INTO_profiles _full_name (Some e)] in
      let last :=
        if n =? _max_retries then
          match INSERT_INTO_profiles_VALUES (ending_at _max_retries (inserts s))
                  (profile_values i "New User" new) (store v) with
          | inserted d' =>
              Some (d', [WARNING_failed_after _max_retries e;
                         final_INSERT_INTO_profiles "New User" None])
          | caught e' =>
              Some (store v, [WARNING_failed_after _max_retries e;
                              final_INSERT_INTO_profiles "New User" (Some e');
                              WARNING_final_attempt_failed e'])
          | escapes => None
          end
        else Some (store v, [])
      in
      match last with
      | None => leaves query_canceled (log ++ [WARNING_failed_after _max_retries e])
      | Some (d', l) =>
          match PERFORM_pg_sleep (ending_at (_retry_count v) (sleeps s)) with
          | None => goes_on (mk_vars n false d' (log ++ l ++ [pg_sleep 10]))
          | Some c => leaves c (log ++ l)
          end
      end
  end.

(** WHILE _retry_count < _max_retries AND NOT _success LOOP ... END LOOP;
    [None] when the fuel runs out before the condition turns false. *)
Fixpoint retry_loop (fuel : nat) (s : schedule) (i : uuid)
    (new : AuthUser.row) (_full_name : text) (v : retry_vars) : option pass :=
  if (_retry_count v <? _max_retries) && negb (_success v) then
    match fuel with
    | 0 => None
    | S fuel' =>
        match retry_body s i new _full_name v with
        | goes_on v' => retry_loop fuel' s i new _full_name v'
        | leaves c log => Some (leaves c log)
        end
    end
  else Some (goes_on v).

(** How a run of the function ends.  An exception, raised or let
    through, undoes what the function did and fails the INSERT on
    [auth.users] that fired the trigger. *)
Inductive outcome :=
  | RETURN_new (d : db) (log : list notice)
  | RAISE_EXCEPTION (message : string)
  | unhandled (c : condition) (log : list notice).

Definition handle_new_user_fuel (fuel : nat) (s : schedule)
    (new : AuthUser.row) (d : db) : option outcome :=
  match AuthUser.id new with
  | None => Some (RAISE_EXCEPTION "User ID cannot be null")
  | Some i =>
      match lookup s with
      | fails e => Some (unhandled (raised_by e) [])
      | cancelled => Some (unhandled query_canceled [])
      | completes =>
          if profile_exists i d then Some (RETURN_new d [])
          else
            match retry_loop fuel s i new (extract_full_name new)
                    (mk_vars 0 false d []) with
            | None => None
            | Some (goes_on v) => Some (RETURN_new (store v) (raised v))
            | Some (leaves c log) => Some (unhandled c log)
            end
      end
  end.

Definition handle_new_user : schedule -> AuthUser.row -> db -> option outcome :=
  handle_new_user_fuel _max_retries.

(** The run for an account without a profile, attempt by attempt: the
    loop written out for its three passes.  Every attempt meets the store
    [d] the run started from, because a failed one leaves no row. *)
Definition three_attempts (s : schedule) (i : uuid) (new : AuthUser.row) (d : db)
  : outcome :=
  let name := extract_full_name new in
  let A k := INSERT_INTO_profiles_VALUES (ending_at k (inserts s))
               (profile_values i name new) d in
  let Z k := PERFORM_pg_sleep (ending_at k (sleeps s)) in
  let no e := INSERT_INTO_profiles name (Some e) in
  let zz := pg_sleep 10 in
  match A 0 with
  | inserted d' => RETURN_new d' [INSERT_INTO_profiles name None]
  | escapes => unhandled query_canceled []
  | caught e0 =>
  match Z 0 with
  | Some c => unhandled c [no e0]
  | None =>
  match A 1 with
  | inserted d' => RETURN_new d' [no e0; zz; INSERT_INTO_profiles name None]
  | escapes => unhandled query_canceled [no e0; zz]
  | caught e1 =>
  match Z 1 with
  | Some c => unhandled c [no e0; zz; no e1]
  | None =>
  match A 2 with
  | inserted d' => RETURN_new d' [no e0; zz; no e1; zz; INSERT_INTO_profiles name None]
  | escapes => unhandled query_canceled [no e0; zz; no e1; zz]
  | caught e2 =>
  let tried := [no e0; zz; no e1; zz; no e2; WARNING_failed_after _max_retries e2] in
  match INSERT_INTO_profiles_VALUES (ending_at _max_retries (inserts s))
          (profile_values i "New User" new) d with
  | escapes => unhandled query_canceled tried
  | inserted d' =>
      let log := tried ++ [final_INSERT_INTO_profiles "New User" None] in
      match Z 2 with
      | None => RETURN_new d' (log ++ [zz])
      | Some c => unhandled c log
      end
  | caught e' =>
      let log := tried ++ [final_INSERT_INTO_profiles "New User" (Some e');
                           WARNING_final_attempt_failed e'] in
      match Z 2 with
      | None => RETURN_new d (log ++ [zz])
      | Some c => unhandled c log
      end
  end end end end end end.

(** The store once the statement that fired the trigger has ended. *)
Definition store_after (o : option outcome) (d : db) : db :=
  match o with
  | Some (RETURN_new d' _) => d'
  | _ => d
  end.

(** Whether the account exists afterwards. *)
Definition account_created (o : option outcome) : bool :=
  match o with
  | Some (RETURN_new _ _) => true
  | _ => false
  end.

End Bootstrap.


(** ** The pages against the API *)

Module Deployed.

(** What a handler's [catch] receives. *)
Inductive js_error :=
  | Error (message : string)
  | PostgrestError (e : api_error)
  | TypeError (property : string).

Abbreviation js := (result js_error).

Definition throw_if (b : bool) (e : js_error) : js unit :=
  if b then Err e else Ok tt.

Definition read_property {A} (o : option A) (name : string) : js A :=
  match o with
  | Some a => Ok a
  | None => Err (TypeError name)
  end.

(** A statement whose reply the caller drops. *)
Definition ignoring {A} (r : api A) (proj : A -> db) (d : db) : db :=
  match r with
  | Ok a => proj a
  | Err _ => d
  end.

(** WHERE code = c AND used_at IS NULL *)
Definition unused_code (c : text) (r : AccessCode.row) : bool :=
  code_is c r && is_null (AccessCode.used_at r).

(** The rows a lookup of an unused code shows to the caller. *)
Definition visible_unused (c : caller) (code : text) (d : db) : list AccessCode.row :=
  filter (fun r => unused_code code r && permits access_codes_policies SELECT c d r = true)
         (access_codes d).

(** athlete/AccessCode.tsx *)
Module AthleteAccessCode.

(** The select list of [validateCode]. *)
Definition details : Schema.request :=
  Schema.mk_request "access_codes"
    ["id"; "role"; "used_at"; "sport_id"; "coach_id"; "organization_id"; "gender"]
    [Schema.embed_of "sports" ["name"];
     Schema.embed_of "created_by" ["first_name"; "last_name"];
     Schema.embed_of "organizations" ["name"]].

Record state := mk_state {
  code : text;
  error : option js_error;
  codeDetails : option AthletePage.AccessCodeDetails
}.

(** The [try] block of [validateCode]. *)
Definition validateCode_try (user : option uuid) (faults : list bool)
    (d : db) (code : text) : js AthletePage.AccessCodeDetails :=
  _ ← throw_if (bool_decide (trim code = "")) (Error "Please enter an access code");
  uid ← match user with
        | Some uid => Ok uid
        | None => Err (Error "Authentication required")
        end;
  let r0 := Api.single
              (Api.attempt (fault_at 0 faults)
                 (Api.select_access_codes details (authenticated uid)
                    (code_is (trim code)) d)) in
  _ ← throw_if (Api.failed r0) (Error "Invalid access code");
  a ← match Api.data r0 with
      | Some r => Ok (AthletePage.select_row d r)
      | None => Err (Error "Code not found")
      end;
  _ ← throw_if (is_not_null (AthletePage.used_at a))
        (Error "This code has already been used");
  _ ← throw_if (negb (bool_decide (AthletePage.role a = athlete)))
        (Error "Invalid code type");
  let r1 := Api.single
              (Api.attempt (fault_at 1 faults)
                 (Api.select_coach_athletes (authenticated uid)
                    (AthletePage.connection_matches uid a) d)) in
  _ ← throw_if (is_not_null (Api.data r1))
        (Error "You are already connected to this team");
  sp ← read_property (AthletePage.sports a) "name";
  cr ← read_property (AthletePage.creator a) "first_name";
  og ← read_property (AthletePage.organizations a) "name";
  Ok (AthletePage.mk_details (AthletePage.sport_id a) (AthletePage.coach_id a)
        (AthletePage.organization_id a) sp (cr.1 +:+ " " +:+ cr.2)
        (AthletePage.gender a) og).

Definition validateCode (user : option uuid) (faults : list bool) (d : db)
    (p : state) : state :=
  match validateCode_try user faults d (code p) with
  | Ok details => mk_state (code p) None (Some details)
  | Err e => mk_state (code p) (Some e) None
  end.

Record join_result := mk_join {
  page : state;
  final : db;
  navigate : option string
}.

Definition thrown (p : state) (e : api_error) (d : db) : join_result :=
  mk_join (mk_state (code p) (Some (PostgrestError e)) (codeDetails p)) d None.

Definition handleJoin (user : option uuid) (now : timestamptz)
    (faults : list bool) (d : db) (p : state) : join_result :=
  match codeDetails p, user with
  | Some cd, Some uid =>
      let c := authenticated uid in
      (* First mark the code as used *)
      match Api.attempt (fault_at 0 faults)
              (Api.update_access_codes c (trim (code p)) (mk_patch now (Some uid)) d) with
      | Err e => thrown p e d
      | Ok rep =>
          let d1 := after rep in
          (* Connect athlete to coach *)
          match Api.attempt (fault_at 1 faults)
                  (Api.insert_coach_athletes
                     ["athlete_id"; "coach_id"; "sport_id"; "organization_id"; "gender"] c
                     (Insert.mk_ca (AthletePage.d_coach_id cd) (Some uid)
                        (AthletePage.d_sport_id cd) (AthletePage.d_organization_id cd)
                        (AthletePage.d_gender cd)) d1) with
          | Err e => thrown p e d1
          | Ok d2 =>
              (* Add sport to user's sports *)
              match Api.attempt (fault_at 2 faults)
                      (Api.insert_user_sports
                         ["user_id"; "sport_id"; "organization_id"; "gender"] c
                         (UserSport.mk (Some uid) (AthletePage.d_sport_id cd)
                            (AthletePage.d_organization_id cd)
                            (AthletePage.d_gender cd)) d2) with
              | Err e => thrown p e d2
              | Ok d3 => mk_join p d3 (Some "/athlete")
              end
          end
      end
  | _, _ => mk_join p d None
  end.

End AthleteAccessCode.

(** coach/AccessCode.tsx; [user] is the account of the session, which
    [supabase.auth.getUser()] reports and in whose name the statements
    run. *)
Module CoachAccessCode.

Record submit_result := mk_submit {
  error : option js_error;
  final : db;
  navigate : option string
}.

(** The reply of the lookup, and what the handler keeps of it. *)
Definition lookup (user : option uuid) (fault : bool) (d : db) (code : text)
  : Api.reply AccessCode.row :=
  Api.single
    (Api.attempt fault
       (Api.select_access_codes (Schema.star "access_codes") (caller_of user)
          (unused_code code) d)).

Definition codeData (user : option uuid) (fault : bool) (d : db) (code : text)
  : option AccessCode.row :=
  let r0 := lookup user fault d code in
  if Api.failed r0 then None else Api.data r0.

Definition handleSubmit (user : option uuid) (now : timestamptz)
    (faults : list bool) (d : db) (code : text) : submit_result :=
  let c := caller_of user in
  (* Verify the access code *)
  match codeData user (fault_at 0 faults) d code with
  | None => mk_submit (Some (Error "Invalid or expired access code")) d None
  | Some codeData =>
      if negb (bool_decide (AccessCode.role codeData = coach)) then
        mk_submit (Some (Error "This code is not valid for coaches")) d None
      else
        (* Update profile with organization *)
        match Api.attempt (fault_at 1 faults)
                (Api.update_profiles ["organization_id"] c user None
                   (Some (AccessCode.organization_id codeData)) d) with
        | Err e => mk_submit (Some (PostgrestError e)) d None
        | Ok d1 =>
            (* Mark code as used *)
            let d2 := ignoring
                        (Api.attempt (fault_at 2 faults)
                           (Api.update_access_codes c code (mk_patch now user) d1))
                        after d1 in
            (* Add sport association if specified *)
            let d3 :=
              if is_not_null (AccessCode.sport_id codeData) then
                ignoring
                  (Api.attempt (fault_at 3 faults)
                     (Api.insert_user_sports
                        ["user_id"; "sport_id"; "organization_id"] c
                        (UserSport.mk user (AccessCode.sport_id codeData)
                           (AccessCode.organization_id codeData) None) d2))
                  id d2
              else d2 in
            mk_submit None d3 (Some "/coach")
        end
  end.

End CoachAccessCode.

(** auth/SignUp.tsx, the part of [handleSignUp] that follows a successful
    [auth.signUp].  [newUser] is the account just created; the statements
    run in the name of whoever the client holds a session for, which is
    the new account only when [auth.signUp] opened one. *)
Module SignUpPage.

Record code_result := mk_code_result {
  error : option js_error;
  final : db;
  setRole : option role_t
}.

Definition handleSignUp_accessCode (c : caller) (newUser : uuid)
    (now : timestamptz) (faults : list bool) (d : db) (accessCode : text)
  : code_result :=
  if bool_decide (trim accessCode = "") then mk_code_result None d None
  else
    let r0 := Api.single
                (Api.attempt (fault_at 0 faults)
                   (Api.select_access_codes (Schema.star "access_codes") c
                      (unused_code (trim accessCode)) d)) in
    match (if Api.failed r0 then None else Api.data r0) with
    | None => mk_code_result (Some (Error "Invalid or expired access code")) d None
    | Some codeData =>
        let d1 := ignoring
                    (Api.attempt (fault_at 1 faults)
                       (Api.update_access_codes c (trim accessCode)
                          (mk_patch now (Some newUser)) d))
                    after d in
        let d2 := ignoring
                    (Api.attempt (fault_at 2 faults)
                       (Api.update_profiles ["role"; "organization_id"; "updated_at"] c
                          (Some newUser) (Some (Some (AccessCode.role codeData)))
                          (Some (AccessCode.organization_id codeData)) d1))
                    id d1 in
        let d3 :=
          if is_not_null (AccessCode.sport_id codeData) then
            ignoring
              (Api.attempt (fault_at 3 faults)
                 (Api.insert_user_sports
                    ["user_id"; "sport_id"; "organization_id"; "created_at"] c
                    (UserSport.mk (Some newUser) (AccessCode.sport_id codeData)
                       (AccessCode.organization_id codeData) None) d2))
              id d2
          else d2 in
        mk_code_result None d3 (Some (AccessCode.role codeData))
    end.

(** The listener of [onAuthStateChange], for the event SIGNED_IN of the
    account [uid]: where it navigates, given the text of the code field. *)
Definition SIGNED_IN (uid : uuid) (fault : bool) (d : db) (accessCode : string)
  : string :=
  if negb (bool_decide (trim accessCode = "")) then
    match Api.data
            (Api.single
               (Api.attempt fault
                  (Api.select_access_codes (Schema.star "access_codes")
                     (authenticated uid) (code_is (trim accessCode)) d))) with
    | Some codeData => "/dashboard/" +:+ role_name (AccessCode.role codeData)
    | None => "/RoleSelection"
    end
  else "/RoleSelection".

End SignUpPage.

(** *** Sessions and interleavings *)

Record session := mk_session {
  user : option uuid;
  page : AthleteAccessCode.state
}.

Record world := mk_world {
  database : db;
  athletes : list session
}.

(** What can happen next: a keystroke or a click in the athlete page of
    session [i]; a submission of the coach page; the code part of a
    sign-up; the creation of an account; and, for any caller, an update
    or an insert of a code sent through the API, which covers the pages
    that issue codes. *)
Inductive event :=
  | setCode (i : nat) (t : text)
  | validateCode (i : nat) (faults : list bool)
  | handleJoin (i : nat) (now : timestamptz) (faults : list bool)
  | handleSubmit (u : option uuid) (c : text) (now : timestamptz) (faults : list bool)
  | handleSignUp (c : caller) (newUser : uuid) (t : text) (now : timestamptz)
                 (faults : list bool)
  | auth_users_insert (new : AuthUser.row) (s : Bootstrap.schedule)
  | update_code (c : caller) (t : text) (p : access_code_patch)
  | insert_code (c : caller) (r : AccessCode.row).

Definition with_session (i : nat) (w : world)
    (k : session -> db -> session * db) : world :=
  match athletes w !! i with
  | Some s =>
      let '(s', d') := k s (database w) in
      mk_world d' (<[i := s']> (athletes w))
  | None => w
  end.

Definition step (w : world) (e : event) : world :=
  match e with
  | setCode i t =>
      with_session i w (fun s d =>
        (mk_session (user s)
           (AthleteAccessCode.mk_state t (AthleteAccessCode.error (page s))
              (AthleteAccessCode.codeDetails (page s))), d))
  | validateCode i faults =>
      with_session i w (fun s d =>
        (mk_session (user s)
           (AthleteAccessCode.validateCode (user s) faults d (page s)), d))
  | handleJoin i now faults =>
      with_session i w (fun s d =>
        let r := AthleteAccessCode.handleJoin (user s) now faults d (page s) in
        (mk_session (user s) (AthleteAccessCode.page r), AthleteAccessCode.final r))
  | handleSubmit u c now faults =>
      mk_world (CoachAccessCode.final
                  (CoachAccessCode.handleSubmit u now faults (database w) c))
               (athletes w)
  | handleSignUp c newUser t now faults =>
      mk_world (SignUpPage.final
                  (SignUpPage.handleSignUp_accessCode c newUser now faults
                     (database w) t))
               (athletes w)
  | auth_users_insert new s =>
      mk_world (Bootstrap.store_after
                  (Bootstrap.handle_new_user s new (database w)) (database w))
               (athletes w)
  | update_code c t p =>
      mk_world (ignoring (Api.update_access_codes c t p (database w))
                  after (database w))
               (athletes w)
  | insert_code c r =>
      mk_world (ignoring (Api.insert_access_codes c r (database w)) id (database w))
               (athletes w)
  end.

Definition run (w : world) (es : list event) : world := fold_left step es w.

(** A session whose athlete page holds no verified details. *)
Definition no_details (s : session) : Prop :=
  AthleteAccessCode.codeDetails (page s) = None.

End Deployed.

(** ** The whole of [handleSignUp]: auth/SignUp.tsx *)

(** [setRole] of the auth store, its update going through the API in the
    name of [c]. *)
Definition setRole (c : caller) (ro : option role_t) (fault : bool) (d : db)
    (st : AuthStore.state) : AuthStore.state * db :=
  if bool_decide (ro = AuthStore.role st) then (st, d)
  else
    match AuthStore.user st with
    | Some u =>
        match Api.attempt fault
                (Api.update_profiles ["role"; "updated_at"] c
                   (Some (AuthStore.id u)) (Some ro) None d) with
        | Ok d' =>
            (AuthStore.mk_state (AuthStore.user st) ro (AuthStore.organizationId st)
               false (AuthStore.initialized st), d')
        | Err _ =>
            (AuthStore.mk_state (AuthStore.user st) (AuthStore.role st)
               (AuthStore.organizationId st) false (AuthStore.initialized st), d)
        end
    | None =>
        (AuthStore.mk_state (AuthStore.user st) ro (AuthStore.organizationId st)
           false (AuthStore.initialized st), d)
    end.

Module SignUpForm.

Record form := mk_form {
  email : string;
  password : string;
  confirmPassword : string;
  fullName : string;
  accessCode : string
}.

(** What the sign-up service does with the request: it refuses, it
    answers without a user, or it inserts the account [id] into
    [auth.users]; [session] is the caller in whose name the statements of
    the client run afterwards (the new account when the service opened a
    session for it). *)
Inductive service :=
  | refuses (message : string)
  | answers_no_user
  | inserts (id : uuid) (session : caller).

(** The row of [auth.users] an accepted sign-up inserts: the address of
    the form and, as metadata, [{ full_name: fullName }]. *)
Definition new_account (f : form) (i : uuid) : AuthUser.row :=
  AuthUser.mk (Some i) (Some (email f)) (Some [("full_name", Some (fullName f))]).

(** [supabase.auth.signUp]: the insert fires [on_auth_user_created], and
    an exception of the trigger function fails the insert, and with it
    the sign-up. *)
Definition auth_signUp (f : form) (sv : service) (s : Bootstrap.schedule) (d : db)
  : Deployed.js (option uuid) * db :=
  match sv with
  | refuses m => (Err (Deployed.Error m), d)
  | answers_no_user => (Ok None, d)
  | inserts i _ =>
      match Bootstrap.handle_new_user s (new_account f i) d with
      | Some (Bootstrap.RETURN_new d' _) => (Ok (Some i), d')
      | _ => (Err (Deployed.Error "Database error saving new user"), d)
      end
  end.

(** The checks at the head of the handler. *)
Definition validation (f : form) : Deployed.js unit :=
  _ ← Deployed.throw_if (bool_decide (trim (email f) = ""))
        (Deployed.Error "Email is required");
  _ ← Deployed.throw_if (bool_decide (trim (fullName f) = ""))
        (Deployed.Error "Full name is required");
  _ ← Deployed.throw_if (negb (bool_decide (password f = confirmPassword f)))
        (Deployed.Error "Passwords do not match");
  Deployed.throw_if (utf16_length (password f) <? 8)
    (Deployed.Error "Password must be at least 8 characters long").

Record result := mk_result {
  error : option Deployed.js_error;
  final : db;
  auth : AuthStore.state
}.

Definition session_of (sv : service) : caller :=
  match sv with
  | inserts _ c => c
  | _ => anon
  end.

(** The [catch] block: [setUser(null)], then [setRole(null)]. *)
Definition catch (e : Deployed.js_error) (c : caller) (fault : bool) (d : db)
    (st : AuthStore.state) : result :=
  let st1 := AuthStore.setUser None st in
  let '(st2, d') := setRole c None fault d st1 in
  mk_result (Some e) d' st2.

(** The fault schedule: 0 to 3 the statements on the code, 4 the update
    of [setRole], 5 the update that [setRole(null)] would send. *)
Definition handleSignUp (f : form) (sv : service) (s : Bootstrap.schedule)
    (now : timestamptz) (faults : list bool) (d : db) (st : AuthStore.state) : result :=
  let c := session_of sv in
  match validation f with
  | Err e => catch e c (fault_at 5 faults) d st
  | Ok _ =>
      match auth_signUp f sv s d with
      | (Err e, d0) => catch e c (fault_at 5 faults) d0 st
      | (Ok None, d0) =>
          catch (Deployed.Error "Failed to create account") c (fault_at 5 faults) d0 st
      | (Ok (Some i), d0) =>
          let st1 := AuthStore.setUser (Some (AuthStore.mk_user i (Some (email f)))) st in
          let r := Deployed.SignUpPage.handleSignUp_accessCode c i now faults d0
                     (accessCode f) in
          match Deployed.SignUpPage.error r with
          | Some e => catch e c (fault_at 5 faults) (Deployed.SignUpPage.final r) st1
          | None =>
              match Deployed.SignUpPage.setRole r with
              | Some ro =>
                  let '(st2, d2) :=
                    setRole c (Some ro) (fault_at 4 faults)
                      (Deployed.SignUpPage.final r) st1 in
                  mk_result None d2 st2
              | None => mk_result None (Deployed.SignUpPage.final r) st1
              end
          end
      end
  end.

End SignUpForm.

(** ** The scenario of the specification, as a store

    Organization O1 with an administrator, a coach and an athlete; the
    code [AB-123-CD] issued for athletes (Soccer, female) and the code
    [CO-777-XX] issued for coaches, both by the administrator.  The rows
    leave NULL what the tables do not declare. *)
Module Scenario.

Definition AB_123_CD : AccessCode.row :=
  AccessCode.mk "AB-123-CD" (Some "O1") athlete (Some "soccer") (Some female)
                (Some "admin-1") None None None.

Definition CO_777_XX : AccessCode.row :=
  AccessCode.mk "CO-777-XX" (Some "O1") coach (Some "soccer") None
                (Some "admin-1") None None None.



(** The coach code once it records a consumer. *)
Definition CO_777_XX_used : AccessCode.row :=
  AccessCode.mk "CO-777-XX" (Some "O1") coach (Some "soccer") None
                (Some "admin-1") None (Some 5) (Some "C0").

Definition member (i : uuid) (ro : role_t) (name address : text) : Profile.row :=
  Profile.mk i (Some ro) (Some "O1") (Some name) (Some address).

Definition members : list Profile.row :=
  [member "admin-1" admin "Ada Admin" "ada@example.com";
   member "C1" coach "Carl Coach" "carl@example.com";
   member "A" athlete "Alice Athlete" "alice@example.com"].

Definition store (codes : list AccessCode.row) : db :=
  mkdb codes members [] []
       [("soccer", "Soccer")]
       [("O1", "Organization One"); ("O2", "Organization Two")] [].

Definition club : db := store [AB_123_CD; CO_777_XX].

(** The athlete A on a blank page. *)
Definition initially (d : db) : Deployed.world :=
  Deployed.mk_world d
    [Deployed.mk_session (Some "A")
       (Deployed.AthleteAccessCode.mk_state "" None None)].

Definition page_of (i : nat) (w : Deployed.world)
  : option Deployed.AthleteAccessCode.state :=
  Deployed.page <$> Deployed.athletes w !! i.

(** An account whose address the CHECK [valid_email] rejects. *)
Definition no_domain : AuthUser.row :=
  AuthUser.mk (Some "u9") (Some "bob@localhost")
              (Some [("full_name", Some "Bob")]).

End Scenario.

(** * The text primitives on small inputs *)

Example js_trim_pads : js_trim "  AB-123-CD  " = "AB-123-CD".
Proof. reflexivity. Qed.

Example js_trim_blank : js_trim "   " = "".
Proof. reflexivity. Qed.

(** A tab is white space for JavaScript and no space for SQL. *)
Example trim_tab :
  js_trim (String (ascii_of_nat 9) "x") = "x" /\
  sql_trim (String (ascii_of_nat 9) "x") = String (ascii_of_nat 9) "x".
Proof. split; reflexivity. Qed.

Example sql_trim_name : sql_trim "  Jane Doe " = "Jane Doe".
Proof. reflexivity. Qed.

Example valid_email_accepts :
  valid_email (Some "jane.doe+team@mail.example.org") = true /\
  valid_email None = true.
Proof. split; reflexivity. Qed.

Example valid_email_rejects :
  valid_email (Some "jane@example") = false /\
  valid_email (Some "jane@example.c") = false /\
  valid_email (Some "@example.com") = false /\
  valid_email (Some "jane@@example.com") = false /\
  valid_email (Some "jane doe@example.com") = false.
Proof. repeat split; reflexivity. Qed.

Example single_of_two : data (single [1; 2]) = None /\ failed (single [1; 2]) = true.
Proof. split; reflexivity. Qed.

(** * Facts about the statements *)

Lemma attempt_Ok {A} (f : bool) (r : pg A) (a : A) :
  attempt f r = Ok a -> f = false /\ r = Ok a.
Proof. destruct f; simpl; [discriminate | done]. Qed.

Lemma profile_exists_count i d :
  profile_exists i d = false <-> profile_count i d = 0.
Proof.
  unfold profile_exists, profile_count.
  induction (profiles d) as [|r l IH]; simpl; [done|].
  destruct (bool_decide (Profile.id r = i)); simpl; [split; discriminate | exact IH].
Qed.

Lemma insert_profiles_Ok r d d' :
  insert_profiles r d = Ok d' ->
  d' = set_profiles (profiles d ++ [r]) d /\
  valid_email (Profile.email r) = true /\
  profile_exists (Profile.id r) d = false.
Proof.
  unfold insert_profiles.
  destruct (valid_email (Profile.email r)); simpl; [|discriminate].
  destruct (profile_exists (Profile.id r) d); [discriminate|].
  intros [= <-]. done.
Qed.

Lemma count_if_app p l1 l2 :
  count_if p (l1 ++ l2) = count_if p l1 + count_if p l2.
Proof. unfold count_if. now rewrite List.filter_app, length_app. Qed.

Lemma count_if_zero_not_In p l n :
  count_if p l = 0 -> p n = true -> ~ In n l.
Proof.
  unfold count_if. induction l as [|m l IH]; simpl; [tauto|].
  intros Hc Hp [->|Hin].
  - rewrite Hp in Hc. discriminate.
  - destruct (p m); [discriminate | now apply IH].
Qed.

(** * The retry loop of [handle_new_user] *)

Section retry_loop.
Variables (faults : list bool) (i : uuid) (new : AuthUser.row) (d : db).

Lemma retry_inv_init : retry_inv i new d (mk_vars 0 false d []).
Proof. split; simpl; unfold _max_retries; try done; lia. Qed.

Lemma retry_body_inv v :
  retry_inv i new d v -> _retry_count v < _max_retries -> _success v = false ->
  retry_inv i new d (retry_body faults i new (extract_full_name new) v) /\
  (_success (retry_body faults i new (extract_full_name new) v) = true \/
   _retry_count (retry_body faults i new (extract_full_name new) v)
   = S (_retry_count v)).
Proof.
  intros [Hb Hf Hs Hi _ Hp _] Hlt Hfalse.
  destruct (Hp Hfalse Hlt) as [Hst Hfin].
  rewrite Hfalse in Hi. unfold retry_body. rewrite Hst.
  destruct (attempt (fault_at (_retry_count v) faults)
              (insert_profiles (profile_values i (extract_full_name new) new) d))
    as [d1|e] eqn:E1.
  - (* the INSERT went through *)
    split; [|now left].
    apply attempt_Ok in E1 as [_ E1].
    split; simpl; rewrite ?count_if_app; cbn -[_max_retries]; try lia; try done.
    intros _. repeat split; [lia | lia | done].
  - (* it raised: the handler runs *)
    destruct (_retry_count v + 1 =? _max_retries) eqn:En.
    + apply Nat.eqb_eq in En.
      destruct (attempt (fault_at _max_retries faults)
                  (insert_profiles (profile_values i "New User" new) d))
        as [d2|e2] eqn:E2.
      * apply attempt_Ok in E2 as [_ E2].
        split; [|right; simpl; lia].
        split; simpl; rewrite ?count_if_app; cbn -[_max_retries];
          try lia; try done.
        intros _ _. repeat split; [lia | lia | now right].
      * split; [|right; simpl; lia].
        split; simpl; rewrite ?count_if_app; cbn -[_max_retries];
          try lia; try done.
        intros _ _. repeat split; [lia | lia |].
        left. split; [done|].
        intros Hin. apply in_app_or in Hin as [Hin|Hin].
        -- now apply (count_if_zero_not_In _ _ _ Hfin) in Hin.
        -- simpl in Hin. intuition discriminate.
    + apply Nat.eqb_neq in En.
      split; [|right; simpl; lia].
      split; simpl; rewrite ?count_if_app; cbn -[_max_retries];
        try lia; try done.
      intros _ Hlt'. split; [done | lia].
Qed.

(** The loop ends within [_max_retries] passes, whatever the store does. *)
Lemma retry_loop_terminates fuel v :
  retry_inv i new d v -> _max_retries <= fuel + _retry_count v ->
  exists v',
    retry_loop fuel faults i new (extract_full_name new) v = Some v' /\
    retry_inv i new d v' /\
    (_success v' = true \/ _retry_count v' = _max_retries).
Proof.
  revert v. induction fuel as [|fuel IH]; intros v Hinv Hfuel.
  - pose proof (inv_bound _ _ _ v Hinv) as Hb. simpl in *.
    assert (_retry_count v = _max_retries) as Heq by lia.
    rewrite Heq, Nat.ltb_irrefl. simpl. eauto.
  - simpl.
    destruct (_retry_count v <? _max_retries) eqn:Hlt; simpl.
    + destruct (_success v) eqn:Hs; simpl; [eauto|].
      apply Nat.ltb_lt in Hlt.
      destruct (retry_body_inv v Hinv Hlt Hs) as [Hinv' Hprog].
      destruct Hprog as [Hsucc|Hcount].
      * exists (retry_body faults i new (extract_full_name new) v).
        split; [|eauto].
        destruct fuel; simpl; now rewrite Hsucc, andb_false_r.
      * apply IH; [done | lia].
    + apply Nat.ltb_ge in Hlt. pose proof (inv_bound _ _ _ v Hinv).
      exists v. split; [done|]. split; [done|]. right. lia.
Qed.

Lemma handle_new_user_runs :
  AuthUser.id new = Some i -> profile_exists i d = false ->
  exists v,
    handle_new_user faults new d = Some (RETURN_new (store v) (raised v)) /\
    retry_inv i new d v /\
    (_success v = true \/ _retry_count v = _max_retries).
Proof.
  intros Hid Hnew. unfold handle_new_user, handle_new_user_fuel.
  rewrite Hid, Hnew.
  destruct (retry_loop_terminates _max_retries (mk_vars 0 false d []))
    as (v & Hloop & Hinv & Hexit); [apply retry_inv_init | unfold _max_retries; simpl; lia |].
  exists v. rewrite Hloop. done.
Qed.
End retry_loop.

(** When the first INSERT goes through, it is the only statement. *)
Lemma handle_new_user_first_try faults new i d :
  AuthUser.id new = Some i -> profile_exists i d = false ->
  fault_at 0 faults = false -> valid_email (AuthUser.email new) = true ->
  handle_new_user faults new d =
  Some (RETURN_new
          (set_profiles
             (profiles d ++ [profile_values i (extract_full_name new) new]) d)
          [INSERT_INTO_profiles (extract_full_name new) None]).
Proof.
  intros Hid Hex Hf Hv.
  assert (Hbody :
    retry_body faults i new (extract_full_name new) (mk_vars 0 false d []) =
    mk_vars 0 true
      (set_profiles (profiles d ++ [profile_values i (extract_full_name new) new]) d)
      [INSERT_INTO_profiles (extract_full_name new) None]).
  { unfold retry_body. simpl _retry_count. simpl store. rewrite Hf.
    unfold attempt, insert_profiles, profile_values.
    simpl Profile.email. simpl Profile.id. rewrite Hv, Hex. reflexivity. }
  unfold handle_new_user, handle_new_user_fuel. rewrite Hid, Hex.
  unfold _max_retries at 1. cbn [retry_loop].
  change (_retry_count (mk_vars 0 false d []) <? _max_retries) with true.
  cbn [_success negb andb]. rewrite Hbody. reflexivity.
Qed.

Lemma length_positive (s : string) : (0 <? String.length s) = negb (bool_decide (s = "")).
Proof. destruct s; reflexivity. Qed.

(** The three sources of [_full_name], in the order of the CASE. *)
Lemma extract_full_name_cases new :
  let o := meta ← AuthUser.raw_user_meta_data new; jsonb_get_text meta "full_name" in
  (forall n, o = Some n -> sql_trim n <> "" -> extract_full_name new = sql_trim n) /\
  (o = None \/ (exists n, o = Some n /\ sql_trim n = "") ->
   extract_full_name new = default "New User" (AuthUser.email new)).
Proof.
  unfold extract_full_name.
  destruct (AuthUser.raw_user_meta_data new) as [meta|]; simpl.
  - destruct (jsonb_get_text meta "full_name") as [n|]; simpl.
    + rewrite length_positive. split.
      * intros n' [= <-] Hne. now rewrite bool_decide_eq_false_2.
      * intros [?|(n' & [= <-] & Hblank)]; [discriminate|].
        now rewrite bool_decide_eq_true_2.
    + split; [discriminate | done].
  - split; [discriminate | done].
Qed.

(** * Statements on the relationship tables *)

Lemma same_connection_spec c a s o r :
  same_connection c a s o r = true <->
  CoachAthlete.coach_id r = c /\ CoachAthlete.athlete_id r = a /\
  CoachAthlete.sport_id r = s /\ CoachAthlete.organization_id r = o.
Proof.
  unfold same_connection. rewrite !andb_true_iff, !bool_decide_eq_true. tauto.
Qed.

Lemma set_coach_athletes_nil d : set_coach_athletes (coach_athletes d ++ []) d = d.
Proof. destruct d. unfold set_coach_athletes. simpl. now rewrite app_nil_r. Qed.

Lemma set_coach_athletes_app l1 l2 d :
  set_coach_athletes (coach_athletes (set_coach_athletes (coach_athletes d ++ l1) d) ++ l2)
                     (set_coach_athletes (coach_athletes d ++ l1) d)
  = set_coach_athletes (coach_athletes d ++ (l1 ++ l2)) d.
Proof. unfold set_coach_athletes. simpl. now rewrite app_assoc. Qed.

(** A successful INSERT INTO coach_athletes supplies the four keys, adds at
    most the one row, and leaves that connection in the table. *)
Lemma insert_coach_athletes_Ok oc v d d' :
  insert_coach_athletes oc v d = Ok d' ->
  exists c a s o,
    Insert.coach_id v = Some c /\ Insert.athlete_id v = Some a /\
    Insert.sport_id v = Some s /\ Insert.organization_id v = Some o /\
    ((oc = ON_CONFLICT_DO_NOTHING /\ d' = d /\
      existsb (same_connection c a s o) (coach_athletes d) = true) \/
     (existsb (same_connection c a s o) (coach_athletes d) = false /\
      d' = set_coach_athletes
             (coach_athletes d ++ [CoachAthlete.mk c a s o (Insert.gender v)]) d)).
Proof.
  unfold insert_coach_athletes.
  destruct (Insert.coach_id v) as [c|]; [|discriminate].
  destruct (Insert.athlete_id v) as [a|]; [|discriminate].
  destruct (Insert.sport_id v) as [s|]; [|discriminate].
  destruct (Insert.organization_id v) as [o|]; [|discriminate].
  intros H. exists c, a, s, o. repeat split.
  destruct (existsb (same_connection c a s o) (coach_athletes d)) eqn:E.
  - destruct oc; [discriminate|]. injection H as <-. now left.
  - injection H as <-. now right.
Qed.

Lemma insert_coach_athletes_appends oc v d d' :
  insert_coach_athletes oc v d = Ok d' ->
  exists l, d' = set_coach_athletes (coach_athletes d ++ l) d.
Proof.
  intros H. apply insert_coach_athletes_Ok in H
    as (c & a & s & o & _ & _ & _ & _ & [(_ & -> & _)|(_ & ->)]).
  - exists []. now rewrite set_coach_athletes_nil.
  - eauto.
Qed.

Lemma insert_user_sports_Ok v d d' :
  insert_user_sports v d = Ok d' ->
  existsb (same_user_sport v) (user_sports d) = false /\
  d' = set_user_sports (user_sports d ++ [v]) d.
Proof.
  unfold insert_user_sports.
  destruct (existsb (same_user_sport v) (user_sports d)); [discriminate|].
  now intros [= <-].
Qed.

(** * The trigger and the UPDATE *)

Lemma WHEN_spec OLD NEW :
  on_access_code_used_WHEN OLD NEW = true <->
  AccessCode.used_by OLD = None /\ AccessCode.used_by NEW <> None.
Proof.
  unfold on_access_code_used_WHEN, is_not_null, is_null.
  destruct (AccessCode.used_by OLD), (AccessCode.used_by NEW); simpl;
    intuition congruence.
Qed.

Lemma handle_athlete_access_code_appends NEW d d' :
  handle_athlete_access_code NEW d = Ok d' ->
  exists l, d' = set_coach_athletes (coach_athletes d ++ l) d.
Proof.
  unfold handle_athlete_access_code.
  destruct (_ && _).
  - apply insert_coach_athletes_appends.
  - intros [= <-]. exists []. now rewrite set_coach_athletes_nil.
Qed.

Lemma on_access_code_used_appends pairs d n d' m :
  on_access_code_used pairs d n = Ok (d', m) ->
  exists l, d' = set_coach_athletes (coach_athletes d ++ l) d.
Proof.
  revert d n. induction pairs as [|[OLD NEW] rest IH]; intros d n; simpl.
  - intros [= <- _]. exists []. now rewrite set_coach_athletes_nil.
  - destruct (on_access_code_used_WHEN OLD NEW); [|apply IH].
    destruct (handle_athlete_access_code NEW d) as [d1|e] eqn:E; simpl; [|discriminate].
    intros H. apply IH in H as (l2 & ->).
    apply handle_athlete_access_code_appends in E as (l1 & ->).
    exists (l1 ++ l2). apply set_coach_athletes_app.
Qed.

(** Without a row passing WHEN the trigger function does not run. *)
Lemma on_access_code_used_idle pairs d n :
  Forall (fun pr => on_access_code_used_WHEN pr.1 pr.2 = false) pairs ->
  on_access_code_used pairs d n = Ok (d, n).
Proof.
  induction 1 as [|[OLD NEW] rest H _ IH]; simpl; [done|].
  simpl in H. now rewrite H.
Qed.

Lemma on_access_code_used_runs pairs d n d' m :
  on_access_code_used pairs d n = Ok (d', m) ->
  m = n + length (List.filter (fun pr => on_access_code_used_WHEN pr.1 pr.2) pairs).
Proof.
  revert d n. induction pairs as [|[OLD NEW] rest IH]; intros d n; simpl.
  - intros [= _ <-]. lia.
  - destruct (on_access_code_used_WHEN OLD NEW); simpl.
    + destruct (handle_athlete_access_code NEW d) as [d1|e]; simpl; [|discriminate].
      intros H. apply IH in H. lia.
    + apply IH.
Qed.

(** What a successful UPDATE leaves: the patched rows, and the store
    otherwise as before but for the rows the trigger added. *)
Lemma update_access_codes_Ok c p d rep :
  update_access_codes c p d = Ok rep ->
  exists l,
    after rep =
      set_coach_athletes (coach_athletes d ++ l)
        (set_access_codes (patch_where c p (access_codes d)) d) /\
    rows_affected rep = length (rows_of c d) /\
    trigger_runs rep =
      length (List.filter (fun pr => on_access_code_used_WHEN pr.1 pr.2)
                (touched c p (access_codes d))).
Proof.
  unfold update_access_codes.
  destruct (on_access_code_used _ _ 0) as [[d2 n]|e] eqn:E; simpl; [|discriminate].
  intros [= <-]. simpl.
  pose proof (on_access_code_used_runs _ _ _ _ _ E) as Hn.
  apply on_access_code_used_appends in E as (l & ->).
  exists l. repeat split; [|exact Hn].
  unfold touched, rows_of. now rewrite length_map.
Qed.

(** * Rows never go back *)

Lemma row_evolves_refl r : row_evolves r r.
Proof. unfold row_evolves. tauto. Qed.

Lemma row_evolves_trans r1 r2 r3 :
  row_evolves r1 r2 -> row_evolves r2 r3 -> row_evolves r1 r3.
Proof.
  unfold row_evolves.
  intros (? & ? & ? & ? & ? & ? & ? & Hat & Hby & Hsame)
         (? & ? & ? & ? & ? & ? & ? & Hat' & Hby' & Hsame').
  repeat split; try congruence; try tauto.
  intros Hnone. rewrite (Hsame' Hnone). apply Hsame.
  destruct (AccessCode.used_at r2); [|done]. now destruct Hat'.
Qed.

Lemma row_evolves_timed r r' : row_evolves r r' -> timed r -> timed r'.
Proof.
  unfold row_evolves, timed.
  intros (_ & _ & _ & _ & _ & _ & _ & Hat & _ & Hsame) Ht Hnone.
  rewrite (Hsame Hnone). apply Ht.
  destruct (AccessCode.used_at r); [|done]. now destruct Hat.
Qed.

Lemma patch_row_evolves p r : row_evolves r (patch_row p r).
Proof.
  unfold row_evolves, patch_row. simpl. repeat split; try done.
  destruct (patch_used_by p); [done | tauto].
Qed.

Lemma patch_where_evolves c p l : Forall2 row_evolves l (patch_where c p l).
Proof.
  induction l as [|r l IH]; simpl; constructor; [|exact IH].
  destruct (code_is c r); [apply patch_row_evolves | apply row_evolves_refl].
Qed.

Lemma Forall2_row_evolves_refl l : Forall2 row_evolves l l.
Proof. induction l; constructor; [apply row_evolves_refl | done]. Qed.

Lemma Forall2_row_evolves_trans l1 l2 l3 :
  Forall2 row_evolves l1 l2 -> Forall2 row_evolves l2 l3 -> Forall2 row_evolves l1 l3.
Proof.
  intros F1. revert l3.
  induction F1 as [|r r' l l' Hr _ IH]; intros k Fa; inversion Fa; subst; constructor.
  - eapply row_evolves_trans; eassumption.
  - now apply IH.
Qed.

Lemma Forall2_row_evolves_timed l k :
  Forall2 row_evolves l k -> Forall timed l -> Forall timed k.
Proof.
  induction 1 as [|r r' l k Hr _ IH]; intros Ht; [constructor|].
  inversion Ht; subst. constructor; [eapply row_evolves_timed; eassumption | auto].
Qed.

Lemma codes_evolve_same d d' : access_codes d' = access_codes d -> codes_evolve d d'.
Proof.
  intros H. exists (access_codes d), []. rewrite app_nil_r.
  split; [done|]. split; [apply Forall2_row_evolves_refl | constructor].
Qed.

Lemma codes_evolve_refl d : codes_evolve d d.
Proof. now apply codes_evolve_same. Qed.

Lemma codes_evolve_trans d1 d2 d3 :
  codes_evolve d1 d2 -> codes_evolve d2 d3 -> codes_evolve d1 d3.
Proof.
  intros (k1 & a1 & E1 & F1 & T1) (k2 & a2 & E2 & F2 & T2).
  rewrite E1 in F2. apply Forall2_app_inv_l in F2 as (k2a & k2b & Fa & Fb & ->).
  exists k2a, (k2b ++ a2). split; [now rewrite E2, app_assoc|]. split.
  - eapply Forall2_row_evolves_trans; eassumption.
  - apply Forall_app. split; [|exact T2].
    eapply Forall2_row_evolves_timed; eassumption.
Qed.

(** The flows keep every consumer together with a time. *)
Lemma consumer_has_time_evolves d d' :
  codes_evolve d d' -> consumer_has_time d -> consumer_has_time d'.
Proof.
  intros (kept & issued & E & F & T) H r Hin. rewrite E in Hin.
  apply in_app_or in Hin as [Hin|Hin].
  - assert (Forall timed kept) as Hk.
    { eapply Forall2_row_evolves_timed; [exact F|].
      apply List.Forall_forall. exact H. }
    rewrite List.Forall_forall in Hk. now apply Hk.
  - rewrite List.Forall_forall in T. now apply T.
Qed.

Lemma update_access_codes_evolves c p d rep :
  update_access_codes c p d = Ok rep -> codes_evolve d (after rep).
Proof.
  intros H. apply update_access_codes_Ok in H as (l & -> & _).
  exists (patch_where c p (access_codes d)), []. rewrite app_nil_r.
  split; [reflexivity|]. split; [apply patch_where_evolves | constructor].
Qed.

Lemma insert_access_codes_evolves c ro sp g org cr d d' :
  insert_access_codes c ro sp g org cr d = Ok d' -> codes_evolve d d'.
Proof.
  unfold insert_access_codes. destruct (existsb _ _); [discriminate|].
  intros [= <-]. eexists _, _. split; [reflexivity|].
  split; [apply Forall2_row_evolves_refl|].
  constructor; [|constructor]. now intros _.
Qed.

Lemma insert_coach_athletes_codes oc v d d' :
  insert_coach_athletes oc v d = Ok d' -> access_codes d' = access_codes d.
Proof. intros H. now apply insert_coach_athletes_appends in H as (l & ->). Qed.

Lemma insert_user_sports_codes v d d' :
  insert_user_sports v d = Ok d' -> access_codes d' = access_codes d.
Proof. intros H. now apply insert_user_sports_Ok in H as (_ & ->). Qed.

Lemma insert_profiles_codes r d d' :
  insert_profiles r d = Ok d' -> access_codes d' = access_codes d.
Proof. intros H. now apply insert_profiles_Ok in H as (-> & _). Qed.

Lemma update_profiles_codes i ro o d d' :
  update_profiles i ro o d = Ok d' -> access_codes d' = access_codes d.
Proof. unfold update_profiles. destruct i; [|discriminate]. now intros [= <-]. Qed.

Lemma ignoring_evolves {A} (r : pg A) (proj : A -> db) d :
  (forall a, r = Ok a -> codes_evolve d (proj a)) ->
  codes_evolve d (ignoring r proj d).
Proof. destruct r; simpl; [auto | intros _; apply codes_evolve_refl]. Qed.

Lemma handleJoin_evolves u now faults d p :
  codes_evolve d (AthletePage.final (AthletePage.handleJoin u now faults d p)).
Proof.
  unfold AthletePage.handleJoin.
  destruct (AthletePage.codeDetails p) as [cd|]; [|apply codes_evolve_refl].
  destruct u as [uid|]; [|apply codes_evolve_refl].
  destruct (attempt (fault_at 0 faults) _) as [rep|e] eqn:E0; [|apply codes_evolve_refl].
  apply attempt_Ok in E0 as [_ E0]. apply update_access_codes_evolves in E0.
  destruct (attempt (fault_at 1 faults) _) as [d2|e] eqn:E1; [|exact E0].
  apply attempt_Ok in E1 as [_ E1]. apply insert_coach_athletes_codes in E1.
  destruct (attempt (fault_at 2 faults) _) as [d3|e] eqn:E2; simpl.
  - apply attempt_Ok in E2 as [_ E2]. apply insert_user_sports_codes in E2.
    eapply codes_evolve_trans; [exact E0|]. apply codes_evolve_same. congruence.
  - eapply codes_evolve_trans; [exact E0|]. now apply codes_evolve_same.
Qed.

Lemma handleSubmit_evolves u now faults d c :
  codes_evolve d (CoachPage.final (CoachPage.handleSubmit u now faults d c)).
Proof.
  unfold CoachPage.handleSubmit.
  destruct (if failed _ then None else _) as [codeData|]; [|apply codes_evolve_refl].
  destruct (negb _); [apply codes_evolve_refl|].
  destruct (attempt (fault_at 1 faults) _) as [d1|e] eqn:E1; [|apply codes_evolve_refl].
  apply attempt_Ok in E1 as [_ E1]. apply update_profiles_codes in E1.
  simpl.
  assert (H2 : codes_evolve d
                 (ignoring (attempt (fault_at 2 faults)
                              (update_access_codes c (mk_patch now u) d1)) after d1)).
  { apply (codes_evolve_trans _ d1); [now apply codes_evolve_same|].
    apply ignoring_evolves. intros rep E. apply attempt_Ok in E as [_ E].
    now apply update_access_codes_evolves in E. }
  destruct (is_not_null _); [|exact H2].
  eapply codes_evolve_trans; [exact H2|].
  apply ignoring_evolves. intros d3 E. apply attempt_Ok in E as [_ E].
  apply codes_evolve_same. now apply insert_user_sports_codes in E.
Qed.

Lemma handleSignUp_evolves u now faults d c :
  codes_evolve d (SignUp.final (SignUp.handleSignUp_accessCode u now faults d c)).
Proof.
  unfold SignUp.handleSignUp_accessCode.
  destruct (bool_decide _); [apply codes_evolve_refl|].
  destruct (if failed _ then None else _) as [codeData|]; [|apply codes_evolve_refl].
  cbn [SignUp.final].
  set (d1 := ignoring (attempt (fault_at 1 faults) _) after d).
  assert (H1 : codes_evolve d d1).
  { apply ignoring_evolves. intros rep E. apply attempt_Ok in E as [_ E].
    now apply update_access_codes_evolves in E. }
  set (d2 := ignoring (attempt (fault_at 2 faults) _) id d1).
  assert (H2 : codes_evolve d d2).
  { eapply codes_evolve_trans; [exact H1|].
    apply ignoring_evolves. intros d' E. apply attempt_Ok in E as [_ E].
    apply codes_evolve_same. now apply update_profiles_codes in E. }
  destruct (is_not_null _); [|exact H2].
  eapply codes_evolve_trans; [exact H2|].
  apply ignoring_evolves. intros d3 E. apply attempt_Ok in E as [_ E].
  apply codes_evolve_same. now apply insert_user_sports_codes in E.
Qed.

Lemma handle_new_user_evolves faults new d d' log :
  handle_new_user faults new d = Some (RETURN_new d' log) -> codes_evolve d d'.
Proof.
  destruct (AuthUser.id new) as [i|] eqn:Hid.
  - destruct (profile_exists i d) eqn:Hex.
    + unfold handle_new_user, handle_new_user_fuel. rewrite Hid, Hex.
      intros [= <- _]. apply codes_evolve_refl.
    + destruct (handle_new_user_runs faults i new d Hid Hex)
        as (v & -> & [_ _ _ _ Hsucc _ Hexh] & Hexit).
      intros [= <- _]. apply codes_evolve_same.
      destruct (_success v) eqn:Hv.
      * destruct (Hsucc eq_refl) as (_ & _ & Hins).
        now apply insert_profiles_codes in Hins.
      * destruct Hexit as [?|Hmax]; [discriminate|].
        destruct (Hexh eq_refl Hmax) as (_ & _ & [[-> _]|Hins]); [done|].
        now apply insert_profiles_codes in Hins.
  - unfold handle_new_user, handle_new_user_fuel. rewrite Hid. discriminate.
Qed.

Lemma step_evolves w e : codes_evolve (database w) (database (step w e)).
Proof.
  destruct e; simpl; unfold with_session;
    try (destruct (athletes w !! i) as [s|]; simpl; [|apply codes_evolve_refl]).
  - apply codes_evolve_refl.
  - apply codes_evolve_refl.
  - apply handleJoin_evolves.
  - apply handleSubmit_evolves.
  - apply handleSignUp_evolves.
  - destruct (handle_new_user faults new (database w)) as [[d' log|msg]|] eqn:E;
      simpl; try apply codes_evolve_refl.
    eapply handle_new_user_evolves; eassumption.
  - apply ignoring_evolves. intros d' E. eapply insert_access_codes_evolves; eassumption.
Qed.

Lemma run_evolves es w : codes_evolve (database w) (database (run w es)).
Proof.
  revert w. induction es as [|e es IH]; intros w; simpl.
  - apply codes_evolve_refl.
  - eapply codes_evolve_trans; [apply step_evolves | apply IH].
Qed.

(** * The athlete page *)

Lemma bind_Ok {E A B} (r : result E A) (k : A -> result E B) (b : B) :
  (r ≫= k) = Ok b -> exists a, r = Ok a /\ k a = Ok b.
Proof. destruct r; simpl; [eauto | discriminate]. Qed.

Lemma throw_if_Ok b e u : throw_if b e = Ok u -> b = false.
Proof. destruct b; [discriminate | done]. Qed.

Lemma single_data {A} (l : list A) a : data (single l) = Some a -> l = [a].
Proof. destruct l as [|x [|y l]]; simpl; [discriminate | now intros [= ->] | discriminate]. Qed.

Lemma select_reply_data {A} f (r : reply A) a :
  data (select_reply f r) = Some a -> f = false /\ data r = Some a.
Proof. destruct f; simpl; [discriminate | done]. Qed.

Lemma map_singleton {A B} (f : A -> B) l b : map f l = [b] -> exists a, l = [a] /\ f a = b.
Proof. destruct l as [|a [|a' l]]; simpl; [discriminate | | discriminate].
  intros [= <-]. eauto. Qed.

Lemma is_not_null_false {A} (o : option A) : is_not_null o = false -> o = None.
Proof. destruct o; [discriminate | done]. Qed.

(** What a successful verification has seen in the store. *)
Lemma validateCode_try_Ok user faults d code cd :
  AthletePage.validateCode_try user faults d code = Ok cd ->
  exists uid r sp cr og,
    user = Some uid /\ js_trim code <> "" /\ fault_at 0 faults = false /\
    rows_of (js_trim code) d = [r] /\
    AccessCode.used_at r = None /\ AccessCode.role r = athlete /\
    embed_sports d r = Some sp /\ embed_creator d r = Some cr /\
    embed_organizations d r = Some og /\
    cd = AthletePage.mk_details (AccessCode.sport_id r) (AccessCode.coach_id r)
           (AccessCode.organization_id r) sp (cr.1 +:+ " " +:+ cr.2)
           (AccessCode.gender r) og.
Proof.
  unfold AthletePage.validateCode_try. intros H.
  apply bind_Ok in H as ([] & Hblank & H). apply throw_if_Ok in Hblank.
  apply bool_decide_eq_false in Hblank.
  apply bind_Ok in H as (uid & Huser & H).
  destruct user as [u|]; [injection Huser as -> | discriminate].
  cbv zeta in H.
  apply bind_Ok in H as ([] & Hfailed & H). apply throw_if_Ok in Hfailed.
  apply bind_Ok in H as (a & Hdata & H).
  destruct (data _) as [a'|] eqn:Ha in Hdata; [injection Hdata as -> | discriminate].
  apply select_reply_data in Ha as [Hf0 Ha]. apply single_data in Ha.
  apply map_singleton in Ha as (r & Hrows & <-).
  apply bind_Ok in H as ([] & Hused & H). apply throw_if_Ok in Hused.
  apply is_not_null_false in Hused.
  apply bind_Ok in H as ([] & Hrole & H). apply throw_if_Ok in Hrole.
  apply negb_false_iff, bool_decide_eq_true in Hrole.
  apply bind_Ok in H as ([] & _ & H).
  apply bind_Ok in H as (sp & Hsp & H).
  apply bind_Ok in H as (cr & Hcr & H).
  apply bind_Ok in H as (og & Hog & H).
  injection H as <-.
  exists uid, r, sp, cr, og. simpl in *.
  unfold AthletePage.read_property in *.
  destruct (embed_sports d r); [injection Hsp as -> | discriminate].
  destruct (embed_creator d r); [injection Hcr as -> | discriminate].
  destruct (embed_organizations d r); [injection Hog as -> | discriminate].
  repeat split; done.
Qed.

Lemma rows_of_In c d r : rows_of c d = [r] -> In r (access_codes d) /\ AccessCode.code r = c.
Proof.
  unfold rows_of. intros H.
  assert (Hin : r ∈ filter (fun r => code_is c r = true) (access_codes d))
    by (rewrite H; apply list_elem_of_In; now left).
  apply list_elem_of_filter in Hin as [Hc Hin].
  apply list_elem_of_In in Hin. unfold code_is in Hc.
  apply bool_decide_eq_true in Hc. done.
Qed.

Lemma rows_of_patch_where c p d :
  filter (fun r => code_is c r = true) (patch_where c p (access_codes d))
  = map (patch_row p) (rows_of c d).
Proof.
  unfold rows_of, patch_where.
  induction (access_codes d) as [|r l IH]; [done|].
  simpl map. rewrite !filter_cons.
  destruct (code_is c r) eqn:E.
  - assert (code_is c (patch_row p r) = true) as E' by exact E.
    destruct (decide (code_is c (patch_row p r) = true)); [|done].
    destruct (decide (true = true)); [|done].
    simpl. now rewrite IH.
  - destruct (decide (code_is c r = true)); [congruence|].
    destruct (decide (false = true)); [discriminate|]. exact IH.
Qed.

Lemma touched_rows_of c p d :
  touched c p (access_codes d) = map (fun r => (r, patch_row p r)) (rows_of c d).
Proof. reflexivity. Qed.

Lemma set_access_codes_same d : set_access_codes (access_codes d) d = d.
Proof. now destruct d. Qed.

Lemma rows_of_after c p d rep :
  update_access_codes c p d = Ok rep ->
  rows_of c (after rep) = map (patch_row p) (rows_of c d).
Proof.
  intros H. apply update_access_codes_Ok in H as (l & -> & _).
  unfold rows_of at 1. simpl. apply rows_of_patch_where.
Qed.

Lemma select_unused_rows_of c d :
  select_unused c d =
  filter (fun r => is_null (AccessCode.used_at r) = true) (rows_of c d).
Proof.
  unfold select_unused, rows_of.
  induction (access_codes d) as [|r l IH]; [done|].
  rewrite !filter_cons.
  destruct (code_is c r) eqn:E; cbn [andb].
  - destruct (decide (true = true)); [|done]. rewrite filter_cons.
    destruct (is_null (AccessCode.used_at r)); simpl.
    + destruct (decide (true = true)); [|done]. now rewrite IH.
    + destruct (decide (false = true)); [discriminate|]. exact IH.
  - destruct (decide (false = true)); [discriminate|]. exact IH.
Qed.

(** * Counting connections *)



(** * Updates of a consumed code *)

Lemma touched_idle c p d :
  Forall (fun r => AccessCode.used_by r <> None) (rows_of c d) ->
  Forall (fun pr => on_access_code_used_WHEN pr.1 pr.2 = false)
         (touched c p (access_codes d)).
Proof.
  rewrite touched_rows_of. induction 1 as [|r l Hr _ IH]; simpl; constructor; [|exact IH].
  simpl. unfold on_access_code_used_WHEN.
  destruct (AccessCode.used_by r); [reflexivity | done].
Qed.

Lemma update_consumed c p d :
  Forall (fun r => AccessCode.used_by r <> None) (rows_of c d) ->
  update_access_codes c p d =
  Ok (mk_report (set_access_codes (patch_where c p (access_codes d)) d)
                (length (rows_of c d)) 0).
Proof.
  intros H. unfold update_access_codes.
  rewrite (on_access_code_used_idle _ _ _ (touched_idle c p d H)). simpl.
  unfold touched, rows_of. now rewrite length_map.
Qed.

Lemma rows_of_patched_used_by c p d :
  Forall (fun r => AccessCode.used_by r <> None) (rows_of c d) ->
  Forall (fun r => AccessCode.used_by r <> None)
         (rows_of c (set_access_codes (patch_where c p (access_codes d)) d)).
Proof.
  intros H. unfold rows_of at 1. simpl. rewrite rows_of_patch_where.
  induction H as [|r l Hr _ IH]; simpl; constructor; [|exact IH].
  unfold patch_row. simpl. now destruct (patch_used_by p).
Qed.

Lemma update_many_consumed c ps d :
  Forall (fun r => AccessCode.used_by r <> None) (rows_of c d) ->
  (update_many c ps d).2 = 0.
Proof.
  revert d. induction ps as [|p ps IH]; intros d H; [reflexivity|].
  simpl. rewrite (update_consumed c p d H). simpl.
  specialize (IH _ (rows_of_patched_used_by c p d H)).
  destruct (update_many c ps _) as [d' n]. simpl in *. lia.
Qed.

(** With at most one row for the code, the trigger function completes at
    most one run over any succession of updates. *)
Lemma update_many_once c ps d :
  length (rows_of c d) <= 1 -> (update_many c ps d).2 <= 1.
Proof.
  revert d. induction ps as [|p ps IH]; intros d Hlen; [simpl; lia|].
  simpl. destruct (update_access_codes c p d) as [rep|e] eqn:E; [|now apply IH].
  pose proof (rows_of_after _ _ _ _ E) as Hrows.
  apply update_access_codes_Ok in E as (l & Hafter & _ & Hruns).
  rewrite touched_rows_of in Hruns.
  destruct (rows_of c d) as [|r [|r' rest]] eqn:Hr; simpl in Hlen; [| |lia].
  - simpl in Hruns. rewrite Hruns.
    assert (length (rows_of c (after rep)) <= 1) as Hlen' by (rewrite Hrows; simpl; lia).
    specialize (IH _ Hlen'). destruct (update_many c ps (after rep)); simpl in *; lia.
  - simpl in Hruns.
    destruct (on_access_code_used_WHEN r (patch_row p r)) eqn:W; simpl in Hruns;
      rewrite Hruns.
    + apply WHEN_spec in W as [_ Hnew].
      assert (Forall (fun r => AccessCode.used_by r <> None) (rows_of c (after rep))) as Hall
        by (rewrite Hrows; simpl; constructor; [exact Hnew | constructor]).
      pose proof (update_many_consumed c ps _ Hall) as H0.
      destruct (update_many c ps (after rep)); simpl in *; lia.
    + assert (length (rows_of c (after rep)) <= 1) as Hlen' by (rewrite Hrows; simpl; lia).
      specialize (IH _ Hlen'). destruct (update_many c ps (after rep)); simpl in *; lia.
Qed.

Lemma consumer_has_time_run w es :
  consumer_has_time (database w) -> consumer_has_time (database (run w es)).
Proof. apply consumer_has_time_evolves, run_evolves. Qed.

(** * The trigger *)

(** C10.  The trigger function runs for a row only when the update takes
    its [used_by] from NULL to a value, and an update runs it exactly for
    the rows it touches that pass this condition.  Hence an update of a
    code whose rows already record a consumer runs it for no row and leaves
    [coach_athletes] as it is; over any succession of updates of a code
    that has at most one row, as UNIQUE(code) ensures, the function
    completes at most one run; and since no flow ever takes [used_by] back
    to NULL, whatever the sessions do, the condition cannot hold for that
    row again. *)
Theorem C10_trigger_runs_once c p d :
  (forall OLD NEW,
     on_access_code_used_WHEN OLD NEW = true <->
     AccessCode.used_by OLD = None /\ AccessCode.used_by NEW <> None) /\
  (forall rep, update_access_codes c p d = Ok rep ->
     trigger_runs rep =
     length (List.filter (fun pr => on_access_code_used_WHEN pr.1 pr.2)
               (map (fun r => (r, patch_row p r)) (rows_of c d)))) /\
  (Forall (fun r => AccessCode.used_by r <> None) (rows_of c d) ->
   exists rep, update_access_codes c p d = Ok rep /\
     trigger_runs rep = 0 /\ coach_athletes (after rep) = coach_athletes d /\
     Forall (fun r => AccessCode.used_by r <> None) (rows_of c (after rep))) /\
  (forall ps, length (rows_of c d) <= 1 -> (update_many c ps d).2 <= 1) /\
  (forall w es, database w = d -> codes_evolve d (database (run w es))).
Proof.
  split; [apply WHEN_spec|]. split; [|split; [|split]].
  - intros rep Hrep. now apply update_access_codes_Ok in Hrep as (l & _ & _ & Hruns).
  - intros H. eexists. split; [now apply update_consumed|].
    simpl. repeat split. now apply rows_of_patched_used_by.
  - intros ps. apply update_many_once.
  - intros w es <-. apply run_evolves.
Qed.

(** At the scenario: a second update of the code A has consumed. *)
Lemma C10_witness :
  let d := AthletePage.final
             (AthletePage.handleJoin (Some "A") 100 [] Sample.by_admin
                (AthletePage.validateCode (Some "A") [] Sample.by_admin
                   (AthletePage.mk_state "AB-123-CD" None None))) in
  length (coach_athletes d) = 2 /\
  exists rep, update_access_codes "AB-123-CD" (mk_patch 200 (Some "B")) d = Ok rep /\
    trigger_runs rep = 0 /\ coach_athletes (after rep) = coach_athletes d.
Proof.
  intros d. split; [reflexivity|].
  destruct (C10_trigger_runs_once "AB-123-CD" (mk_patch 200 (Some "B")) d)
    as (_ & _ & Hidle & _).
  destruct Hidle as (rep & Hrep & Hruns & Hsame & _).
  - repeat constructor. discriminate.
  - exists rep. done.
Defined.

(** * Bootstrap of the profile *)

(** C9, as stated, fails: for an account without a full name in its
    metadata the display name is the whole address, not its local part. *)
Lemma C9_name_is_not_the_local_part :
  handle_new_user [] Sample.jane_bare Sample.empty =
  Some (RETURN_new
          (set_profiles
             [Profile.mk "u1" (Some athlete) None (Some "jane@example.com")
                         (Some "jane@example.com")] Sample.empty)
          [INSERT_INTO_profiles "jane@example.com" None]) /\
  local_part "jane@example.com" = "jane" /\
  "jane@example.com" <> local_part "jane@example.com".
Proof. vm_compute. repeat split. discriminate. Qed.

(** * Further properties: the redemption flows *)

Lemma rows_of_singleton_patch c p d r :
  rows_of c d = [r] ->
  touched c p (access_codes d) = [(r, patch_row p r)].
Proof. intros H. rewrite touched_rows_of, H. reflexivity. Qed.

(** The same update when the row lacks one of the columns the trigger
    copies into [coach_athletes]. *)
Lemma update_incomplete_code uid now d c r :
  rows_of c d = [r] -> AccessCode.role r = athlete -> AccessCode.used_by r = None ->
  AccessCode.created_by r = None \/ AccessCode.sport_id r = None \/
  AccessCode.organization_id r = None ->
  update_access_codes c (mk_patch now (Some uid)) d = Err not_null_violation.
Proof.
  intros Hr Hrole Hby Hnull.
  unfold update_access_codes.
  rewrite (rows_of_singleton_patch _ _ _ _ Hr).
  cbn [on_access_code_used].
  unfold on_access_code_used_WHEN. rewrite Hby. cbn [is_null is_not_null patch_row patch_used_by AccessCode.used_by negb andb].
  unfold handle_athlete_access_code.
  cbn [AccessCode.role AccessCode.used_by AccessCode.created_by AccessCode.sport_id
       AccessCode.organization_id patch_row patch_used_by].
  rewrite Hrole.
  cbn [is_null is_not_null negb andb]. rewrite bool_decide_eq_true_2 by reflexivity.
  cbn [andb]. unfold insert_coach_athletes.
  cbn [Insert.coach_id Insert.athlete_id Insert.sport_id Insert.organization_id Insert.gender].
  destruct Hnull as [H | [H | H]]; rewrite H.
  - reflexivity.
  - destruct (AccessCode.created_by r); reflexivity.
  - destruct (AccessCode.created_by r), (AccessCode.sport_id r); reflexivity.
Qed.

Lemma validateCode_details user faults d p cd :
  AthletePage.codeDetails (AthletePage.validateCode user faults d p) = Some cd ->
  AthletePage.validateCode_try user faults d (AthletePage.code p) = Ok cd /\
  AthletePage.validateCode user faults d p
  = AthletePage.mk_state (AthletePage.code p) None (Some cd).
Proof.
  unfold AthletePage.validateCode.
  destruct (AthletePage.validateCode_try user faults d (AthletePage.code p)); cbn.
  - intros [= ->]. auto.
  - discriminate.
Qed.

Lemma select_unused_single c d r :
  rows_of c d = [r] -> AccessCode.used_at r = None -> select_unused c d = [r].
Proof.
  intros Hr Hat. rewrite select_unused_rows_of, Hr, filter_cons, Hat. cbn.
  destruct (decide (true = true)); [reflexivity | congruence].
Qed.

(** ** The bootstrap of the profile: what it leaves alone *)

Lemma handle_new_user_returns faults new i d :
  AuthUser.id new = Some i -> profile_exists i d = false ->
  exists v,
    handle_new_user faults new d = Some (RETURN_new (store v) (raised v)) /\
    retry_inv i new d v /\
    (_success v = true \/ _retry_count v = _max_retries) /\
    (store v = d \/
     exists name,
       (name = extract_full_name new \/ name = "New User") /\
       insert_profiles (profile_values i name new) d = Ok (store v)).
Proof.
  intros Hid Hex.
  destruct (handle_new_user_runs faults i new d Hid Hex) as (v & Hrun & Hinv & Hend).
  exists v. split; [exact Hrun|]. split; [exact Hinv|]. split; [exact Hend|].
  destruct (_success v) eqn:Es.
  - right. exists (extract_full_name new). split; [now left|].
    now apply (inv_success _ _ _ _ Hinv).
  - destruct Hend as [Hend | Hend]; [discriminate|].
    destruct (inv_exhausted _ _ _ _ Hinv Es Hend) as (_ & _ & [[Hd _] | Hins]).
    + now left.
    + right. exists "New User". split; [now right | exact Hins].
Qed.

(** X8: an account whose address fails the CHECK on [profiles.email] gets
    no profile, whatever the fault schedule: the three attempts and the
    last one with 'New User' all fail, the store is as before, and the
    function still returns, so that the account itself is created. *)
Theorem bootstrap_invalid_email faults new i d :
  AuthUser.id new = Some i -> profile_exists i d = false ->
  valid_email (AuthUser.email new) = false ->
  exists log,
    handle_new_user faults new d = Some (RETURN_new d log) /\
    count_if is_insert log = _max_retries /\
    count_if is_failed_insert log = _max_retries /\
    count_if is_final_insert log = 1 /\
    ~ In (final_INSERT_INTO_profiles "New User" None) log /\
    1 <= count_if is_warning log.
Proof.
  intros Hid Hex Hbad.
  destruct (handle_new_user_returns faults new i d Hid Hex)
    as (v & Hrun & Hinv & Hend & _).
  assert (Hno : forall name d', insert_profiles (profile_values i name new) d <> Ok d').
  { intros name d' H. apply insert_profiles_Ok in H as (_ & Hv & _).
    cbn in Hv. congruence. }
  destruct (_success v) eqn:Es.
  - exfalso. destruct (inv_success _ _ _ _ Hinv Es) as (_ & _ & H). now apply Hno in H.
  - destruct Hend as [Hend | Hend]; [discriminate|].
    destruct (inv_exhausted _ _ _ _ Hinv Es Hend) as (Hfin & Hwarn & [[Hd Hnot] | Hins]);
      [|now apply Hno in Hins].
    exists (raised v). rewrite Hd in Hrun. split; [exact Hrun|].
    pose proof (inv_inserts _ _ _ _ Hinv) as Hi. rewrite Es, Hend in Hi.
    pose proof (inv_failed _ _ _ _ Hinv) as Hf. rewrite Hend in Hf.
    repeat split; auto; lia.
Qed.

Lemma bootstrap_invalid_email_witness :
  exists log,
    handle_new_user [] (AuthUser.mk (Some "u9") (Some "jane@example") None) Sample.empty
    = Some (RETURN_new Sample.empty log) /\
    count_if is_insert log = _max_retries.
Proof.
  destruct (bootstrap_invalid_email []
              (AuthUser.mk (Some "u9") (Some "jane@example") None) "u9" Sample.empty)
    as (log & H1 & H2 & _).
  - reflexivity.
  - reflexivity.
  - reflexivity.
  - exists log. split; [exact H1 | exact H2].
Defined.

(** ** The declared constraints survive every event *)

Lemma patch_where_codes c p l :
  map AccessCode.code (patch_where c p l) = map AccessCode.code l.
Proof.
  unfold patch_where. rewrite map_map. apply map_ext.
  intros r. now destruct (code_is c r).
Qed.

Lemma connection_key_fresh c a s o (l : list CoachAthlete.row) :
  existsb (same_connection c a s o) l = false ->
  ~ In (c, a, s, o) (map connection_key l).
Proof.
  intros Hex Hin. apply in_map_iff in Hin as (r & Hkey & Hr).
  assert (existsb (same_connection c a s o) l = true); [|congruence].
  apply existsb_exists. exists r. split; [exact Hr|].
  apply same_connection_spec. unfold connection_key in Hkey. now inversion Hkey.
Qed.

Lemma NoDup_snoc {A} (l : list A) (x : A) :
  NoDup l -> ~ In x l -> NoDup (l ++ [x]).
Proof.
  intros Hl Hx. apply NoDup_app. split; [exact Hl|]. split.
  - intros y Hy Hy'. apply list_elem_of_singleton in Hy' as ->.
    apply Hx. now apply list_elem_of_In.
  - apply NoDup_singleton.
Qed.

Lemma insert_coach_athletes_constraints oc v d d' :
  insert_coach_athletes oc v d = Ok d' -> constraints_hold d -> constraints_hold d'.
Proof.
  intros H Hc. apply insert_coach_athletes_Ok in H
    as (c & a & s & o & _ & _ & _ & _ & [(_ & -> & _) | (Hfresh & ->)]); [exact Hc|].
  destruct Hc. constructor; cbn; auto.
  rewrite map_app. cbn. apply NoDup_snoc; [assumption|].
  now apply connection_key_fresh.
Qed.

Lemma user_sport_key_fresh v k (l : list UserSport.row) :
  user_sport_key v = Some k ->
  existsb (same_user_sport v) l = false ->
  ~ In k (omap user_sport_key l).
Proof.
  intros Hk Hex Hin. apply list_elem_of_In, list_elem_of_omap in Hin as (r & Hr & Hkr).
  assert (existsb (same_user_sport v) l = true); [|congruence].
  apply existsb_exists. exists r. split; [now apply list_elem_of_In|].
  unfold user_sport_key in Hk, Hkr. unfold same_user_sport.
  destruct (UserSport.user_id v), (UserSport.sport_id v),
    (UserSport.organization_id v); try discriminate.
  destruct (UserSport.user_id r), (UserSport.sport_id r),
    (UserSport.organization_id r); try discriminate.
  cbn in Hk, Hkr. injection Hk as <-. injection Hkr as -> -> ->.
  cbn. now rewrite !bool_decide_eq_true_2.
Qed.

Lemma insert_user_sports_constraints v d d' :
  insert_user_sports v d = Ok d' -> constraints_hold d -> constraints_hold d'.
Proof.
  intros H Hc. apply insert_user_sports_Ok in H as [Hfresh ->].
  destruct Hc. constructor; cbn; auto.
  rewrite omap_app. cbn. destruct (user_sport_key v) as [k|] eqn:Hk; cbn.
  - apply NoDup_snoc; [assumption|]. now apply (user_sport_key_fresh v).
  - now rewrite app_nil_r.
Qed.

Lemma profile_id_fresh i d :
  profile_exists i d = false -> ~ In i (map Profile.id (profiles d)).
Proof.
  intros Hex Hin. apply in_map_iff in Hin as (r & Hid & Hr).
  assert (profile_exists i d = true); [|congruence].
  apply existsb_exists. exists r. split; [exact Hr|]. now apply bool_decide_eq_true.
Qed.

Lemma insert_profiles_constraints r d d' :
  insert_profiles r d = Ok d' -> constraints_hold d -> constraints_hold d'.
Proof.
  intros H Hc. apply insert_profiles_Ok in H as (-> & Hv & Hfresh).
  destruct Hc. constructor; cbn; auto.
  - rewrite map_app. cbn. apply NoDup_snoc; [assumption|]. now apply profile_id_fresh.
  - apply Forall_app. split; [assumption|]. now constructor.
Qed.

Lemma update_profiles_constraints i ro o d d' :
  update_profiles i ro o d = Ok d' -> constraints_hold d -> constraints_hold d'.
Proof.
  unfold update_profiles. destruct i as [i|]; [|discriminate].
  intros [= <-] Hc. destruct Hc. constructor; cbn; auto.
  - rewrite map_map.
    erewrite map_ext; [eassumption|].
    intros r. now destruct (bool_decide (Profile.id r = i)).
  - apply List.Forall_forall. intros r Hr. apply in_map_iff in Hr as (r0 & <- & Hr0).
    rewrite List.Forall_forall in profiles_valid_email0.
    destruct (bool_decide (Profile.id r0 = i)); cbn; now apply profiles_valid_email0.
Qed.

Lemma on_access_code_used_constraints pairs d n d' m :
  on_access_code_used pairs d n = Ok (d', m) -> constraints_hold d -> constraints_hold d'.
Proof.
  revert d n. induction pairs as [|[OLD NEW] l IH]; intros d n; cbn [on_access_code_used].
  - now intros [= <- _].
  - destruct (on_access_code_used_WHEN OLD NEW); [|apply IH].
    intros H Hc. apply bind_Ok in H as (d1 & H1 & H).
    apply IH in H; [exact H|].
    unfold handle_athlete_access_code in H1.
    destruct (_ && _); [|now injection H1 as <-].
    now apply insert_coach_athletes_constraints in H1.
Qed.

Lemma update_access_codes_constraints c p d rep :
  update_access_codes c p d = Ok rep -> constraints_hold d -> constraints_hold (after rep).
Proof.
  unfold update_access_codes. intros H Hc.
  apply bind_Ok in H as ([d2 n] & H & [= <-]). cbn.
  apply on_access_code_used_constraints in H; [exact H|].
  destruct Hc. constructor; cbn; auto. now rewrite patch_where_codes.
Qed.

Lemma code_fresh c (l : list AccessCode.row) :
  existsb (code_is c) l = false -> ~ In c (map AccessCode.code l).
Proof.
  intros Hex Hin. apply in_map_iff in Hin as (r & Hc & Hr).
  assert (existsb (code_is c) l = true); [|congruence].
  apply existsb_exists. exists r. split; [exact Hr|]. now apply bool_decide_eq_true.
Qed.

Lemma insert_access_codes_constraints c ro sp g org cr d d' :
  insert_access_codes c ro sp g org cr d = Ok d' ->
  constraints_hold d -> constraints_hold d'.
Proof.
  unfold insert_access_codes.
  destruct (existsb (code_is c) (access_codes d)) eqn:E; [discriminate|].
  intros [= <-] Hc. destruct Hc. constructor; cbn; auto.
  rewrite map_app. cbn. apply NoDup_snoc; [assumption|]. now apply code_fresh.
Qed.

Lemma ignoring_constraints {A} (r : pg A) (proj : A -> db) d :
  constraints_hold d ->
  (forall a, r = Ok a -> constraints_hold (proj a)) ->
  constraints_hold (ignoring r proj d).
Proof. intros Hc H. destruct r; cbn; auto. Qed.

Lemma handleJoin_constraints u now faults d p :
  constraints_hold d ->
  constraints_hold (AthletePage.final (AthletePage.handleJoin u now faults d p)).
Proof.
  intros Hc. unfold AthletePage.handleJoin.
  destruct (AthletePage.codeDetails p) as [cd|]; [|exact Hc].
  destruct u as [uid|]; [|exact Hc].
  destruct (attempt (fault_at 0 faults) _) as [rep|e] eqn:E0; [|exact Hc].
  apply attempt_Ok in E0 as [_ E0].
  apply update_access_codes_constraints in E0; [|exact Hc].
  destruct (attempt (fault_at 1 faults) _) as [d2|e] eqn:E1; [|exact E0].
  apply attempt_Ok in E1 as [_ E1].
  apply insert_coach_athletes_constraints in E1; [|exact E0].
  destruct (attempt (fault_at 2 faults) _) as [d3|e] eqn:E2; [|exact E1].
  apply attempt_Ok in E2 as [_ E2].
  now apply insert_user_sports_constraints in E2.
Qed.

Lemma handleSubmit_constraints u now faults d c :
  constraints_hold d ->
  constraints_hold (CoachPage.final (CoachPage.handleSubmit u now faults d c)).
Proof.
  intros Hc. unfold CoachPage.handleSubmit.
  destruct (if failed _ then None else _) as [codeData|]; [|exact Hc].
  destruct (negb _); [exact Hc|].
  destruct (attempt (fault_at 1 faults) _) as [d1|e] eqn:E1; [|exact Hc].
  apply attempt_Ok in E1 as [_ E1].
  apply update_profiles_constraints in E1; [|exact Hc].
  cbn [CoachPage.final].
  assert (H2 : constraints_hold
                 (ignoring (attempt (fault_at 2 faults)
                              (update_access_codes c (mk_patch now u) d1)) after d1)).
  { apply ignoring_constraints; [exact E1|]. intros rep E.
    apply attempt_Ok in E as [_ E]. now apply update_access_codes_constraints in E. }
  destruct (is_not_null _); [|exact H2].
  apply ignoring_constraints; [exact H2|]. intros d3 E.
  apply attempt_Ok in E as [_ E]. now apply insert_user_sports_constraints in E.
Qed.

Lemma handleSignUp_constraints u now faults d c :
  constraints_hold d ->
  constraints_hold (SignUp.final (SignUp.handleSignUp_accessCode u now faults d c)).
Proof.
  intros Hc. unfold SignUp.handleSignUp_accessCode.
  destruct (bool_decide _); [exact Hc|].
  destruct (if failed _ then None else _) as [codeData|]; [|exact Hc].
  cbn [SignUp.final].
  set (d1 := ignoring (attempt (fault_at 1 faults) _) after d).
  assert (H1 : constraints_hold d1).
  { apply ignoring_constraints; [exact Hc|]. intros rep E.
    apply attempt_Ok in E as [_ E]. now apply update_access_codes_constraints in E. }
  set (d2 := ignoring (attempt (fault_at 2 faults) _) id d1).
  assert (H2 : constraints_hold d2).
  { apply ignoring_constraints; [exact H1|]. intros d' E.
    apply attempt_Ok in E as [_ E]. now apply update_profiles_constraints in E. }
  destruct (is_not_null _); [|exact H2].
  apply ignoring_constraints; [exact H2|]. intros d3 E.
  apply attempt_Ok in E as [_ E]. now apply insert_user_sports_constraints in E.
Qed.

Lemma handle_new_user_constraints faults new d d' log :
  handle_new_user faults new d = Some (RETURN_new d' log) ->
  constraints_hold d -> constraints_hold d'.
Proof.
  intros H Hc.
  destruct (AuthUser.id new) as [i|] eqn:Hid.
  - destruct (profile_exists i d) eqn:Hex.
    + unfold handle_new_user, handle_new_user_fuel in H. rewrite Hid, Hex in H.
      now injection H as <- _.
    + destruct (handle_new_user_returns faults new i d Hid Hex)
        as (v & Hrun & _ & _ & Hstore).
      rewrite Hrun in H. injection H as <- _.
      destruct Hstore as [-> | (name & _ & Hins)]; [exact Hc|].
      now apply insert_profiles_constraints in Hins.
  - unfold handle_new_user, handle_new_user_fuel in H. rewrite Hid in H. discriminate.
Qed.

Lemma with_session_database (P : db -> Prop) i w k :
  P (database w) ->
  (forall s, athletes w !! i = Some s -> P (k s (database w)).2) ->
  P (database (with_session i w k)).
Proof.
  intros Hw Hk. unfold with_session.
  destruct (athletes w !! i) as [s|] eqn:E; [|exact Hw].
  specialize (Hk s eq_refl). now destruct (k s (database w)).
Qed.

Lemma step_constraints w e :
  constraints_hold (database w) -> constraints_hold (database (step w e)).
Proof.
  intros Hc. destruct e; cbn [step].
  - apply with_session_database; auto.
  - apply with_session_database; auto.
  - apply with_session_database; [exact Hc|]. intros s _. cbn.
    now apply handleJoin_constraints.
  - cbn. now apply handleSubmit_constraints.
  - cbn. now apply handleSignUp_constraints.
  - destruct (handle_new_user faults new (database w)) as [[d' log|msg]|] eqn:E;
      [|exact Hc|exact Hc].
    cbn. now apply (handle_new_user_constraints faults new (database w) d' log).
  - cbn. apply ignoring_constraints; [exact Hc|]. intros d' E.
    now apply insert_access_codes_constraints in E.
Qed.

(** X9: the UNIQUE, PRIMARY KEY and CHECK constraints of the migration
    hold after every sequence of events on a store in which they hold:
    no handler, trigger or retry leaves two rows with one code, one profile
    id, one connection or one (user, sport, organization), nor a profile
    whose address fails the pattern. *)
Theorem constraints_are_kept w es :
  constraints_hold (database w) -> constraints_hold (database (run w es)).
Proof.
  unfold run. revert w. induction es as [|e es IH]; intros w Hc; [exact Hc|].
  cbn [fold_left]. apply IH. now apply step_constraints.
Qed.

Lemma constraints_are_kept_witness :
  constraints_hold
    (database
       (run (Sample.initially Sample.two_codes)
          [setCode 0 "AB-123-CD"; validateCode 0 []; handleJoin 0 100 [];
           handleSubmit (Some "C") "CO-777-XX" 9 [];
           generateCode "AB-123-CD" athlete None None None None])).
Proof.
  apply constraints_are_kept.
  constructor; apply (bool_decide_unpack _); vm_compute; exact I.
Defined.

(** ** No page names a coach *)

Lemma update_access_codes_codes c p d rep :
  update_access_codes c p d = Ok rep ->
  access_codes (after rep) = patch_where c p (access_codes d).
Proof.
  intros H. apply update_access_codes_Ok in H as (l & -> & _). reflexivity.
Qed.

Lemma codes_step_trans_same l d d' :
  access_codes d' = access_codes d ->
  codes_step l (access_codes d) -> codes_step l (access_codes d').
Proof. now intros ->. Qed.

Lemma handleJoin_codes u now faults d p :
  codes_step (access_codes d)
    (access_codes (AthletePage.final (AthletePage.handleJoin u now faults d p))).
Proof.
  unfold AthletePage.handleJoin.
  destruct (AthletePage.codeDetails p) as [cd|]; [|constructor].
  destruct u as [uid|]; [|constructor].
  destruct (attempt (fault_at 0 faults) _) as [rep|e] eqn:E0; [|constructor].
  apply attempt_Ok in E0 as [_ E0]. apply update_access_codes_codes in E0.
  destruct (attempt (fault_at 1 faults) _) as [d2|e] eqn:E1.
  - apply attempt_Ok in E1 as [_ E1]. apply insert_coach_athletes_codes in E1.
    destruct (attempt (fault_at 2 faults) _) as [d3|e] eqn:E2; cbn.
    + apply attempt_Ok in E2 as [_ E2]. apply insert_user_sports_codes in E2.
      rewrite E2, E1, E0. constructor.
    + rewrite E1, E0. constructor.
  - cbn. rewrite E0. constructor.
Qed.

Lemma handleSubmit_codes u now faults d c :
  codes_step (access_codes d)
    (access_codes (CoachPage.final (CoachPage.handleSubmit u now faults d c))).
Proof.
  unfold CoachPage.handleSubmit.
  destruct (if failed _ then None else _) as [codeData|]; [|constructor].
  destruct (negb _); [constructor|].
  destruct (attempt (fault_at 1 faults) _) as [d1|e] eqn:E1; [|constructor].
  apply attempt_Ok in E1 as [_ E1]. apply update_profiles_codes in E1.
  cbn [CoachPage.final].
  set (d2 := ignoring (attempt (fault_at 2 faults) _) after d1).
  assert (H2 : codes_step (access_codes d) (access_codes d2)).
  { subst d2. destruct (attempt (fault_at 2 faults) _) as [rep|e] eqn:E2; cbn.
    - apply attempt_Ok in E2 as [_ E2]. apply update_access_codes_codes in E2.
      rewrite E2, E1. constructor.
    - rewrite E1. constructor. }
  destruct (is_not_null _); [|exact H2].
  destruct (attempt (fault_at 3 faults) _) as [d3|e] eqn:E3; cbn; [|exact H2].
  apply attempt_Ok in E3 as [_ E3]. apply insert_user_sports_codes in E3.
  now rewrite E3.
Qed.

Lemma handleSignUp_codes u now faults d c :
  codes_step (access_codes d)
    (access_codes (SignUp.final (SignUp.handleSignUp_accessCode u now faults d c))).
Proof.
  unfold SignUp.handleSignUp_accessCode.
  destruct (bool_decide _); [constructor|].
  destruct (if failed _ then None else _) as [codeData|]; [|constructor].
  cbn [SignUp.final].
  set (d1 := ignoring (attempt (fault_at 1 faults) _) after d).
  assert (H1 : codes_step (access_codes d) (access_codes d1)).
  { subst d1. destruct (attempt (fault_at 1 faults) _) as [rep|e] eqn:E1; cbn.
    - apply attempt_Ok in E1 as [_ E1]. apply update_access_codes_codes in E1.
      rewrite E1. constructor.
    - constructor. }
  set (d2 := ignoring (attempt (fault_at 2 faults) _) id d1).
  assert (H2 : access_codes d2 = access_codes d1).
  { subst d2. destruct (attempt (fault_at 2 faults) _) as [d'|e] eqn:E2; cbn; [|done].
    apply attempt_Ok in E2 as [_ E2]. now apply update_profiles_codes in E2. }
  destruct (is_not_null _); [|now rewrite H2].
  destruct (attempt (fault_at 3 faults) _) as [d3|e] eqn:E3; cbn; [|now rewrite H2].
  apply attempt_Ok in E3 as [_ E3]. apply insert_user_sports_codes in E3.
  now rewrite E3, H2.
Qed.

Lemma handle_new_user_codes faults new d d' log :
  handle_new_user faults new d = Some (RETURN_new d' log) ->
  access_codes d' = access_codes d.
Proof.
  intros H.
  destruct (AuthUser.id new) as [i|] eqn:Hid.
  - destruct (profile_exists i d) eqn:Hex.
    + unfold handle_new_user, handle_new_user_fuel in H. rewrite Hid, Hex in H.
      now injection H as <- _.
    + destruct (handle_new_user_returns faults new i d Hid Hex)
        as (v & Hrun & _ & _ & Hstore).
      rewrite Hrun in H. injection H as <- _.
      destruct Hstore as [-> | (name & _ & Hins)]; [done|].
      now apply insert_profiles_codes in Hins.
  - unfold handle_new_user, handle_new_user_fuel in H. rewrite Hid in H. discriminate.
Qed.

Lemma step_codes w e :
  codes_step (access_codes (database w)) (access_codes (database (step w e))).
Proof.
  destruct e; cbn [step].
  - apply (with_session_database (fun d => codes_step _ (access_codes d)));
      [constructor|]. intros; constructor.
  - apply (with_session_database (fun d => codes_step _ (access_codes d)));
      [constructor|]. intros; constructor.
  - apply (with_session_database (fun d => codes_step _ (access_codes d)));
      [constructor|]. intros s _. cbn. apply handleJoin_codes.
  - cbn. apply handleSubmit_codes.
  - cbn. apply handleSignUp_codes.
  - destruct (handle_new_user faults new (database w)) as [[d' log|msg]|] eqn:E;
      try constructor.
    cbn. apply handle_new_user_codes in E. rewrite E. constructor.
  - cbn. unfold insert_access_codes.
    destruct (existsb (code_is c) (access_codes (database w))) eqn:E; cbn;
      now constructor.
Qed.

Lemma codes_step_coach l l' :
  codes_step l l' ->
  (forall r, In r l -> AccessCode.coach_id r = None) ->
  forall r, In r l' -> AccessCode.coach_id r = None.
Proof.
  intros [|c p|c org ro sp g creator _] H r Hr.
  - now apply H.
  - unfold patch_where in Hr. apply in_map_iff in Hr as (x & <- & Hx).
    destruct (code_is c x); [|now apply H].
    cbn. now apply H.
  - apply in_app_iff in Hr as [Hr | [<- | []]]; [now apply H | reflexivity].
Qed.

Lemma handleJoin_page_details u now faults d p :
  AthletePage.codeDetails (AthletePage.page (AthletePage.handleJoin u now faults d p))
  = AthletePage.codeDetails p.
Proof.
  unfold AthletePage.handleJoin.
  destruct (AthletePage.codeDetails p) as [cd|] eqn:E; [|now cbn].
  destruct u as [uid|]; [|now cbn].
  destruct (attempt (fault_at 0 faults) _); [|now cbn].
  destruct (attempt (fault_at 1 faults) _); [|now cbn].
  destruct (attempt (fault_at 2 faults) _); now cbn.
Qed.

Lemma validateCode_coach u faults d p cd :
  (forall r, In r (access_codes d) -> AccessCode.coach_id r = None) ->
  AthletePage.codeDetails (AthletePage.validateCode u faults d p) = Some cd ->
  AthletePage.d_coach_id cd = None.
Proof.
  intros H Hcd. apply validateCode_details in Hcd as [Htry _].
  apply validateCode_try_Ok in Htry
    as (uid & r & sp & cr & og & _ & _ & _ & Hr & _ & _ & _ & _ & _ & ->).
  cbn. apply H. now apply rows_of_In in Hr.
Qed.

Lemma step_no_coach_named w e : no_coach_named w -> no_coach_named (step w e).
Proof.
  intros [Hrows Hpages]. split.
  - apply (codes_step_coach _ _ (step_codes w e) Hrows).
  - intros j s2 cd Hj Hcd.
    assert (Hgen : forall i k,
               (forall s cd', athletes w !! i = Some s ->
                  AthletePage.codeDetails (page (k s (database w)).1) = Some cd' ->
                  AthletePage.d_coach_id cd' = None) ->
               athletes (with_session i w k) !! j = Some s2 ->
               AthletePage.d_coach_id cd = None).
    { intros i k Hk. unfold with_session.
      destruct (athletes w !! i) as [s|] eqn:Ei; [|intros Hj'; now apply (Hpages j s2)].
      specialize (Hk s). destruct (k s (database w)) as [s' d'] eqn:Ek. cbn.
      intros Hj'. apply list_lookup_insert_Some in Hj'
        as [(-> & <- & _) | (_ & Hj')]; [|now apply (Hpages j s2)].
      now apply (Hk cd). }
    destruct e; cbn [step] in Hj.
    + refine (Hgen i _ _ Hj). intros s cd' Hs. cbn. now apply (Hpages i s).
    + refine (Hgen i _ _ Hj). intros s cd' Hs. cbn. now apply validateCode_coach.
    + refine (Hgen i _ _ Hj). intros s cd' Hs. cbn.
      rewrite handleJoin_page_details. now apply (Hpages i s).
    + cbn in Hj. now apply (Hpages j s2).
    + cbn in Hj. now apply (Hpages j s2).
    + destruct (handle_new_user faults new (database w)) as [[d' log|msg]|];
        cbn in Hj; now apply (Hpages j s2).
    + cbn in Hj. now apply (Hpages j s2).
Qed.

Lemma handleJoin_unnamed u now faults d p :
  (forall cd, AthletePage.codeDetails p = Some cd -> AthletePage.d_coach_id cd = None) ->
  AthletePage.navigate (AthletePage.handleJoin u now faults d p) = None.
Proof.
  intros H. unfold AthletePage.handleJoin.
  destruct (AthletePage.codeDetails p) as [cd|] eqn:E; [|reflexivity].
  destruct u as [uid|]; [|reflexivity].
  destruct (attempt (fault_at 0 faults) _); [|reflexivity].
  unfold insert_coach_athletes. rewrite (H cd eq_refl). cbn.
  destruct (fault_at 1 faults); reflexivity.
Qed.

(** X10: the column [coach_id] of a code is written by no statement of
    the model: the pages that issue codes do not supply it and its default
    is NULL.  From a state in which no code and no verified page names a
    coach, no sequence of events reaches one in which a code does, and in
    every state reached the join of the athlete page fails, since its own
    insert into [coach_athletes] lacks the coach. *)
Theorem no_page_names_a_coach w es :
  no_coach_named w ->
  no_coach_named (run w es) /\
  forall i s now faults,
    athletes (run w es) !! i = Some s ->
    AthletePage.navigate
      (AthletePage.handleJoin (user s) now faults (database (run w es)) (page s)) = None.
Proof.
  intros H.
  assert (Hrun : no_coach_named (run w es)).
  { unfold run. revert w H. induction es as [|e es IH]; intros w H; [exact H|].
    cbn [fold_left]. apply IH. now apply step_no_coach_named. }
  split; [exact Hrun|].
  intros i s now faults Hs. apply handleJoin_unnamed.
  intros cd Hcd. now apply (proj2 Hrun i s).
Qed.

Lemma no_page_names_a_coach_witness :
  let w := run (Sample.initially (Sample.store []))
             [generateCode "QR-7K2-MN" athlete (Some "soccer") (Some female)
                (Some "O1") (Some "coach-1");
              setCode 0 "QR-7K2-MN"; validateCode 0 []] in
  exists s,
    athletes w !! 0 = Some s /\
    AthletePage.codeDetails (page s) <> None /\
    AthletePage.navigate (AthletePage.handleJoin (user s) 100 [] (database w) (page s))
    = None.
Proof.
  intros w.
  destruct (no_page_names_a_coach (Sample.initially (Sample.store []))
              [generateCode "QR-7K2-MN" athlete (Some "soccer") (Some female)
                 (Some "O1") (Some "coach-1");
               setCode 0 "QR-7K2-MN"; validateCode 0 []]) as [_ H].
  - split.
    + intros r [].
    + intros [|[|i]] s0 cd; cbn; intros [= <-]; discriminate.
  - eexists. split; [vm_compute; reflexivity|].
    split; [vm_compute; discriminate|].
    apply (H 0 _ 100 []). vm_compute. reflexivity.
Defined.

(** * Further properties: issuing codes *)

Lemma pick_in_range (chars : string) (r : Q) :
  unit_interval r -> String.length chars <> 0 ->
  exists c, pick chars r = String c "" /\ In c (list_ascii_of_string chars).
Proof.
  intros [H0 H1] Hlen. unfold pick, char_at.
  set (n := String.length chars) in *.
  set (i := Qfloor (r * inject_Z (Z.of_nat n))).
  assert (Hn : (0 < inject_Z (Z.of_nat n))%Q).
  { change 0%Q with (inject_Z 0). rewrite <- Zlt_Qlt. lia. }
  assert (Hi0 : (0 <= i)%Z).
  { change 0%Z with (Qfloor (inject_Z 0)). apply Qfloor_resp_le.
    change (inject_Z 0) with 0%Q. apply Qmult_le_0_compat; [exact H0|].
    now apply Qlt_le_weak. }
  assert (Hi1 : (i < Z.of_nat n)%Z).
  { rewrite Zlt_Qlt. eapply Qle_lt_trans; [apply Qfloor_le|].
    rewrite <- (Qmult_1_l (inject_Z (Z.of_nat n))) at 2.
    apply Qmult_lt_compat_r; assumption. }
  destruct (i <? 0)%Z eqn:E; [apply Z.ltb_lt in E; lia|].
  assert (Hlt : Z.to_nat i < n) by lia.
  clear - Hlt. subst n. revert Hlt. generalize (Z.to_nat i) as k.
  induction chars as [|c s IH]; intros k Hk; [cbn in Hk; lia|].
  destruct k as [|k]; cbn.
  - exists c. auto.
  - destruct (IH k) as (x & Hx & Hin); [cbn in Hk; lia|].
    destruct (String.get k s) as [y|]; [|discriminate].
    injection Hx as ->. exists x. auto.
Qed.

Lemma readable_not_white c :
  In c (list_ascii_of_string CoachCodeGenerator.chars) -> js_white_space c = false.
Proof.
  cbn. intros H. repeat (destruct H as [<- | H]; [reflexivity|]). destruct H.
Qed.

Lemma append_empty (s : string) : s +:+ "" = s.
Proof.
  induction s as [|c s IH]; [reflexivity|].
  change (String c (s +:+ "") = String c s). now rewrite IH.
Qed.

Lemma rev_app_append (t u v : string) :
  String.rev_app (t +:+ u) v = String.rev_app u (String.rev_app t v).
Proof. revert v. induction t as [|c t IH]; intros v; cbn; [reflexivity | apply IH]. Qed.

Lemma rev_app_rev_app (t u v : string) :
  String.rev_app (String.rev_app t u) v = String.rev_app u (t +:+ v).
Proof.
  revert u. induction t as [|c t IH]; intros u; cbn; [reflexivity|].
  now rewrite IH.
Qed.

Lemma rev_involutive (s : string) : String.rev (String.rev s) = s.
Proof.
  unfold String.rev. rewrite rev_app_rev_app. cbn [String.rev_app].
  apply append_empty.
Qed.

(** Trimming leaves a text alone whose first and last characters stay. *)
Lemma strip_framed p (a g : ascii) (s : string) :
  p a = false -> p g = false ->
  strip p (String a (s +:+ String g "")) = String a (s +:+ String g "").
Proof.
  intros Ha Hg. unfold strip. cbn [drop_leading]. rewrite Ha.
  assert (H1 : String.rev (String a (s +:+ String g ""))
               = String g (String.rev_app s (String a ""))).
  { unfold String.rev. cbn [String.rev_app]. now rewrite rev_app_append. }
  rewrite H1. cbn [drop_leading]. rewrite Hg, <- H1. apply rev_involutive.
Qed.

(** X11: a code of the coach's generator has the form XX-XXX-XX over the
    alphabet of the generator, which leaves out I, O, 0 and 1; trimming
    does not change it, so the text the athlete types is the key that is
    looked up. *)
Theorem generated_code_shape random :
  (forall k, unit_interval (random k)) ->
  let code := CoachCodeGenerator.generateReadableCode random in
  exists a b c d e f g,
    code = string_of_list_ascii [a; b; "-"%char; c; d; e; "-"%char; f; g] /\
    Forall (fun x => In x (list_ascii_of_string CoachCodeGenerator.chars))
           [a; b; c; d; e; f; g] /\
    String.length code = 9 /\
    js_trim code = code.
Proof.
  intros H code. subst code.
  assert (Hp : forall k, exists c,
             pick CoachCodeGenerator.chars (random k) = String c "" /\
             In c (list_ascii_of_string CoachCodeGenerator.chars)).
  { intros k. apply pick_in_range; [apply H | discriminate]. }
  destruct (Hp 0) as (a & Ea & Ha), (Hp 1) as (b & Eb & Hb), (Hp 2) as (c & Ec & Hc),
    (Hp 3) as (d & Ed & Hd), (Hp 4) as (e & Ee & He), (Hp 5) as (f & Ef & Hf),
    (Hp 6) as (g & Eg & Hg).
  exists a, b, c, d, e, f, g.
  unfold CoachCodeGenerator.generateReadableCode, draw_chars.
  cbn [seq map]. rewrite Ea, Eb, Ec, Ed, Ee, Ef, Eg.
  cbn [String.concat String.append string_of_list_ascii].
  split; [reflexivity|].
  split; [repeat (apply List.Forall_cons; [assumption|]); apply List.Forall_nil|].
  split; [reflexivity|].
  apply (strip_framed js_white_space a g
           (String b (String "-" (String c (String d (String e (String "-" (String f ""))))))));
    now apply readable_not_white.
Qed.

Lemma generated_code_shape_witness :
  exists a b c d e f g,
    CoachCodeGenerator.generateReadableCode
      (fun k => if Nat.even k then (1 # 4)%Q else (3 # 4)%Q)
    = string_of_list_ascii [a; b; "-"%char; c; d; e; "-"%char; f; g].
Proof.
  destruct (generated_code_shape (fun k => if Nat.even k then (1 # 4)%Q else (3 # 4)%Q))
    as (a & b & c & d & e & f & g & H & _).
  - intros k. destruct (Nat.even k); split; unfold Qle, Qlt; cbn; lia.
  - exists a, b, c, d, e, f, g. exact H.
Defined.

Lemma generateCode_try_Ok user random faults d st code d' :
  CoachCodeGenerator.generateCode_try user random faults d st = Ok (code, d') ->
  exists uid g,
    user = Some uid /\ CoachCodeGenerator.gender st = Some g /\
    CoachCodeGenerator.sportId st <> "" /\
    code = CoachCodeGenerator.generateReadableCode random /\
    fault_at 0 faults = false /\
    existsb (code_is code) (access_codes d) = false /\
    d' = set_access_codes
           (access_codes d ++
            [AccessCode.mk code None athlete (Some (CoachCodeGenerator.sportId st))
               (Some g) (Some uid) None None None]) d.
Proof.
  unfold CoachCodeGenerator.generateCode_try. intros H.
  apply bind_Ok in H as ([] & Hsport & H). apply throw_if_Ok in Hsport.
  apply bool_decide_eq_false in Hsport.
  destruct (CoachCodeGenerator.gender st) as [g|]; [|discriminate].
  cbn in H. destruct user as [uid|]; [|discriminate]. cbn in H.
  destruct (attempt (fault_at 0 faults) _) as [d1|e] eqn:E; [|discriminate].
  injection H as <- <-. apply attempt_Ok in E as [F E].
  unfold insert_access_codes in E.
  destruct (existsb _ (access_codes d)) eqn:Ex; [discriminate|].
  injection E as <-. exists uid, g. repeat split; auto.
Qed.

(** X12: what the coach's [generateCode] does to the store.  When it
    reports no error, it has appended exactly one row: the code drawn,
    role athlete, the sport and gender selected, the coach as issuer, no
    organization, not consumed.  When it reports an error, the store
    and the code shown are as before; a draw that collides with an
    existing code is such an error, there being no second draw. *)
Theorem coach_generateCode_outcome user random faults d st :
  let res := CoachCodeGenerator.generateCode user random faults d st in
  let code := CoachCodeGenerator.generateReadableCode random in
  (CoachCodeGenerator.error res.1 = None ->
   exists uid g,
     user = Some uid /\ CoachCodeGenerator.gender st = Some g /\
     CoachCodeGenerator.sportId st <> "" /\
     CoachCodeGenerator.generatedCode res.1 = code /\
     rows_of code d = [] /\
     res.2 = set_access_codes
               (access_codes d ++
                [AccessCode.mk code None athlete (Some (CoachCodeGenerator.sportId st))
                   (Some g) (Some uid) None None None]) d) /\
  (CoachCodeGenerator.error res.1 <> None ->
   res.2 = d /\
   CoachCodeGenerator.generatedCode res.1 = CoachCodeGenerator.generatedCode st) /\
  (rows_of code d <> [] -> CoachCodeGenerator.error res.1 <> None).
Proof.
  intros res code. subst res. unfold CoachCodeGenerator.generateCode.
  assert (Hrows : existsb (code_is code) (access_codes d) = false <-> rows_of code d = []).
  { unfold rows_of. induction (access_codes d) as [|r l IH]; [done|].
    cbn [existsb]. rewrite filter_cons.
    destruct (code_is code r); cbn.
    - destruct (decide (true = true)); [|done]. split; discriminate.
    - destruct (decide (false = true)); [discriminate|]. exact IH. }
  destruct (CoachCodeGenerator.generateCode_try user random faults d st)
    as [[c d']|e] eqn:E; cbn.
  - apply generateCode_try_Ok in E as (uid & g & -> & Hg & Hs & -> & _ & Hex & ->).
    split; [|split; [congruence|]].
    + intros _. exists uid, g. repeat split; auto. now apply Hrows.
    + intros Hne. apply Hrows in Hex. contradiction.
  - split; [discriminate|]. split; [auto|]. discriminate.
Qed.

Lemma coach_generateCode_outcome_witness :
  let res := CoachCodeGenerator.generateCode (Some "coach-1") (fun _ => (1 # 2)%Q) []
               (Sample.store [])
               (CoachCodeGenerator.mk_state "soccer" (Some female) "" None) in
  access_codes res.2
  = [AccessCode.mk "SS-SSS-SS" None athlete (Some "soccer") (Some female)
       (Some "coach-1") None None None].
Proof.
  intros res.
  destruct (coach_generateCode_outcome (Some "coach-1") (fun _ => (1 # 2)%Q) []
              (Sample.store [])
              (CoachCodeGenerator.mk_state "soccer" (Some female) "" None))
    as (H & _).
  destruct H as (uid & g & Hu & Hg & _ & _ & _ & Hres).
  - vm_compute. reflexivity.
  - fold res in Hres. rewrite Hres. cbn in Hu, Hg |- *.
    injection Hu as <-. injection Hg as <-. reflexivity.
Defined.

Lemma rows_of_snoc c d r :
  rows_of c d = [] -> AccessCode.code r = c ->
  rows_of c (set_access_codes (access_codes d ++ [r]) d) = [r].
Proof.
  unfold rows_of. cbn. intros H Hc. rewrite filter_app, H, filter_cons.
  destruct (decide (code_is c r = true)) as [_|n]; [reflexivity|].
  exfalso. apply n. unfold code_is. now apply bool_decide_eq_true_2.
Qed.

Lemma coach_generateCode_try_rows user random faults d st :
  CoachCodeGenerator.error (CoachCodeGenerator.generateCode user random faults d st).1 = None ->
  exists row,
    rows_of (CoachCodeGenerator.generatedCode
               (CoachCodeGenerator.generateCode user random faults d st).1)
            (CoachCodeGenerator.generateCode user random faults d st).2 = [row] /\
    AccessCode.role row = athlete /\ AccessCode.used_at row = None /\
    AccessCode.used_by row = None /\ AccessCode.organization_id row = None.
Proof.
  unfold CoachCodeGenerator.generateCode.
  destruct (CoachCodeGenerator.generateCode_try user random faults d st)
    as [[c d']|e] eqn:E; cbn; [intros _|discriminate].
  apply generateCode_try_Ok in E as (uid & g & _ & _ & _ & _ & _ & Hex & ->).
  eexists. split.
  - apply rows_of_snoc; [|reflexivity].
    unfold rows_of. induction (access_codes d) as [|r l IH]; [done|].
    cbn [existsb] in Hex. apply orb_false_iff in Hex as [Hr Hl].
    rewrite filter_cons, Hr.
    destruct (decide (false = true)); [discriminate | now apply IH].
  - cbn. auto.
Qed.

(** X13: a code issued by the coach's generator cannot be redeemed.  The
    update that would consume it is undone by the trigger, for want of an
    organization; the athlete page never verifies it, whoever asks; the
    sign-up page leaves it unused. *)
Theorem coach_code_cannot_be_redeemed user random faults d st :
  let res := CoachCodeGenerator.generateCode user random faults d st in
  let code := CoachCodeGenerator.generatedCode res.1 in
  CoachCodeGenerator.error res.1 = None ->
  (forall uid now,
     update_access_codes code (mk_patch now (Some uid)) res.2 = Err not_null_violation) /\
  (forall u vfaults p,
     js_trim (AthletePage.code p) = code ->
     AthletePage.codeDetails (AthletePage.validateCode u vfaults res.2 p) = None) /\
  (forall newUser now sfaults text,
     js_trim text = code ->
     access_codes (SignUp.final (SignUp.handleSignUp_accessCode newUser now sfaults res.2 text))
     = access_codes res.2).
Proof.
  intros res code Herr. subst code.
  destruct (coach_generateCode_try_rows user random faults d st Herr)
    as (row & Hrows & Hrole & Hat & Hby & Horg).
  fold res in Hrows.
  set (code := CoachCodeGenerator.generatedCode res.1) in *.
  split; [|split].
  - intros uid now. apply (update_incomplete_code uid now _ code row); auto.
  - intros u vfaults p Hp.
    destruct (AthletePage.codeDetails (AthletePage.validateCode u vfaults res.2 p))
      as [cd|] eqn:E; [|reflexivity].
    apply validateCode_details in E as [Htry _].
    apply validateCode_try_Ok in Htry
      as (uid & r & sp & cr & og & _ & _ & _ & Hr & _ & _ & _ & _ & Hog & _).
    rewrite Hp, Hrows in Hr. injection Hr as <-.
    unfold embed_organizations in Hog. rewrite Horg in Hog. discriminate.
  - intros newUser now sfaults text Htext.
    unfold SignUp.handleSignUp_accessCode.
    destruct (bool_decide (js_trim text = "")); [reflexivity|].
    rewrite Htext, (select_unused_single _ _ _ Hrows Hat).
    destruct (fault_at 0 sfaults); [reflexivity|].
    cbn [select_reply single failed error data is_not_null is_null negb].
    rewrite (update_incomplete_code newUser now _ code row) by auto.
    assert (H1 : ignoring (attempt (fault_at 1 sfaults) (Err not_null_violation))
                   after res.2 = res.2)
      by (destruct (fault_at 1 sfaults); reflexivity).
    rewrite H1. cbn [SignUp.final].
    set (d2 := ignoring _ id res.2).
    assert (H2 : access_codes d2 = access_codes res.2).
    { subst d2. destruct (fault_at 2 sfaults); cbn; auto. }
    destruct (is_not_null _); [|exact H2].
    destruct (attempt (fault_at 3 sfaults) _) as [d3|e] eqn:E3; cbn [ignoring id];
      [|exact H2].
    apply attempt_Ok in E3 as [_ E3]. apply insert_user_sports_codes in E3.
    now rewrite E3.
Qed.

Lemma coach_code_cannot_be_redeemed_witness :
  let res := CoachCodeGenerator.generateCode (Some "coach-1") (fun _ => (1 # 2)%Q) []
               (Sample.store [])
               (CoachCodeGenerator.mk_state "soccer" (Some female) "" None) in
  update_access_codes "SS-SSS-SS" (mk_patch 5 (Some "A")) res.2 = Err not_null_violation.
Proof.
  intros res.
  destruct (coach_code_cannot_be_redeemed (Some "coach-1") (fun _ => (1 # 2)%Q) []
              (Sample.store [])
              (CoachCodeGenerator.mk_state "soccer" (Some female) "" None)) as (H & _).
  - vm_compute. reflexivity.
  - exact (H "A" 5).
Defined.

(** ** The age of a code, as the generator shows it *)

Lemma fits_once (s k : Z) : (0 < k)%Z -> (1 <=? s / k)%Z = (k <=? s)%Z.
Proof.
  intros Hk. destruct (k <=? s)%Z eqn:E.
  - apply Z.leb_le in E. apply Z.leb_le. apply Z.div_le_lower_bound; lia.
  - apply Z.leb_gt in E. apply Z.leb_gt.
    apply Z.div_lt_upper_bound; lia.
Qed.

(** * Further properties: the coach's lists *)

Lemma to_lower_not_upper c : is_upper (to_lower c) = false.
Proof. destruct c as [[] [] [] [] [] [] [] []]; reflexivity. Qed.

Lemma to_lower_fixed c : is_upper c = false -> to_lower c = c.
Proof. unfold to_lower. now intros ->. Qed.


Lemma toLowerCase_idempotent s : toLowerCase (toLowerCase s) = toLowerCase s.
Proof.
  unfold toLowerCase. induction s as [|c s IH]; cbn; [reflexivity|].
  now rewrite IH, (to_lower_fixed _ (to_lower_not_upper c)).
Qed.

Lemma all_chars_append p s t : all_chars p (s +:+ t) = all_chars p s && all_chars p t.
Proof.
  induction s as [|c s IH]; [reflexivity|].
  change (p c && all_chars p (s +:+ t) = p c && all_chars p s && all_chars p t).
  now rewrite IH, andb_assoc.
Qed.

Lemma replace_runs_class p b s :
  all_chars (fun c => negb (p c)) "-" = true ->
  all_chars (fun c => negb (p c)) (replace_runs p "-" b s) = true.
Proof.
  intros Hdash. revert b. induction s as [|c s IH]; intros b; [reflexivity|].
  cbn [replace_runs]. destruct (p c) eqn:E.
  - rewrite all_chars_append, IH, andb_true_r. now destruct b.
  - cbn. now rewrite E, IH.
Qed.

Lemma replace_runs_other (q : ascii -> bool) p b s :
  q "-"%char = true -> all_chars q s = true ->
  all_chars q (replace_runs p "-" b s) = true.
Proof.
  intros Hdash. revert b. induction s as [|c s IH]; intros b; [reflexivity|].
  cbn [all_chars replace_runs]. intros H. apply andb_true_iff in H as [Hc Hs].
  destruct (p c).
  - rewrite all_chars_append, IH by exact Hs. rewrite andb_true_r.
    destruct b; cbn; [reflexivity | now rewrite Hdash].
  - cbn. now rewrite Hc, IH.
Qed.

Lemma replace_runs_none p by_ b s :
  all_chars (fun c => negb (p c)) s = true -> replace_runs p by_ b s = s.
Proof.
  revert b. induction s as [|c s IH]; intros b; [reflexivity|].
  cbn. intros H. apply andb_true_iff in H as [Hc Hs].
  apply negb_true_iff in Hc. rewrite Hc. now rewrite IH.
Qed.

Lemma toLowerCase_fixed s :
  all_chars (fun c => negb (is_upper c)) s = true -> toLowerCase s = s.
Proof.
  unfold toLowerCase. induction s as [|c s IH]; [reflexivity|].
  cbn. intros H. apply andb_true_iff in H as [Hc Hs].
  apply negb_true_iff in Hc. now rewrite (to_lower_fixed _ Hc), IH.
Qed.

Lemma toLowerCase_no_upper s :
  all_chars (fun c => negb (is_upper c)) (toLowerCase s) = true.
Proof.
  unfold toLowerCase. induction s as [|c s IH]; [reflexivity|].
  cbn. now rewrite to_lower_not_upper, IH.
Qed.

(** X15: the route of a sport holds no white space and no capital
    letter; computing the route of a route changes nothing; names that
    differ only in the case of their letters share a route. *)
Theorem sportRoute_is_kebab sportName :
  let route := CoachMySports.sportRoute sportName in
  all_chars (fun c => negb (js_white_space c) && negb (is_upper c)) route = true /\
  CoachMySports.sportRoute route = route /\
  CoachMySports.sportRoute (toLowerCase sportName) = route /\
  CoachMySports.handleSportNavigation sportName = "/coach/sports/" +:+ route.
Proof.
  intros route. subst route. unfold CoachMySports.sportRoute.
  set (t := toLowerCase sportName).
  assert (H1 : all_chars (fun c => negb (js_white_space c))
                 (replace_runs js_white_space "-" false t) = true)
    by now apply replace_runs_class.
  assert (H2 : all_chars (fun c => negb (is_upper c))
                 (replace_runs js_white_space "-" false t) = true).
  { apply replace_runs_other; [reflexivity|]. apply toLowerCase_no_upper. }
  split; [|split; [|split]].
  - clear - H1 H2. induction (replace_runs js_white_space "-" false t) as [|c s IH];
      [reflexivity|].
    cbn in *. apply andb_true_iff in H1 as [-> H1], H2 as [-> H2]. now apply IH.
  - rewrite (toLowerCase_fixed _ H2). now apply replace_runs_none.
  - subst t. now rewrite toLowerCase_idempotent.
  - reflexivity.
Qed.

Lemma count_filter_le {A} (p q : A -> bool) (l : list A) :
  (forall a, p a = true -> q a = true) ->
  length (List.filter p l) <= length (List.filter q l).
Proof.
  intros H. induction l as [|a l IH]; [cbn; lia|].
  cbn. destruct (p a) eqn:E.
  - rewrite (H a E). cbn. lia.
  - destruct (q a); cbn; lia.
Qed.

(** X16: of the three figures above the list of athletes, the count of
    the last week is at most the count of the last thirty days, which is
    at most the total. *)
Theorem stats_are_nested now formattedAthletes :
  let s := Athletes.stats now formattedAthletes in
  Athletes.activeThisWeek s <= Athletes.recentJoins s /\
  Athletes.recentJoins s <= Athletes.totalAthletes s /\
  Athletes.totalAthletes s = length formattedAthletes.
Proof.
  cbn. split; [|split; [|reflexivity]].
  - apply count_filter_le. intros a H. apply Z.ltb_lt in H. apply Z.ltb_lt. lia.
  - apply List.filter_length_le.
Qed.

Lemma drop_leading_all p s : all_chars p s = true -> drop_leading p s = "".
Proof.
  induction s as [|c s IH]; [reflexivity|]. cbn.
  intros H. apply andb_true_iff in H as [-> H]. now apply IH.
Qed.

Lemma drop_leading_empty p s : drop_leading p s = "" -> all_chars p s = true.
Proof.
  induction s as [|c s IH]; [reflexivity|]. cbn.
  destruct (p c); [exact IH | discriminate].
Qed.

Lemma drop_leading_head p s c t : drop_leading p s = String c t -> p c = false.
Proof.
  induction s as [|a s IH]; [discriminate|]. cbn.
  destruct (p a) eqn:E; [exact IH|]. now intros [= <- _].
Qed.

Lemma all_chars_rev_app p t u :
  all_chars p (String.rev_app t u) = all_chars p t && all_chars p u.
Proof.
  revert u. induction t as [|c t IH]; intros u; [reflexivity|].
  cbn. rewrite IH. cbn. rewrite !andb_assoc. f_equal. apply andb_comm.
Qed.

Lemma all_chars_rev p s : all_chars p (String.rev s) = all_chars p s.
Proof. unfold String.rev. rewrite all_chars_rev_app. cbn. apply andb_true_r. Qed.

(** A text trims to nothing exactly when all its characters are of the
    class that is trimmed. *)
Lemma strip_blank p s : strip p s = "" <-> all_chars p s = true.
Proof.
  unfold strip. split.
  - intros H. apply (f_equal String.rev) in H. rewrite rev_involutive in H.
    cbn in H. apply drop_leading_empty in H. rewrite all_chars_rev in H.
    destruct (drop_leading p s) as [|c t] eqn:E.
    + now apply drop_leading_empty.
    + apply drop_leading_head in E. cbn in H. rewrite E in H. discriminate.
  - intros H. now rewrite (drop_leading_all _ _ H).
Qed.




(** * Further properties: the session and the routes *)

Lemma update_profiles_role_In i ro d d' r :
  update_profiles_role i ro d = Ok d' ->
  In r (profiles d') -> Profile.id r = i -> Profile.role r = ro.
Proof.
  intros [= <-]. cbn. intros Hin Hid. apply in_map_iff in Hin as (r0 & <- & _).
  destruct (bool_decide (Profile.id r0 = i)) eqn:E; [reflexivity|].
  apply bool_decide_eq_false in E. contradiction.
Qed.

(** X18: [setRole] keeps the role of the store in step with the profile.
    The role of the store moves only when the update of the profile went
    through, or when nobody is signed in; when it moves for a signed-in
    user, every profile of that user carries the new role; when the
    update is lost, the store and the role stay.  After [setUser(null)] a
    [setRole(null)] sends nothing. *)
Theorem setRole_follows_the_profile ro fault d st :
  let res := AuthStore.setRole ro fault d st in
  AuthStore.user res.1 = AuthStore.user st /\
  (AuthStore.role res.1 <> ro -> res.2 = d /\ AuthStore.role res.1 = AuthStore.role st) /\
  (forall u r,
     AuthStore.user st = Some u -> AuthStore.role st <> ro -> AuthStore.role res.1 = ro ->
     In r (profiles res.2) -> Profile.id r = AuthStore.id u -> Profile.role r = ro) /\
  (AuthStore.user st = None -> res.2 = d) /\
  access_codes res.2 = access_codes d /\
  AuthStore.setRole None fault d (AuthStore.setUser None st) = (AuthStore.setUser None st, d).
Proof.
  intros res. subst res.
  assert (Hlast : AuthStore.setRole None fault d (AuthStore.setUser None st)
                  = (AuthStore.setUser None st, d)) by reflexivity.
  unfold AuthStore.setRole.
  destruct (bool_decide (ro = AuthStore.role st)) eqn:E.
  - apply bool_decide_eq_true in E. cbn [fst snd].
    split; [reflexivity|]. split; [intros H; congruence|].
    split; [intros u r _ H; congruence|]. split; [reflexivity|].
    split; [reflexivity | exact Hlast].
  - apply bool_decide_eq_false in E.
    destruct (AuthStore.user st) as [u|] eqn:Eu.
    + destruct fault; cbn [attempt update_profiles_role fst snd AuthStore.user AuthStore.role].
      * split; [reflexivity|]. split; [auto|].
        split; [intros u0 r _ H1 H2; congruence|]. split; [discriminate|].
        split; [reflexivity | exact Hlast].
      * split; [reflexivity|]. split; [intros H; congruence|].
        split.
        { intros u0 r [= <-] _ _ Hin Hid.
          now apply (update_profiles_role_In (AuthStore.id u) ro d _ r eq_refl). }
        split; [discriminate|]. split; [reflexivity | exact Hlast].
    + cbn [fst snd AuthStore.user AuthStore.role].
      split; [reflexivity|]. split; [intros H; congruence|].
      split; [discriminate|]. split; [reflexivity|].
      split; [reflexivity | exact Hlast].
Qed.

(** X19: [ProtectedRoute] shows a dashboard only to a signed-in user whose
    role is the one required.  When it redirects, the target is the one
    [getDashboardRedirect] computes, and for a user with a role it is the
    dashboard that admits that user, so that one redirect suffices. *)
Theorem ProtectedRoute_admits st required :
  (App.ProtectedRoute st (Some required) = App.children <->
   AuthStore.loading st = false /\ AuthStore.user st <> None /\
   AuthStore.role st = Some required) /\
  (forall to,
     App.ProtectedRoute st (Some required) = App.Navigate to ->
     to = App.getDashboardRedirect st /\
     (forall ro, AuthStore.user st <> None -> AuthStore.role st = Some ro ->
        to = App.dashboard ro /\ App.ProtectedRoute st (Some ro) = App.children)).
Proof.
  unfold App.ProtectedRoute, App.getDashboardRedirect, App.dashboard.
  destruct (AuthStore.loading st).
  { split; [split; [discriminate | intros (H & _); discriminate]|].
    intros to. discriminate. }
  destruct (AuthStore.user st) as [u|].
  2: { split; [split; [discriminate | intros (_ & H & _); contradiction]|].
       intros to [= <-]. split; [reflexivity|]. intros ro H. contradiction. }
  destruct (AuthStore.role st) as [ro|].
  2: { split; [split; [discriminate | intros (_ & _ & H); discriminate]|].
       intros to [= <-]. split; [reflexivity|]. intros ro _ H. discriminate. }
  destruct (bool_decide (ro = required)) eqn:E.
  - apply bool_decide_eq_true in E as ->.
    split; [split; [intros _; repeat split; congruence | reflexivity]|].
    intros to. discriminate.
  - apply bool_decide_eq_false in E.
    split; [split; [discriminate | intros (_ & _ & [= ->]); contradiction]|].
    intros to [= <-]. split; [reflexivity|].
    intros ro' _ [= <-]. split; [reflexivity|]. now rewrite bool_decide_eq_true_2.
Qed.

(** ** Choosing a role *)

Lemma setRole_profiles ro fault d st :
  let res := AuthStore.setRole ro fault d st in
  res.2 = d \/
  exists u, AuthStore.user st = Some u /\ update_profiles_role (AuthStore.id u) ro d = Ok res.2.
Proof.
  cbn. unfold AuthStore.setRole.
  destruct (bool_decide (ro = AuthStore.role st)); [now left|].
  destruct (AuthStore.user st) as [u|]; [|now left].
  destruct fault; cbn; [now left|]. right. now exists u.
Qed.

Lemma select_profile_data i d fault r :
  data (select_reply fault (select_profile i d)) = Some r ->
  In r (profiles d) /\ Profile.id r = i.
Proof.
  intros H. apply select_reply_data in H as [_ H]. apply single_data in H.
  assert (Hin : r ∈ filter (fun r => Profile.id r = i) (profiles d)) by (rewrite H; left).
  apply list_elem_of_filter in Hin as [Hid Hin]. split; [|exact Hid].
  now apply list_elem_of_In.
Qed.

Lemma setRole_role_or_fault ro fault d st :
  let res := AuthStore.setRole ro fault d st in
  AuthStore.role res.1 = ro \/ fault = true.
Proof.
  cbn. unfold AuthStore.setRole.
  destruct (bool_decide (ro = AuthStore.role st)) eqn:E.
  - apply bool_decide_eq_true in E. now left.
  - destruct (AuthStore.user st); [|now left].
    destruct fault; cbn; [now right | now left].
Qed.

(** X20: a choice of role that navigates leaves a profile of the user
    with the role chosen and, as name, what precedes the '@' of the
    user's address ('New User' without one), whether the profile was
    there before or not; every profile of the user reads so.  The codes
    and the connections are not touched.  The role of the store follows
    unless the update that [setRole] sends is lost. *)
Theorem handleRoleSelect_outcome selectedRole faults d st :
  let res := RoleSelection.handleRoleSelect selectedRole faults d st in
  RoleSelection.navigate res <> None ->
  exists u,
    AuthStore.user st = Some u /\
    RoleSelection.error res = None /\
    RoleSelection.navigate res = Some ("/" +:+ role_name selectedRole) /\
    RoleSelection.firstName res = Some (first_word (RoleSelection.full_name u)) /\
    (exists r, In r (profiles (RoleSelection.final res)) /\ Profile.id r = AuthStore.id u) /\
    (forall r, In r (profiles (RoleSelection.final res)) ->
       Profile.id r = AuthStore.id u ->
       Profile.role r = Some selectedRole /\
       Profile.full_name r = Some (RoleSelection.full_name u)) /\
    access_codes (RoleSelection.final res) = access_codes d /\
    coach_athletes (RoleSelection.final res) = coach_athletes d /\
    user_sports (RoleSelection.final res) = user_sports d /\
    (AuthStore.role (RoleSelection.auth res) = Some selectedRole \/
     fault_at 2 faults = true).
Proof.
  intros res. subst res. unfold RoleSelection.handleRoleSelect.
  destruct (AuthStore.user st) as [u|] eqn:Eu; [|cbn; congruence].
  cbn zeta.
  set (i := AuthStore.id u). set (name := RoleSelection.full_name u).
  set (existing := data (select_reply (fault_at 0 faults) (select_profile i d))).
  set (upsert := if is_not_null existing then _ else _).
  assert (Hup : forall d1, upsert = Ok d1 ->
            (exists r, In r (profiles d1) /\ Profile.id r = i) /\
            (forall r, In r (profiles d1) -> Profile.id r = i ->
               Profile.role r = Some selectedRole /\ Profile.full_name r = Some name) /\
            access_codes d1 = access_codes d /\ coach_athletes d1 = coach_athletes d /\
            user_sports d1 = user_sports d).
  { intros d1 H. subst upsert. destruct existing as [r0|] eqn:Ex; cbn [is_not_null is_null negb] in H.
    - apply attempt_Ok in H as [_ H]. injection H as <-. cbn.
      apply select_profile_data in Ex as [Hin Hid].
      split; [|split; [|auto]].
      + exists (Profile.mk i (Some selectedRole) (Profile.organization_id r0)
                  (Some name) (Profile.email r0)).
        split; [|reflexivity]. apply in_map_iff. exists r0.
        now rewrite bool_decide_eq_true_2.
      + intros r Hr Hrid. apply in_map_iff in Hr as (x & <- & _).
        destruct (bool_decide (Profile.id x = i)) eqn:E; [now cbn|].
        apply bool_decide_eq_false in E. contradiction.
    - apply attempt_Ok in H as [_ H]. apply insert_profiles_Ok in H as (-> & _ & Hfresh).
      cbn. split; [|split; [|auto]].
      + eexists. split; [apply in_or_app; right; left; reflexivity | reflexivity].
      + intros r Hr Hrid. apply in_app_iff in Hr as [Hr | [<- | []]]; [|now cbn].
        exfalso. apply (profile_id_fresh i d Hfresh). apply in_map_iff. now exists r. }
  destruct upsert as [d1|e]; [|cbn; congruence].
  destruct (Hup d1 eq_refl) as (Hex & Hall & Hc & Hca & Hus). clear Hup.
  pose proof (setRole_profiles (Some selectedRole) (fault_at 2 faults) d1 st) as Hset.
  pose proof (setRole_role_or_fault (Some selectedRole) (fault_at 2 faults) d1 st)
    as Hrole.
  cbn zeta in Hset, Hrole.
  destruct (AuthStore.setRole (Some selectedRole) (fault_at 2 faults) d1 st) as [st' d2].
  cbn [fst snd] in Hset, Hrole. cbn. intros _. exists u.
  split; [reflexivity|]. split; [reflexivity|]. split; [reflexivity|].
  split; [reflexivity|].
  destruct Hset as [-> | (u' & Hu' & Hupd)].
  - split; [exact Hex|]. split; [exact Hall|]. auto.
  - rewrite Eu in Hu'. injection Hu' as <-. injection Hupd as <-.
    cbn. split; [|split; [|auto]].
    + destruct Hex as (r & Hr & Hid).
      exists (Profile.mk (Profile.id r) (Some selectedRole) (Profile.organization_id r)
                (Profile.full_name r) (Profile.email r)).
      split; [|exact Hid]. apply in_map_iff. exists r.
      fold i. now rewrite bool_decide_eq_true_2.
    + intros r Hr Hrid. apply in_map_iff in Hr as (x & <- & Hx). fold i in Hrid |- *.
      destruct (bool_decide (Profile.id x = i)) eqn:E.
      * apply bool_decide_eq_true in E. cbn. split; [reflexivity|]. now apply Hall.
      * apply bool_decide_eq_false in E. contradiction.
Qed.

Lemma handleRoleSelect_outcome_witness :
  let st := AuthStore.mk_state (Some (AuthStore.mk_user "u1" (Some "jane@example.com")))
              None None false true in
  let res := RoleSelection.handleRoleSelect coach [] Sample.empty st in
  RoleSelection.navigate res = Some "/coach" /\
  profiles (RoleSelection.final res)
  = [Profile.mk "u1" (Some coach) None (Some "jane") None].
Proof.
  intros st res.
  destruct (handleRoleSelect_outcome coach [] Sample.empty st)
    as (u & _ & _ & Hnav & _).
  - vm_compute. discriminate.
  - split; [exact Hnav | vm_compute; reflexivity].
Defined.

Lemma map_unless {A} (p : A -> bool) (f : A -> A) (l : list A) :
  existsb p l = false -> map (fun x => if p x then f x else x) l = l.
Proof.
  induction l as [|a l IH]; [reflexivity|]. cbn.
  intros H. apply orb_false_iff in H as [-> H]. now rewrite IH.
Qed.

Lemma valid_email_local_part e :
  valid_email (Some e) = true -> local_part e <> "".
Proof.
  cbn. unfold email_regex_match, local_part.
  destruct (split_at_first is_at (list_ascii_of_string e)) as [[l rest]|]; [|discriminate].
  intros H. apply andb_true_iff in H as [H _]. unfold nonempty_all in H.
  apply andb_true_iff in H as [H _]. destruct l; [discriminate|]. discriminate.
Qed.

Lemma filter_profile_snoc i (l : list Profile.row) r :
  existsb (fun x => bool_decide (Profile.id x = i)) l = false -> Profile.id r = i ->
  filter (fun x => Profile.id x = i) (l ++ [r]) = [r].
Proof.
  intros Hl Hr. rewrite filter_app.
  assert (Hnil : filter (fun x => Profile.id x = i) l = []).
  { induction l as [|a l IH]; [reflexivity|]. cbn in Hl.
    apply orb_false_iff in Hl as [Ha Hl]. apply bool_decide_eq_false in Ha.
    rewrite filter_cons. destruct (decide (Profile.id a = i)); [contradiction|].
    now apply IH. }
  rewrite Hnil, filter_cons. destruct (decide (Profile.id r = i)); [reflexivity|contradiction].
Qed.

(** X21: the bootstrap and the choice of a role, one after the other.
    The profile that [handle_new_user] created with the name of the
    sign-up form keeps its address and loses that name: after the choice
    it carries the part of the address before the '@'. *)
Theorem role_selection_overwrites_name new i e bootstrap d selectedRole faults st :
  AuthUser.id new = Some i -> AuthUser.email new = Some e ->
  profile_exists i d = false ->
  fault_at 0 bootstrap = false -> valid_email (Some e) = true ->
  AuthStore.user st = Some (AuthStore.mk_user i (Some e)) ->
  (forall k, fault_at k faults = false) ->
  exists d1 log,
    handle_new_user bootstrap new d = Some (RETURN_new d1 log) /\
    profiles d1
    = profiles d ++ [Profile.mk i (Some athlete) None (Some (extract_full_name new)) (Some e)] /\
    let res := RoleSelection.handleRoleSelect selectedRole faults d1 st in
    RoleSelection.error res = None /\
    RoleSelection.navigate res = Some ("/" +:+ role_name selectedRole) /\
    profiles (RoleSelection.final res)
    = profiles d ++ [Profile.mk i (Some selectedRole) None (Some (local_part e)) (Some e)].
Proof.
  intros Hid He Hfresh F0 Hvalid Hu F.
  rewrite <- He in Hvalid.
  pose proof (handle_new_user_first_try bootstrap new i d Hid Hfresh F0 Hvalid) as Hrun.
  eexists _, _. split; [exact Hrun|]. split; [cbn; unfold profile_values; now rewrite He|].
  unfold RoleSelection.handleRoleSelect. rewrite Hu. cbn zeta.
  cbn [AuthStore.id]. rewrite !F.
  unfold select_profile. cbn [profiles set_profiles select_reply].
  rewrite (filter_profile_snoc i (profiles d)
             (profile_values i (extract_full_name new) new) Hfresh eq_refl).
  cbn [single data is_not_null is_null negb attempt update_profiles_data].
  set (d1 := set_profiles _ _).
  assert (Hname : RoleSelection.full_name (AuthStore.mk_user i (Some e)) = local_part e).
  { unfold RoleSelection.full_name. cbn.
    rewrite He in Hvalid. apply valid_email_local_part in Hvalid.
    now rewrite bool_decide_eq_false_2. }
  assert (Hd1 : profiles d1
                = profiles d ++
                  [Profile.mk i (Some selectedRole) None (Some (local_part e)) (Some e)]).
  { subst d1. cbn [profiles set_profiles]. rewrite map_app. f_equal.
    - exact (map_unless (fun r => bool_decide (Profile.id r = i)) _ _ Hfresh).
    - cbn [map profile_values Profile.id Profile.organization_id Profile.email].
      rewrite bool_decide_eq_true_2 by reflexivity. now rewrite Hname, He. }
  clearbody d1.
  pose proof (setRole_profiles (Some selectedRole) false d1 st) as Hset. cbn zeta in Hset.
  destruct (AuthStore.setRole (Some selectedRole) false d1 st) as [st' d2].
  cbn [fst snd] in Hset.
  cbn [RoleSelection.error RoleSelection.navigate RoleSelection.final].
  split; [reflexivity|]. split; [reflexivity|].
  destruct Hset as [-> | (u' & Hu' & Hupd)]; [exact Hd1|].
  rewrite Hu in Hu'. injection Hu' as <-. injection Hupd as <-.
  cbn [profiles set_profiles AuthStore.id]. rewrite Hd1, map_app.
  assert (Hsame : map (fun r => if bool_decide (Profile.id r = i)
                      then Profile.mk (Profile.id r) (Some selectedRole)
                             (Profile.organization_id r) (Profile.full_name r)
                             (Profile.email r)
                      else r) (profiles d) = profiles d).
  { exact (map_unless (fun r => bool_decide (Profile.id r = i)) _ _ Hfresh). }
  rewrite Hsame. cbn [map Profile.id Profile.organization_id Profile.full_name Profile.email].
  now rewrite bool_decide_eq_true_2.
Qed.

Lemma role_selection_overwrites_name_witness :
  exists d1 log,
    handle_new_user [] Sample.jane Sample.empty = Some (RETURN_new d1 log) /\
    profiles d1
    = [Profile.mk "u1" (Some athlete) None (Some "Jane Doe") (Some "jane@example.com")] /\
    profiles
      (RoleSelection.final
         (RoleSelection.handleRoleSelect athlete [] d1
            (AuthStore.mk_state (Some (AuthStore.mk_user "u1" (Some "jane@example.com")))
               None None false true)))
    = [Profile.mk "u1" (Some athlete) None (Some "jane") (Some "jane@example.com")].
Proof.
  destruct (role_selection_overwrites_name Sample.jane "u1" "jane@example.com" []
              Sample.empty athlete []
              (AuthStore.mk_state (Some (AuthStore.mk_user "u1" (Some "jane@example.com")))
                 None None false true))
    as (d1 & log & H1 & H2 & _ & _ & H3).
  - reflexivity.
  - reflexivity.
  - reflexivity.
  - reflexivity.
  - reflexivity.
  - reflexivity.
  - intros [|[|[|k]]]; reflexivity.
  - exists d1, log. split; [exact H1|]. split; [exact H2 | exact H3].
Defined.

(** * The API under the declared schema and policies *)

Lemma permits_access_codes_UPDATE c d r :
  permits access_codes_policies UPDATE c d r = false.
Proof. destruct c; reflexivity. Qed.

Lemma permits_access_codes_INSERT c d r :
  permits access_codes_policies INSERT c d r = false.
Proof. destruct c; reflexivity. Qed.

(** A code is visible to an account exactly when a profile of the account
    names the organization of the code. *)
Lemma permits_access_codes_SELECT c d r :
  permits access_codes_policies SELECT c d r = true <->
  exists uid o p,
    c = authenticated uid /\ AccessCode.organization_id r = Some o /\
    In p (profiles d) /\ Profile.id p = uid /\ Profile.organization_id p = Some o.
Proof.
  destruct c as [|uid]; simpl.
  - split; [discriminate | intros (? & ? & ? & ? & _); discriminate].
  - rewrite orb_false_r. unfold organization_of_caller.
    destruct (AccessCode.organization_id r) as [o|].
    + rewrite existsb_exists. split.
      * intros (p & Hin & Hp). apply andb_true_iff in Hp as [H1 H2].
        apply bool_decide_eq_true_1 in H1, H2. exists uid, o, p. done.
      * intros (uid' & o' & p & [= <-] & [= <-] & Hin & H1 & H2).
        exists p. split; [done|].
        now rewrite !bool_decide_eq_true_2 by done.
    + split; [discriminate | intros (? & ? & ? & _ & ? & _); discriminate].
Qed.

Lemma patch_columns_declared p :
  Schema.first_undeclared "access_codes" (Api.patch_columns p) = None.
Proof. unfold Api.patch_columns. now destruct (patch_used_by p). Qed.

Lemma map_all_else {A} (f : A -> A) (q : A -> bool) (l : list A) :
  (forall a, q a = false) -> map (fun a => if q a then f a else a) l = l.
Proof.
  intros Hq. induction l as [|a l IH]; simpl; [done|].
  now rewrite Hq, IH.
Qed.

Lemma filter_none {A} (q : A -> bool) (l : list A) :
  (forall a, q a = false) -> filter (fun a => q a = true) l = [].
Proof.
  intros Hq. induction l as [|a l IH]; [done|].
  rewrite filter_cons. destruct (decide (q a = true)) as [E|_]; [|exact IH].
  rewrite Hq in E. discriminate.
Qed.

(** The table has no policy for UPDATE: whatever the caller, the code and
    the payload, the statement reaches no row, fires no trigger and
    answers without an error. *)
Lemma update_access_codes_reaches_no_row c code p d :
  Api.update_access_codes c code p d = Ok (mk_report d 0 0).
Proof.
  unfold Api.update_access_codes. rewrite patch_columns_declared.
  set (q := fun r : AccessCode.row => _ && _ && _).
  assert (Hq : forall r, q r = false).
  { intros r. unfold q. rewrite permits_access_codes_UPDATE.
    now rewrite andb_false_r. }
  unfold update_access_codes_where, touched_where.
  rewrite (filter_none q _ Hq). simpl.
  now rewrite (map_all_else _ q _ Hq), set_access_codes_same.
Qed.

(** Nor has it one for INSERT. *)
Lemma insert_access_codes_refused c r d :
  Api.insert_access_codes c r d = Err (insufficient_privilege "access_codes").
Proof.
  unfold Api.insert_access_codes. now rewrite permits_access_codes_INSERT.
Qed.

Lemma attempt_api_Ok {A} (fault : bool) (r : api A) a :
  Api.attempt fault r = Ok a -> fault = false /\ r = Ok a.
Proof. destruct fault; [discriminate | done]. Qed.

Lemma update_access_codes_ignored c code p fault d :
  Deployed.ignoring (Api.attempt fault (Api.update_access_codes c code p d)) after d = d.
Proof.
  rewrite update_access_codes_reaches_no_row. now destruct fault.
Qed.

(** An insert into [user_sports] leaves the other tables alone and adds
    at most the proposed row. *)
Lemma api_insert_user_sports_Ok cols c v d d' :
  Api.insert_user_sports cols c v d = Ok d' ->
  d' = set_user_sports (user_sports d ++ [v]) d /\
  existsb (same_user_sport v) (user_sports d) = false /\
  permits user_sports_policies INSERT c d v = true.
Proof.
  unfold Api.insert_user_sports.
  destruct (Schema.first_undeclared _ _); [discriminate|].
  destruct (permits _ _ _ _ _); [|discriminate].
  unfold insert_user_sports.
  destruct (existsb _ _); simpl; [discriminate|].
  intros [= <-]. done.
Qed.

Lemma api_update_profiles_Ok cols c i ro o d d' :
  Api.update_profiles cols c i ro o d = Ok d' ->
  access_codes d' = access_codes d /\
  user_sports d' = user_sports d /\
  coach_athletes d' = coach_athletes d /\
  sports d' = sports d /\ organizations d' = organizations d /\
  creators d' = creators d /\
  map Profile.id (profiles d') = map Profile.id (profiles d).
Proof.
  unfold Api.update_profiles.
  destruct (Schema.first_undeclared _ _); [discriminate|].
  destruct i as [i|]; [|discriminate].
  destruct (forallb _ _); [|discriminate].
  intros [= <-]. simpl. repeat split; try done.
  rewrite map_map. apply map_ext. intros r.
  now destruct (_ && _ && _).
Qed.

(** * The athlete page against the declared tables *)

Lemma details_unresolved :
  Schema.check Deployed.AthleteAccessCode.details =
  Some (no_relationship "access_codes" "created_by").
Proof. reflexivity. Qed.

(** Without the embedded issuer the select still names a column the
    table does not have. *)
Lemma details_undeclared :
  Schema.first_undeclared "access_codes"
    (Schema.columns Deployed.AthleteAccessCode.details) =
  Some (undefined_column "access_codes" "coach_id").
Proof. reflexivity. Qed.

Lemma validateCode_try_Err user faults d code :
  Deployed.AthleteAccessCode.validateCode_try user faults d code =
  Err (Deployed.Error
         (if bool_decide (trim code = "") then "Please enter an access code"
          else match user with
               | None => "Authentication required"
               | Some _ => "Invalid access code"
               end)).
Proof.
  unfold Deployed.AthleteAccessCode.validateCode_try.
  destruct (bool_decide (trim code = "")); [reflexivity|].
  destruct user as [uid|]; [|reflexivity].
  unfold Api.select_access_codes. rewrite details_unresolved.
  simpl. now destruct (fault_at 0 faults).
Qed.

Lemma handleJoin_store user now faults d p :
  Deployed.AthleteAccessCode.final
    (Deployed.AthleteAccessCode.handleJoin user now faults d p) = d /\
  Deployed.AthleteAccessCode.navigate
    (Deployed.AthleteAccessCode.handleJoin user now faults d p) = None /\
  Deployed.AthleteAccessCode.codeDetails
    (Deployed.AthleteAccessCode.page
       (Deployed.AthleteAccessCode.handleJoin user now faults d p)) =
  Deployed.AthleteAccessCode.codeDetails p.
Proof.
  unfold Deployed.AthleteAccessCode.handleJoin.
  destruct (Deployed.AthleteAccessCode.codeDetails p) as [cd|] eqn:Ecd; [|done].
  destruct user as [uid|]; [|done].
  rewrite update_access_codes_reaches_no_row.
  destruct (fault_at 0 faults); simpl; [done|].
  unfold Api.insert_coach_athletes.
  change (Schema.first_undeclared "coach_athletes" _)
    with (Some (undefined_column "coach_athletes" "gender")).
  now destruct (fault_at 1 faults).
Qed.

(** * The coach page *)

Lemma select_star c q d :
  Api.select_access_codes (Schema.star "access_codes") c q d =
  Ok (filter (fun r => q r && permits access_codes_policies SELECT c d r = true)
             (access_codes d)).
Proof. reflexivity. Qed.

Lemma codeData_Some u fault d code x :
  Deployed.CoachAccessCode.codeData u fault d code = Some x <->
  fault = false /\ Deployed.visible_unused (caller_of u) code d = [x].
Proof.
  unfold Deployed.CoachAccessCode.codeData, Deployed.CoachAccessCode.lookup,
    Deployed.visible_unused.
  rewrite select_star. destruct fault; simpl; [split; [discriminate | intros [? _]; discriminate]|].
  destruct (filter _ _) as [|y [|z l]]; simpl.
  - split; [discriminate | intros [_ ?]; discriminate].
  - split; [intros [= ->]; done | intros [_ [= ->]]; done].
  - split; [discriminate | intros [_ ?]; discriminate].
Qed.

Lemma codeData_None u fault d code :
  Deployed.CoachAccessCode.codeData u fault d code = None <->
  fault = true \/ forall x, Deployed.visible_unused (caller_of u) code d <> [x].
Proof.
  destruct (Deployed.CoachAccessCode.codeData u fault d code) as [x|] eqn:E.
  - apply codeData_Some in E as [-> E]. split; [discriminate|].
    intros [?|H]; [discriminate | now destruct (H x)].
  - split; [|done]. intros _. destruct fault; [now left | right].
    intros x Hx. assert (H : Deployed.CoachAccessCode.codeData u false d code = Some x)
      by now apply codeData_Some.
    congruence.
Qed.

(** What the lookup shows is a row of the table with the text entered,
    unused, of an organization that a profile of the account names. *)
Lemma visible_unused_In c code d x :
  In x (Deployed.visible_unused c code d) <->
  In x (access_codes d) /\ AccessCode.code x = code /\
  AccessCode.used_at x = None /\
  exists uid o p,
    c = authenticated uid /\ AccessCode.organization_id x = Some o /\
    In p (profiles d) /\ Profile.id p = uid /\ Profile.organization_id p = Some o.
Proof.
  unfold Deployed.visible_unused.
  rewrite <- list_elem_of_In, list_elem_of_filter, list_elem_of_In.
  rewrite andb_true_iff, permits_access_codes_SELECT.
  unfold Deployed.unused_code, code_is. rewrite andb_true_iff, bool_decide_eq_true.
  destruct (AccessCode.used_at x); simpl; intuition congruence.
Qed.

(** An account may write its own profile, and no other. *)
Lemma permits_profiles_UPDATE uid d r :
  permits profiles_policies UPDATE (authenticated uid) d r =
  bool_decide (Profile.id r = uid).
Proof.
  simpl. now destruct (bool_decide (Profile.id r = uid)).
Qed.

Lemma permits_profiles_SELECT_own uid d r :
  Profile.id r = uid ->
  permits profiles_policies SELECT (authenticated uid) d r = true.
Proof. intros H. simpl. now rewrite bool_decide_eq_true_2. Qed.

Lemma update_own_profile cols uid ro o d :
  Schema.first_undeclared "profiles" cols = None ->
  Api.update_profiles cols (authenticated uid) (Some uid) ro o d =
  Ok (set_profiles
        (map (fun r => if bool_decide (Profile.id r = uid)
                       then Api.set_profile ro o r else r) (profiles d)) d).
Proof.
  intros Hc. unfold Api.update_profiles. rewrite Hc.
  assert (Hq : forall r,
             bool_decide (Profile.id r = uid) &&
             permits profiles_policies UPDATE (authenticated uid) d r &&
             permits profiles_policies SELECT (authenticated uid) d r =
             bool_decide (Profile.id r = uid)).
  { intros r. rewrite permits_profiles_UPDATE.
    destruct (bool_decide (Profile.id r = uid)) eqn:E; [|done].
    apply bool_decide_eq_true_1 in E.
    now rewrite permits_profiles_SELECT_own. }
  rewrite (proj2 (forallb_forall _ _)).
  - f_equal. f_equal. apply map_ext. intros r. now rewrite Hq.
  - intros r _. rewrite Hq, permits_profiles_UPDATE. simpl.
    now destruct (bool_decide (Profile.id r = uid)).
Qed.

Lemma permits_user_sports_INSERT uid d v :
  permits user_sports_policies INSERT (authenticated uid) d v =
  bool_decide (UserSport.user_id v = Some uid).
Proof.
  simpl. now destruct (bool_decide (UserSport.user_id v = Some uid)).
Qed.

(** The course of a submission whose lookup shows the coach code [x]. *)
Lemma handleSubmit_coach_code u now faults d code x :
  Deployed.CoachAccessCode.codeData u (fault_at 0 faults) d code = Some x ->
  AccessCode.role x = coach ->
  exists uid o,
    u = Some uid /\ AccessCode.organization_id x = Some o /\
    let d1 := set_profiles
                (map (fun r => if bool_decide (Profile.id r = uid)
                               then Api.set_profile None (Some (Some o)) r else r)
                     (profiles d)) d in
    let v := UserSport.mk (Some uid) (AccessCode.sport_id x) (Some o) None in
    Deployed.CoachAccessCode.handleSubmit u now faults d code =
    if fault_at 1 faults then
      Deployed.CoachAccessCode.mk_submit
        (Some (Deployed.PostgrestError (sqlstate store_fault))) d None
    else
      Deployed.CoachAccessCode.mk_submit None
        (if is_not_null (AccessCode.sport_id x) && negb (fault_at 3 faults) &&
            negb (existsb (same_user_sport v) (user_sports d))
         then set_user_sports (user_sports d ++ [v]) d1 else d1)
        (Some "/coach").
Proof.
  intros Hx Hrole.
  pose proof Hx as Hseen. apply codeData_Some in Hseen as [_ Hseen].
  assert (Hin : In x (Deployed.visible_unused (caller_of u) code d))
    by (rewrite Hseen; now left).
  apply visible_unused_In in Hin as (_ & _ & _ & uid & o & p & Hc & Ho & _).
  destruct u as [uid'|]; [|discriminate]. injection Hc as ->.
  exists uid, o. split; [done|]. split; [done|]. intros d1 v.
  unfold Deployed.CoachAccessCode.handleSubmit. rewrite Hx, Hrole. simpl.
  rewrite Ho, update_own_profile by reflexivity. fold d1.
  destruct (fault_at 1 faults); simpl; [done|].
  rewrite update_access_codes_reaches_no_row.
  replace (Deployed.ignoring (Api.attempt (fault_at 2 faults) _) after d1) with d1
    by now destruct (fault_at 2 faults).
  destruct (AccessCode.sport_id x) as [s|] eqn:Es; simpl; [|done].
  unfold Api.insert_user_sports.
  change (Schema.first_undeclared "user_sports" _) with (@None api_error).
  rewrite permits_user_sports_INSERT. simpl.
  rewrite bool_decide_eq_true_2 by done.
  destruct (fault_at 3 faults); simpl; [done|].
  unfold insert_user_sports. fold v. simpl.
  now destruct (existsb (same_user_sport v) (user_sports d)).
Qed.

(** * Redemption through the API *)




(** * [handle_new_user], statement by statement *)

Section bootstrap_run.
Variables (s : Bootstrap.schedule) (i : uuid) (new : AuthUser.row) (d : db).

Lemma retry_loop_step fuel n v :
  (_retry_count v <? _max_retries) && negb (_success v) = true ->
  Bootstrap.retry_loop (S fuel) s i new n v =
  match Bootstrap.retry_body s i new n v with
  | Bootstrap.goes_on v' => Bootstrap.retry_loop fuel s i new n v'
  | Bootstrap.leaves c log => Some (Bootstrap.leaves c log)
  end.
Proof. intros H. simpl. now rewrite H. Qed.

Lemma retry_loop_done fuel n v :
  (_retry_count v <? _max_retries) && negb (_success v) = false ->
  Bootstrap.retry_loop fuel s i new n v = Some (Bootstrap.goes_on v).
Proof. intros H. destruct fuel; simpl; now rewrite H. Qed.

(** The loop, followed attempt by attempt. *)
Lemma handle_new_user_three_attempts :
  AuthUser.id new = Some i ->
  Bootstrap.lookup s = Bootstrap.completes ->
  profile_exists i d = false ->
  Bootstrap.handle_new_user s new d = Some (Bootstrap.three_attempts s i new d).
Proof.
  intros Hid Hl Hp.
  unfold Bootstrap.handle_new_user, Bootstrap.handle_new_user_fuel.
  rewrite Hid, Hl, Hp. unfold Bootstrap.three_attempts. cbv zeta.
  change _max_retries with 3.
  rewrite retry_loop_step by reflexivity.
  unfold Bootstrap.retry_body at 1. unfold _max_retries.
  cbn [_retry_count _success store raised Nat.add Nat.eqb app].
  destruct (Bootstrap.INSERT_INTO_profiles_VALUES (Bootstrap.ending_at 0 _) _ d)
    as [d0|e0|]; [now rewrite retry_loop_done by reflexivity| |done].
  destruct (Bootstrap.PERFORM_pg_sleep (Bootstrap.ending_at 0 _)) as [c0|]; [done|].
  rewrite retry_loop_step by reflexivity.
  unfold Bootstrap.retry_body at 1. unfold _max_retries.
  cbn [_retry_count _success store raised Nat.add Nat.eqb app].
  destruct (Bootstrap.INSERT_INTO_profiles_VALUES (Bootstrap.ending_at 1 _) _ d)
    as [d1|e1|]; [now rewrite retry_loop_done by reflexivity| |done].
  destruct (Bootstrap.PERFORM_pg_sleep (Bootstrap.ending_at 1 _)) as [c1|]; [done|].
  rewrite retry_loop_step by reflexivity.
  unfold Bootstrap.retry_body at 1. unfold _max_retries.
  cbn [_retry_count _success store raised Nat.add Nat.eqb app].
  destruct (Bootstrap.INSERT_INTO_profiles_VALUES (Bootstrap.ending_at 2 _) _ d)
    as [d2|e2|]; [now rewrite retry_loop_done by reflexivity| |done].
  destruct (Bootstrap.INSERT_INTO_profiles_VALUES (Bootstrap.ending_at 3 _) _ d)
    as [d3|e3|]; [| |done];
    (destruct (Bootstrap.PERFORM_pg_sleep (Bootstrap.ending_at 2 _)) as [c2|];
     [reflexivity | rewrite retry_loop_done by reflexivity; reflexivity]).
Qed.

End bootstrap_run.

Lemma INSERT_inserted en r d d' :
  Bootstrap.INSERT_INTO_profiles_VALUES en r d = Bootstrap.inserted d' <->
  en = Bootstrap.completes /\ insert_profiles r d = Ok d'.
Proof.
  unfold Bootstrap.INSERT_INTO_profiles_VALUES.
  destruct en; [destruct (insert_profiles r d) eqn:E| |];
    split; try discriminate; try (intros [? ?]; discriminate);
    try (intros [_ [= <-]]; done).
  intros [= <-]. done.
Qed.

Lemma INSERT_escapes en r d :
  Bootstrap.INSERT_INTO_profiles_VALUES en r d = Bootstrap.escapes <->
  en = Bootstrap.cancelled.
Proof.
  unfold Bootstrap.INSERT_INTO_profiles_VALUES.
  destruct en; [destruct (insert_profiles r d)| |]; split; done.
Qed.

(** An attempt that completes on a store without the profile fails only
    on the address. *)
Lemma INSERT_completes i n new d :
  profile_exists i d = false ->
  Bootstrap.INSERT_INTO_profiles_VALUES Bootstrap.completes (profile_values i n new) d =
  if valid_email (AuthUser.email new)
  then Bootstrap.inserted (set_profiles (profiles d ++ [profile_values i n new]) d)
  else Bootstrap.caught check_violation.
Proof.
  intros Hp. unfold Bootstrap.INSERT_INTO_profiles_VALUES, insert_profiles. simpl.
  destruct (valid_email (AuthUser.email new)); simpl; [|done].
  now rewrite Hp.
Qed.

Lemma PERFORM_pg_sleep_None en :
  Bootstrap.PERFORM_pg_sleep en = None <-> en = Bootstrap.completes.
Proof. destruct en; split; done. Qed.

Lemma handle_new_user_found s new i d :
  AuthUser.id new = Some i -> Bootstrap.lookup s = Bootstrap.completes ->
  profile_exists i d = true ->
  Bootstrap.handle_new_user s new d = Some (Bootstrap.RETURN_new d []).
Proof.
  intros Hid Hl Hp. unfold Bootstrap.handle_new_user, Bootstrap.handle_new_user_fuel.
  now rewrite Hid, Hl, Hp.
Qed.

Lemma handle_new_user_lookup s new i d :
  AuthUser.id new = Some i -> Bootstrap.lookup s <> Bootstrap.completes ->
  exists c, Bootstrap.handle_new_user s new d = Some (Bootstrap.unhandled c []).
Proof.
  intros Hid Hl. unfold Bootstrap.handle_new_user, Bootstrap.handle_new_user_fuel.
  rewrite Hid. destruct (Bootstrap.lookup s); [done | eauto | eauto].
Qed.

Lemma lookup_completes_or_not s :
  Bootstrap.lookup s = Bootstrap.completes \/ Bootstrap.lookup s <> Bootstrap.completes.
Proof. destruct (Bootstrap.lookup s); [now left | now right | now right]. Qed.

(** Every run ends. *)
Lemma handle_new_user_ends s new d :
  exists o, Bootstrap.handle_new_user s new d = Some o.
Proof.
  destruct (AuthUser.id new) as [i|] eqn:Hid.
  - destruct (lookup_completes_or_not s) as [Hl|Hl].
    + destruct (profile_exists i d) eqn:Hp.
      * eexists. now apply (handle_new_user_found s new i).
      * eexists. now apply (handle_new_user_three_attempts s i).
    + destruct (handle_new_user_lookup s new i d Hid Hl) as [c H]. eauto.
  - eexists. unfold Bootstrap.handle_new_user, Bootstrap.handle_new_user_fuel.
    now rewrite Hid.
Qed.

(** What a run leaves in the store: nothing, or one row appended to
    [profiles], with the name that was extracted or with the placeholder. *)
Lemma three_attempts_store s i new d :
  profile_exists i d = false ->
  let d' := Bootstrap.store_after (Some (Bootstrap.three_attempts s i new d)) d in
  d' = d \/
  (valid_email (AuthUser.email new) = true /\
   (d' = set_profiles (profiles d ++ [profile_values i (extract_full_name new) new]) d \/
    (d' = set_profiles (profiles d ++ [profile_values i "New User" new]) d /\
     forall k, k < 3 ->
       exists e, Bootstrap.ending_at k (Bootstrap.inserts s) = Bootstrap.fails e))).
Proof.
  intros Hp. unfold Bootstrap.three_attempts. cbv zeta.
  assert (Hin : forall en n d',
            Bootstrap.INSERT_INTO_profiles_VALUES en (profile_values i n new) d =
            Bootstrap.inserted d' ->
            valid_email (AuthUser.email new) = true /\
            d' = set_profiles (profiles d ++ [profile_values i n new]) d).
  { intros en n d' H. apply INSERT_inserted in H as [-> H].
    apply insert_profiles_Ok in H as (-> & Hv & _). done. }
  assert (Hno : forall en e,
            valid_email (AuthUser.email new) = true ->
            Bootstrap.INSERT_INTO_profiles_VALUES en
              (profile_values i (extract_full_name new) new) d = Bootstrap.caught e ->
            exists e', en = Bootstrap.fails e').
  { intros en e Hv H. destruct en as [|e'|]; [|eauto|discriminate].
    rewrite INSERT_completes, Hv in H by done. discriminate. }
  destruct (Bootstrap.INSERT_INTO_profiles_VALUES (Bootstrap.ending_at 0 _) _ d)
    as [d0|e0|] eqn:E0; simpl; [right | | now left].
  { apply Hin in E0 as [Hv ->]. split; [done | now left]. }
  destruct (Bootstrap.PERFORM_pg_sleep (Bootstrap.ending_at 0 _)); simpl; [now left|].
  destruct (Bootstrap.INSERT_INTO_profiles_VALUES (Bootstrap.ending_at 1 _) _ d)
    as [d1|e1|] eqn:E1; simpl; [right | | now left].
  { apply Hin in E1 as [Hv ->]. split; [done | now left]. }
  destruct (Bootstrap.PERFORM_pg_sleep (Bootstrap.ending_at 1 _)); simpl; [now left|].
  destruct (Bootstrap.INSERT_INTO_profiles_VALUES (Bootstrap.ending_at 2 _) _ d)
    as [d2|e2|] eqn:E2; simpl; [right | | now left].
  { apply Hin in E2 as [Hv ->]. split; [done | now left]. }
  destruct (Bootstrap.INSERT_INTO_profiles_VALUES (Bootstrap.ending_at _max_retries _) _ d)
    as [d3|e3|] eqn:E3; simpl; [ | |now left].
  - destruct (Bootstrap.PERFORM_pg_sleep (Bootstrap.ending_at 2 _)); simpl; [now left|].
    right. apply Hin in E3 as [Hv ->]. split; [done|]. right. split; [done|].
    intros k Hk.
    destruct k as [|[|[|k]]]; [ | | | lia].
    + destruct (Hno _ _ Hv E0) as [e H]. eauto.
    + destruct (Hno _ _ Hv E1) as [e H]. eauto.
    + destruct (Hno _ _ Hv E2) as [e H]. eauto.
  - destruct (Bootstrap.PERFORM_pg_sleep (Bootstrap.ending_at 2 _)); simpl; now left.
Qed.

(** The same for any run, whatever the store held. *)
Lemma handle_new_user_store s new d :
  let d' := Bootstrap.store_after (Bootstrap.handle_new_user s new d) d in
  d' = d \/
  exists i n,
    AuthUser.id new = Some i /\ profile_exists i d = false /\
    valid_email (AuthUser.email new) = true /\
    d' = set_profiles (profiles d ++ [profile_values i n new]) d.
Proof.
  destruct (AuthUser.id new) as [i|] eqn:Hid.
  2: { left. unfold Bootstrap.handle_new_user, Bootstrap.handle_new_user_fuel.
       now rewrite Hid. }
  destruct (lookup_completes_or_not s) as [Hl|Hl].
  2: { left. destruct (handle_new_user_lookup s new i d Hid Hl) as [c ->]. done. }
  destruct (profile_exists i d) eqn:Hp.
  { left. now rewrite (handle_new_user_found s new i d). }
  rewrite (handle_new_user_three_attempts s i new d Hid Hl Hp).
  destruct (three_attempts_store s i new d Hp) as [H|(Hv & [H|[H _]])];
    [now left | right; eauto 10 | right; eauto 10].
Qed.

Lemma handle_new_user_frame s new d :
  let d' := Bootstrap.store_after (Bootstrap.handle_new_user s new d) d in
  access_codes d' = access_codes d /\ user_sports d' = user_sports d /\
  coach_athletes d' = coach_athletes d /\ sports d' = sports d /\
  organizations d' = organizations d /\ creators d' = creators d.
Proof.
  intros d'. destruct (handle_new_user_store s new d) as [H|(i & n & _ & _ & _ & H)];
    fold d' in H; rewrite H; done.
Qed.

(** A run lets a condition through only when an INSERT was cancelled or a
    sleep did not complete. *)
Lemma three_attempts_unhandled s i new d c log :
  Bootstrap.three_attempts s i new d = Bootstrap.unhandled c log ->
  (exists k, k <= 3 /\
     Bootstrap.ending_at k (Bootstrap.inserts s) = Bootstrap.cancelled) \/
  (exists k, k < 3 /\
     Bootstrap.ending_at k (Bootstrap.sleeps s) <> Bootstrap.completes).
Proof.
  unfold Bootstrap.three_attempts. cbv zeta. change _max_retries with 3.
  assert (Hsleep : forall k c,
            Bootstrap.PERFORM_pg_sleep (Bootstrap.ending_at k (Bootstrap.sleeps s)) = Some c ->
            Bootstrap.ending_at k (Bootstrap.sleeps s) <> Bootstrap.completes).
  { intros k c0 H E. apply PERFORM_pg_sleep_None in E. congruence. }
  destruct (Bootstrap.INSERT_INTO_profiles_VALUES (Bootstrap.ending_at 0 _) _ d) eqn:E0;
    [discriminate | |].
  2: { intros _. left. exists 0. split; [lia | now apply INSERT_escapes in E0]. }
  destruct (Bootstrap.PERFORM_pg_sleep (Bootstrap.ending_at 0 _)) eqn:Z0.
  { intros _. right. exists 0. split; [lia | now apply (Hsleep 0 c0)]. }
  destruct (Bootstrap.INSERT_INTO_profiles_VALUES (Bootstrap.ending_at 1 _) _ d) eqn:E1;
    [discriminate | |].
  2: { intros _. left. exists 1. split; [lia | now apply INSERT_escapes in E1]. }
  destruct (Bootstrap.PERFORM_pg_sleep (Bootstrap.ending_at 1 _)) eqn:Z1.
  { intros _. right. exists 1. split; [lia | now apply (Hsleep 1 c0)]. }
  destruct (Bootstrap.INSERT_INTO_profiles_VALUES (Bootstrap.ending_at 2 _) _ d) eqn:E2;
    [discriminate | |].
  2: { intros _. left. exists 2. split; [lia | now apply INSERT_escapes in E2]. }
  destruct (Bootstrap.INSERT_INTO_profiles_VALUES (Bootstrap.ending_at 3 _) _ d) eqn:E3.
  - destruct (Bootstrap.PERFORM_pg_sleep (Bootstrap.ending_at 2 _)) eqn:Z2; [|discriminate].
    intros _. right. exists 2. split; [lia | now apply (Hsleep 2 c0)].
  - destruct (Bootstrap.PERFORM_pg_sleep (Bootstrap.ending_at 2 _)) eqn:Z2; [|discriminate].
    intros _. right. exists 2. split; [lia | now apply (Hsleep 2 c0)].
  - intros _. left. exists 3. split; [lia | now apply INSERT_escapes in E3].
Qed.

(** * Bootstrap of the profile, for every schedule *)

(** C7, as stated, fails.  For an account whose address the CHECK
    [valid_email] rejects, every statement completing, the three attempts
    fail and so does the last one with the placeholder name: the function
    returns and the identity is left without any profile.  And a failure
    can surface: when the first INSERT is cancelled the function lets the
    condition through and the creation of the account fails with it. *)
Lemma C7_fallback_can_fail :
  Bootstrap.handle_new_user Bootstrap.quiet Scenario.no_domain Sample.empty =
    Some (Bootstrap.RETURN_new Sample.empty
            [INSERT_INTO_profiles "Bob" (Some check_violation); pg_sleep 10;
             INSERT_INTO_profiles "Bob" (Some check_violation); pg_sleep 10;
             INSERT_INTO_profiles "Bob" (Some check_violation);
             WARNING_failed_after 3 check_violation;
             final_INSERT_INTO_profiles "New User" (Some check_violation);
             WARNING_final_attempt_failed check_violation; pg_sleep 10]) /\
  profile_count "u9" Sample.empty = 0 /\
  Bootstrap.handle_new_user
    (Bootstrap.mk_schedule Bootstrap.completes [Bootstrap.cancelled] [])
    Sample.jane Sample.empty =
    Some (Bootstrap.unhandled Bootstrap.query_canceled []).
Proof. vm_compute. repeat split; reflexivity. Qed.

(** C7, amended.  For an identity without a profile whose lookup
    completes, the INSERT is attempted up to three times, each failed
    attempt being followed by a sleep of 10 ms; the first attempt that
    succeeds ends the loop with the profile stored.  After the third
    failure a warning is raised and one more INSERT is sent with the
    placeholder name 'New User' and the same id and address: when it
    succeeds the placeholder profile is stored, and when it fails a
    second warning is raised and the identity is left without a profile.
    Errors of the INSERTs are only raised as warnings and the function
    returns; a cancellation of an INSERT, whatever ends a sleep other
    than its completion, and a lookup that does not complete are let
    through and fail the creation of the account. *)
Theorem C7_bootstrap_retry_then_fallback s new i d :
  AuthUser.id new = Some i -> profile_exists i d = false ->
  let name := extract_full_name new in
  let run := Bootstrap.handle_new_user s new d in
  let A k := Bootstrap.INSERT_INTO_profiles_VALUES
               (Bootstrap.ending_at k (Bootstrap.inserts s))
               (profile_values i name new) d in
  let F := Bootstrap.INSERT_INTO_profiles_VALUES
             (Bootstrap.ending_at 3 (Bootstrap.inserts s))
             (profile_values i "New User" new) d in
  let Z k := Bootstrap.PERFORM_pg_sleep (Bootstrap.ending_at k (Bootstrap.sleeps s)) in
  let no e := INSERT_INTO_profiles name (Some e) in
  let yes := INSERT_INTO_profiles name None in
  let zz := pg_sleep 10 in
  (Bootstrap.lookup s <> Bootstrap.completes ->
   exists c, run = Some (Bootstrap.unhandled c [])) /\
  (Bootstrap.lookup s = Bootstrap.completes ->
   (* an attempt that succeeds *)
   (forall d', A 0 = Bootstrap.inserted d' ->
      run = Some (Bootstrap.RETURN_new d' [yes])) /\
   (forall e0 d', A 0 = Bootstrap.caught e0 -> Z 0 = None ->
      A 1 = Bootstrap.inserted d' ->
      run = Some (Bootstrap.RETURN_new d' [no e0; zz; yes])) /\
   (forall e0 e1 d', A 0 = Bootstrap.caught e0 -> Z 0 = None ->
      A 1 = Bootstrap.caught e1 -> Z 1 = None ->
      A 2 = Bootstrap.inserted d' ->
      run = Some (Bootstrap.RETURN_new d' [no e0; zz; no e1; zz; yes])) /\
   (forall k d', A k = Bootstrap.inserted d' ->
      d' = set_profiles (profiles d ++ [profile_values i name new]) d) /\
   (* three failures *)
   (forall e0 e1 e2, A 0 = Bootstrap.caught e0 -> Z 0 = None ->
      A 1 = Bootstrap.caught e1 -> Z 1 = None ->
      A 2 = Bootstrap.caught e2 -> Z 2 = None ->
      (forall d', F = Bootstrap.inserted d' ->
         run = Some (Bootstrap.RETURN_new d'
                       [no e0; zz; no e1; zz; no e2;
                        WARNING_failed_after 3 e2;
                        final_INSERT_INTO_profiles "New User" None; zz]) /\
         d' = set_profiles (profiles d ++ [profile_values i "New User" new]) d) /\
      (forall e', F = Bootstrap.caught e' ->
         run = Some (Bootstrap.RETURN_new d
                       [no e0; zz; no e1; zz; no e2;
                        WARNING_failed_after 3 e2;
                        final_INSERT_INTO_profiles "New User" (Some e');
                        WARNING_final_attempt_failed e'; zz]))) /\
   (* what is trapped does not surface *)
   ((forall k, Bootstrap.ending_at k (Bootstrap.inserts s) <> Bootstrap.cancelled) ->
    (forall k, Bootstrap.ending_at k (Bootstrap.sleeps s) = Bootstrap.completes) ->
    exists d' log, run = Some (Bootstrap.RETURN_new d' log)) /\
   (* what is not trapped does *)
   (A 0 = Bootstrap.escapes ->
      run = Some (Bootstrap.unhandled Bootstrap.query_canceled [])) /\
   (forall e0 c, A 0 = Bootstrap.caught e0 -> Z 0 = Some c ->
      run = Some (Bootstrap.unhandled c [no e0])) /\
   (forall c log, run = Some (Bootstrap.unhandled c log) ->
      (exists k, k <= 3 /\
         Bootstrap.ending_at k (Bootstrap.inserts s) = Bootstrap.cancelled) \/
      (exists k, k < 3 /\
         Bootstrap.ending_at k (Bootstrap.sleeps s) <> Bootstrap.completes))).
Proof.
  intros Hid Hp name run A F Z no yes zz.
  split; [intros Hl; now apply (handle_new_user_lookup s new i)|].
  intros Hl. subst run.
  rewrite (handle_new_user_three_attempts s i new d Hid Hl Hp).
  unfold Bootstrap.three_attempts. cbv zeta. change _max_retries with 3.
  fold name. fold (A 0) (A 1) (A 2) F (Z 0) (Z 1) (Z 2).
  split; [intros d' ->; reflexivity|].
  split; [intros e0 d' -> -> ->; reflexivity|].
  split; [intros e0 e1 d' -> -> -> -> ->; reflexivity|].
  split.
  { intros k d' H. apply INSERT_inserted in H as [_ H].
    now apply insert_profiles_Ok in H as (-> & _ & _). }
  split.
  { intros e0 e1 e2 -> -> -> -> -> ->. split.
    - intros d' H. rewrite H. split; [reflexivity|].
      apply INSERT_inserted in H as [_ H].
      now apply insert_profiles_Ok in H as (-> & _ & _).
    - intros e' ->. reflexivity. }
  split.
  { intros Hins Hsl.
    assert (HA : forall k, A k <> Bootstrap.escapes).
    { intros k H. apply INSERT_escapes in H. now apply (Hins k). }
    assert (HF : F <> Bootstrap.escapes).
    { intros H. apply INSERT_escapes in H. now apply (Hins 3). }
    assert (HZ : forall k, Z k = None).
    { intros k. apply PERFORM_pg_sleep_None, Hsl. }
    rewrite !HZ.
    pose proof (HA 0). pose proof (HA 1). pose proof (HA 2).
    destruct (A 0); [eauto | | done].
    destruct (A 1); [eauto | | done].
    destruct (A 2); [eauto | | done].
    destruct F; [eauto | eauto | done]. }
  split; [intros ->; reflexivity|].
  split; [intros e0 c -> ->; reflexivity|].
  intros c log Hrun. injection Hrun as Hrun.
  apply (three_attempts_unhandled s i new d c log).
  unfold Bootstrap.three_attempts. cbv zeta. exact Hrun.
Qed.

(** At the scenario: the store fails the three attempts and takes the
    last insert. *)
Lemma C7_witness :
  Bootstrap.handle_new_user
    (Bootstrap.of_faults [true; true; true]) Sample.jane Sample.empty =
  Some (Bootstrap.RETURN_new
          (set_profiles
             [Profile.mk "u1" (Some athlete) None (Some "New User")
                         (Some "jane@example.com")] Sample.empty)
          [INSERT_INTO_profiles "Jane Doe" (Some store_fault); pg_sleep 10;
           INSERT_INTO_profiles "Jane Doe" (Some store_fault); pg_sleep 10;
           INSERT_INTO_profiles "Jane Doe" (Some store_fault);
           WARNING_failed_after 3 store_fault;
           final_INSERT_INTO_profiles "New User" None; pg_sleep 10]).
Proof.
  destruct (C7_bootstrap_retry_then_fallback
              (Bootstrap.of_faults [true; true; true]) Sample.jane "u1" Sample.empty
              eq_refl eq_refl) as [_ H].
  destruct (H eq_refl) as (_ & _ & _ & _ & H3 & _).
  destruct (H3 store_fault store_fault store_fault
              eq_refl eq_refl eq_refl eq_refl eq_refl eq_refl) as [Hin _].
  destruct (Hin (set_profiles
             [Profile.mk "u1" (Some athlete) None (Some "New User")
                         (Some "jane@example.com")] Sample.empty) eq_refl) as [Hrun _].
  exact Hrun.
Defined.

Lemma profile_count_snoc i r d :
  profile_count i (set_profiles (profiles d ++ [r]) d) =
  profile_count i d + (if bool_decide (Profile.id r = i) then 1 else 0).
Proof.
  unfold profile_count. simpl. rewrite List.filter_app, length_app. simpl.
  now destruct (bool_decide (Profile.id r = i)).
Qed.

(** C8, as stated, fails.  The bootstrap runs twice for the same new
    account, every statement completing; the address fails the CHECK
    [valid_email], so no INSERT of either run goes through and no profile
    row exists afterwards. *)
Lemma C8_two_runs_can_leave_no_row :
  let d1 := Bootstrap.store_after
              (Bootstrap.handle_new_user Bootstrap.quiet Scenario.no_domain Sample.empty)
              Sample.empty in
  let d2 := Bootstrap.store_after
              (Bootstrap.handle_new_user Bootstrap.quiet Scenario.no_domain d1) d1 in
  Bootstrap.account_created
    (Bootstrap.handle_new_user Bootstrap.quiet Scenario.no_domain Sample.empty) = true /\
  profile_count "u9" d2 = 0.
Proof. vm_compute. split; reflexivity. Qed.

(** C8, amended.  When a profile already exists for the identity a run
    whose lookup completes is a no-op.  So two runs for the same new
    identity leave at most one profile row, and the second adds none to
    a row of the first: exactly one row when an INSERT of either run went
    through, which is the case when the lookup and the first INSERT of
    the first run complete and the address passes the CHECK, and none when
    every INSERT failed, as it does for an address that fails the
    CHECK. *)
Theorem C8_bootstrap_idempotent s1 s2 new i d :
  AuthUser.id new = Some i -> profile_exists i d = false ->
  let d1 := Bootstrap.store_after (Bootstrap.handle_new_user s1 new d) d in
  let d2 := Bootstrap.store_after (Bootstrap.handle_new_user s2 new d1) d1 in
  (forall s d0, Bootstrap.lookup s = Bootstrap.completes ->
     profile_exists i d0 = true ->
     Bootstrap.handle_new_user s new d0 = Some (Bootstrap.RETURN_new d0 [])) /\
  profile_count i d2 <= 1 /\
  (profile_count i d1 = 1 -> d2 = d1) /\
  (profile_count i d2 = 1 <->
   exists n, d2 = set_profiles (profiles d ++ [profile_values i n new]) d) /\
  (profile_count i d2 = 0 <-> d2 = d) /\
  (Bootstrap.lookup s1 = Bootstrap.completes ->
   Bootstrap.ending_at 0 (Bootstrap.inserts s1) = Bootstrap.completes ->
   valid_email (AuthUser.email new) = true ->
   profile_count i d2 = 1) /\
  (valid_email (AuthUser.email new) = false -> d2 = d).
Proof.
  intros Hid Hp d1 d2.
  pose proof (proj1 (profile_exists_count i d) Hp) as H0.
  assert (Hstep : forall s d0,
            let d' := Bootstrap.store_after (Bootstrap.handle_new_user s new d0) d0 in
            d' = d0 \/
            (profile_exists i d0 = false /\ valid_email (AuthUser.email new) = true /\
             exists n, d' = set_profiles (profiles d0 ++ [profile_values i n new]) d0)).
  { intros s d0 d'.
    destruct (handle_new_user_store s new d0) as [H|(i' & n & Hi & Hex & Hv & H)];
      [now left|].
    right. rewrite Hid in Hi. injection Hi as <-. eauto. }
  assert (Hone : forall n d0, profile_count i d0 = 0 ->
            profile_count i (set_profiles (profiles d0 ++ [profile_values i n new]) d0) = 1).
  { intros n d0 Hc. rewrite profile_count_snoc, Hc. simpl.
    now rewrite bool_decide_eq_true_2. }
  assert (Hd2 : d2 = d \/
                (valid_email (AuthUser.email new) = true /\
                 exists n, d2 = set_profiles (profiles d ++ [profile_values i n new]) d)).
  { destruct (Hstep s1 d) as [H1|(_ & Hv & n & H1)]; fold d1 in H1.
    - destruct (Hstep s2 d1) as [H2|(_ & Hv & n & H2)]; fold d2 in H2.
      + left. congruence.
      + right. split; [done|]. exists n. rewrite H2, H1. done.
    - destruct (Hstep s2 d1) as [H2|(Hex & _)].
      + fold d2 in H2. right. split; [done|]. exists n. congruence.
      + exfalso. apply profile_exists_count in Hex.
        rewrite H1, (Hone n d H0) in Hex. discriminate. }
  split; [intros s d0 Hl Hex; now apply (handle_new_user_found s new i)|].
  split.
  { destruct Hd2 as [->|(_ & n & ->)]; [lia | rewrite (Hone n d H0); lia]. }
  split.
  { intros Hc1. destruct (Hstep s2 d1) as [H2|(Hex & _)]; [exact H2|].
    apply profile_exists_count in Hex. lia. }
  split.
  { split.
    - intros Hc. destruct Hd2 as [H|(_ & n & H)]; [|eauto].
      rewrite H in Hc. lia.
    - intros (n & ->). now apply Hone. }
  split.
  { split.
    - intros Hc. destruct Hd2 as [H|(_ & n & H)]; [done|].
      rewrite H, (Hone n d H0) in Hc. discriminate.
    - intros ->. exact H0. }
  split.
  { intros Hl He Hv.
    assert (H1 : d1 = set_profiles
                        (profiles d ++ [profile_values i (extract_full_name new) new]) d).
    { unfold d1. rewrite (handle_new_user_three_attempts s1 i new d Hid Hl Hp).
      unfold Bootstrap.three_attempts. cbv zeta.
      rewrite He, INSERT_completes, Hv by done. reflexivity. }
    assert (Hc1 : profile_count i d1 = 1) by (rewrite H1; now apply Hone).
    destruct (Hstep s2 d1) as [H2|(Hex & _)].
    - fold d2 in H2. now rewrite H2.
    - apply profile_exists_count in Hex. lia. }
  intros Hv. destruct Hd2 as [H|(Hv' & _)]; [exact H | congruence].
Qed.

(** At the scenario: the trigger runs twice for the same new account,
    the second time with a store that fails every statement. *)
Lemma C8_witness :
  let d1 := Bootstrap.store_after
              (Bootstrap.handle_new_user Bootstrap.quiet Sample.jane Sample.empty)
              Sample.empty in
  let d2 := Bootstrap.store_after
              (Bootstrap.handle_new_user
                 (Bootstrap.mk_schedule (Bootstrap.fails store_fault) [] [])
                 Sample.jane d1) d1 in
  profile_count "u1" d2 = 1.
Proof.
  intros d1 d2.
  destruct (C8_bootstrap_idempotent Bootstrap.quiet
              (Bootstrap.mk_schedule (Bootstrap.fails store_fault) [] [])
              Sample.jane "u1" Sample.empty eq_refl eq_refl)
    as (_ & _ & _ & _ & _ & H & _).
  apply H; reflexivity.
Defined.

(** C9, amended.  For an identity without a profile the bootstrap adds
    at most one row, and any row it adds has the id and the address of
    the account, role 'athlete' and no organization.  Its display name is
    the metadata's [full_name] with its spaces trimmed when that is
    present and not blank, otherwise the whole address of the account,
    and 'New User' when the account has no address either; that is the
    row stored when the lookup and the first INSERT complete and the
    address passes the CHECK.  The name is the placeholder 'New User'
    instead only when the three attempts of the loop each ended in an
    error of the store, and no row is added when the address fails the
    CHECK. *)
Theorem C9_bootstrap_profile s new i d :
  AuthUser.id new = Some i -> profile_exists i d = false ->
  let d' := Bootstrap.store_after (Bootstrap.handle_new_user s new d) d in
  let o := meta ← AuthUser.raw_user_meta_data new; jsonb_get_text meta "full_name" in
  let row n := Profile.mk i (Some athlete) None (Some n) (AuthUser.email new) in
  exists name,
    (forall n, o = Some n -> sql_trim n <> "" -> name = sql_trim n) /\
    (o = None \/ (exists n, o = Some n /\ sql_trim n = "") ->
     (forall e, AuthUser.email new = Some e -> name = e) /\
     (AuthUser.email new = None -> name = "New User")) /\
    (d' = d \/
     d' = set_profiles (profiles d ++ [row name]) d \/
     d' = set_profiles (profiles d ++ [row "New User"]) d) /\
    (Bootstrap.lookup s = Bootstrap.completes ->
     Bootstrap.ending_at 0 (Bootstrap.inserts s) = Bootstrap.completes ->
     valid_email (AuthUser.email new) = true ->
     d' = set_profiles (profiles d ++ [row name]) d) /\
    (d' = set_profiles (profiles d ++ [row "New User"]) d ->
     name = "New User" \/
     forall k, k < 3 ->
       exists e, Bootstrap.ending_at k (Bootstrap.inserts s) = Bootstrap.fails e) /\
    (valid_email (AuthUser.email new) = false -> d' = d).
Proof.
  intros Hid Hp d' o row. exists (extract_full_name new).
  destruct (extract_full_name_cases new) as [Hname Hfallback].
  split; [exact Hname|].
  split.
  { intros Hno. rewrite (Hfallback Hno).
    split; [intros e ->; reflexivity | intros ->; reflexivity]. }
  assert (Hcases :
    d' = d \/
    (valid_email (AuthUser.email new) = true /\
     (d' = set_profiles (profiles d ++ [row (extract_full_name new)]) d \/
      (d' = set_profiles (profiles d ++ [row "New User"]) d /\
       forall k, k < 3 ->
         exists e, Bootstrap.ending_at k (Bootstrap.inserts s) = Bootstrap.fails e)))).
  { unfold d'. destruct (lookup_completes_or_not s) as [Hl|Hl].
    - rewrite (handle_new_user_three_attempts s i new d Hid Hl Hp).
      exact (three_attempts_store s i new d Hp).
    - left. destruct (handle_new_user_lookup s new i d Hid Hl) as [c ->]. done. }
  split.
  { destruct Hcases as [H|(_ & [H|[H _]])]; auto. }
  split.
  { intros Hl He Hv. unfold d'.
    rewrite (handle_new_user_three_attempts s i new d Hid Hl Hp).
    unfold Bootstrap.three_attempts. cbv zeta.
    rewrite He, INSERT_completes, Hv by done. reflexivity. }
  split.
  { intros Hd. destruct Hcases as [H|(_ & [H|[_ H]])]; [| |now right].
    - exfalso. rewrite H in Hd.
      apply (f_equal (fun x => length (profiles x))) in Hd. simpl in Hd.
      rewrite length_app in Hd. simpl in Hd. lia.
    - left. rewrite H in Hd.
      apply (f_equal profiles) in Hd. simpl in Hd.
      apply app_inv_head in Hd. now injection Hd. }
  intros Hv. destruct Hcases as [H|(Hv' & _)]; [exact H | congruence].
Qed.

(** At the scenario: an account whose metadata carries a padded full
    name. *)
Lemma C9_witness :
  Bootstrap.store_after
    (Bootstrap.handle_new_user Bootstrap.quiet Sample.jane Sample.empty) Sample.empty =
  set_profiles
    [Profile.mk "u1" (Some athlete) None (Some "Jane Doe") (Some "jane@example.com")]
    Sample.empty.
Proof.
  destruct (C9_bootstrap_profile Bootstrap.quiet Sample.jane "u1" Sample.empty
              eq_refl eq_refl) as (name & Hname & _ & _ & Hrow & _).
  rewrite (Hrow eq_refl eq_refl eq_refl).
  now rewrite (Hname "  Jane Doe " eq_refl).
Defined.

(** * The flows never write a code *)

Lemma ignoring_update_profiles cols c i ro o fault d :
  let d' := Deployed.ignoring
              (Api.attempt fault (Api.update_profiles cols c i ro o d)) id d in
  access_codes d' = access_codes d /\ coach_athletes d' = coach_athletes d /\
  user_sports d' = user_sports d.
Proof.
  intros d'. subst d'.
  destruct (Api.attempt fault _) as [d1|e] eqn:E; simpl; [|done].
  apply attempt_api_Ok in E as [_ E].
  apply api_update_profiles_Ok in E as (H1 & H2 & H3 & _). done.
Qed.

Lemma ignoring_insert_user_sports cols c v fault d :
  let d' := Deployed.ignoring
              (Api.attempt fault (Api.insert_user_sports cols c v d)) id d in
  access_codes d' = access_codes d /\ coach_athletes d' = coach_athletes d /\
  profiles d' = profiles d /\
  (user_sports d' = user_sports d \/ user_sports d' = user_sports d ++ [v]).
Proof.
  intros d'. subst d'.
  destruct (Api.attempt fault _) as [d1|e] eqn:E; simpl; [|auto].
  apply attempt_api_Ok in E as [_ E].
  apply api_insert_user_sports_Ok in E as (-> & _). simpl. auto.
Qed.

Lemma handleSubmit_frame u now faults d code :
  let r := Deployed.CoachAccessCode.handleSubmit u now faults d code in
  access_codes (Deployed.CoachAccessCode.final r) = access_codes d /\
  coach_athletes (Deployed.CoachAccessCode.final r) = coach_athletes d.
Proof.
  unfold Deployed.CoachAccessCode.handleSubmit.
  destruct (Deployed.CoachAccessCode.codeData _ _ _ _) as [x|]; [|done].
  destruct (negb _); [done|].
  destruct (Api.attempt (fault_at 1 faults) _) as [d1|e] eqn:E1; [|done]. simpl.
  apply attempt_api_Ok in E1 as [_ E1].
  apply api_update_profiles_Ok in E1 as (H1 & _ & H3 & _).
  rewrite update_access_codes_ignored.
  destruct (is_not_null _); [|done].
  destruct (ignoring_insert_user_sports ["user_id"; "sport_id"; "organization_id"]
              (caller_of u)
              (UserSport.mk u (AccessCode.sport_id x) (AccessCode.organization_id x) None)
              (fault_at 3 faults) d1) as (H4 & H5 & _).
  split; congruence.
Qed.

Lemma handleSignUp_accessCode_frame c newUser now faults d t :
  let r := Deployed.SignUpPage.handleSignUp_accessCode c newUser now faults d t in
  access_codes (Deployed.SignUpPage.final r) = access_codes d /\
  coach_athletes (Deployed.SignUpPage.final r) = coach_athletes d.
Proof.
  unfold Deployed.SignUpPage.handleSignUp_accessCode.
  destruct (bool_decide (trim t = "")); [done|].
  destruct (if Api.failed _ then None else _) as [x|]; [|done]. cbv zeta.
  rewrite update_access_codes_ignored.
  set (d2 := Deployed.ignoring (Api.attempt (fault_at 2 faults) _) id d).
  destruct (ignoring_update_profiles ["role"; "organization_id"; "updated_at"] c
              (Some newUser) (Some (Some (AccessCode.role x)))
              (Some (AccessCode.organization_id x)) (fault_at 2 faults) d)
    as (H1 & H2 & _).
  fold d2 in H1, H2.
  destruct (is_not_null _); simpl; [|done].
  destruct (ignoring_insert_user_sports
              ["user_id"; "sport_id"; "organization_id"; "created_at"] c
              (UserSport.mk (Some newUser) (AccessCode.sport_id x)
                 (AccessCode.organization_id x) None)
              (fault_at 3 faults) d2) as (H4 & H5 & _).
  split; congruence.
Qed.

Lemma deployed_with_session_database i w k :
  (forall s d, (k s d).2 = d) ->
  Deployed.database (Deployed.with_session i w k) = Deployed.database w.
Proof.
  intros Hk. unfold Deployed.with_session.
  destruct (Deployed.athletes w !! i) as [s|]; [|done].
  specialize (Hk s (Deployed.database w)).
  destruct (k s (Deployed.database w)) as [s' d']. simpl in *. congruence.
Qed.

Lemma step_frame w e :
  access_codes (Deployed.database (Deployed.step w e)) =
    access_codes (Deployed.database w) /\
  coach_athletes (Deployed.database (Deployed.step w e)) =
    coach_athletes (Deployed.database w).
Proof.
  destruct e as [i t|i faults|i now faults|u c now faults|c nu t now faults
                 |new s|c t p|c r]; simpl.
  - now rewrite deployed_with_session_database.
  - now rewrite deployed_with_session_database.
  - rewrite deployed_with_session_database; [done|].
    intros s d. simpl. apply handleJoin_store.
  - apply handleSubmit_frame.
  - apply handleSignUp_accessCode_frame.
  - destruct (handle_new_user_frame s new (Deployed.database w)) as (H1 & _ & H3 & _).
    done.
  - now rewrite update_access_codes_reaches_no_row.
  - now rewrite insert_access_codes_refused.
Qed.

Lemma run_frame w es :
  access_codes (Deployed.database (Deployed.run w es)) =
    access_codes (Deployed.database w) /\
  coach_athletes (Deployed.database (Deployed.run w es)) =
    coach_athletes (Deployed.database w).
Proof.
  unfold Deployed.run. revert w.
  induction es as [|e es IH]; intros w; simpl; [done|].
  destruct (IH (Deployed.step w e)) as [H1 H2].
  destruct (step_frame w e) as [H3 H4]. split; congruence.
Qed.

Lemma run_app w es1 es2 :
  Deployed.run w (es1 ++ es2) = Deployed.run (Deployed.run w es1) es2.
Proof. unfold Deployed.run. apply fold_left_app. Qed.

(** C2.  Whatever the sessions do, in whatever order and however often
    (keystrokes, verifications and joins on the athlete page, submissions
    of the coach page, sign-ups with a code, creations of accounts, and
    any update or insert of a code sent through the API), the table of
    codes stays as it is: a consumption time that is set is never cleared
    or overwritten, the consumer recorded with it never changes, and no
    attempt takes a code from unused to used a second time, since none
    does so a first time. *)
Theorem C2_consumption_is_set_at_most_once w es1 es2 :
  let codes es := access_codes (Deployed.database (Deployed.run w es)) in
  codes (es1 ++ es2) = codes es1 /\
  (forall k r, codes es1 !! k = Some r -> consumed r ->
     codes (es1 ++ es2) !! k = Some r) /\
  (forall k r r', codes es1 !! k = Some r -> codes (es1 ++ es2) !! k = Some r' ->
     AccessCode.used_at r' = AccessCode.used_at r /\
     AccessCode.used_by r' = AccessCode.used_by r).
Proof.
  intros codes.
  assert (H : codes (es1 ++ es2) = codes es1).
  { unfold codes. rewrite run_app. apply run_frame. }
  rewrite H. split; [done|]. split; [done|].
  intros k r r' H1 H2. rewrite H1 in H2. now injection H2 as <-.
Qed.

(** * The scenario of the specification *)

(** C4, at the scenario.  The athlete A, a member of O1, types the code
    AB-123-CD, verifies it and presses Join.  The verification ends with
    'Invalid access code', because its select embeds a resource and names
    a column that the tables do not have; no details are stored, so the
    join does nothing: the code is as unused as before and neither a
    CoachAthlete nor a UserSport row exists. *)
Lemma C4_scenario_is_not_redeemed :
  let w := Deployed.run (Scenario.initially Scenario.club)
             [Deployed.setCode 0 "AB-123-CD"; Deployed.validateCode 0 [];
              Deployed.handleJoin 0 100 []] in
  Scenario.page_of 0 w =
    Some (Deployed.AthleteAccessCode.mk_state "AB-123-CD"
            (Some (Deployed.Error "Invalid access code")) None) /\
  access_codes (Deployed.database w) = [Scenario.AB_123_CD; Scenario.CO_777_XX] /\
  AccessCode.used_at Scenario.AB_123_CD = None /\
  coach_athletes (Deployed.database w) = [] /\
  user_sports (Deployed.database w) = [].
Proof. vm_compute. repeat split; reflexivity. Qed.

(** * The relationship inserts *)







(** * Validation *)

Lemma handleSubmit_not_found u now faults d code :
  Deployed.CoachAccessCode.codeData u (fault_at 0 faults) d code = None ->
  Deployed.CoachAccessCode.handleSubmit u now faults d code =
  Deployed.CoachAccessCode.mk_submit
    (Some (Deployed.Error "Invalid or expired access code")) d None.
Proof.
  intros H. unfold Deployed.CoachAccessCode.handleSubmit. now rewrite H.
Qed.

Lemma handleSubmit_other_role u now faults d code x :
  Deployed.CoachAccessCode.codeData u (fault_at 0 faults) d code = Some x ->
  AccessCode.role x <> coach ->
  Deployed.CoachAccessCode.handleSubmit u now faults d code =
  Deployed.CoachAccessCode.mk_submit
    (Some (Deployed.Error "This code is not valid for coaches")) d None.
Proof.
  intros H Hr. unfold Deployed.CoachAccessCode.handleSubmit.
  now rewrite H, bool_decide_eq_false_2.
Qed.

Lemma visible_unused_nil c code d :
  (forall x, In x (access_codes d) ->
     AccessCode.code x <> code \/ AccessCode.used_at x <> None \/
     permits access_codes_policies SELECT c d x = false) ->
  Deployed.visible_unused c code d = [].
Proof.
  intros H. unfold Deployed.visible_unused.
  induction (access_codes d) as [|x l IH]; [done|].
  rewrite filter_cons.
  destruct (decide (_ && _ = true)) as [E|_].
  - exfalso. apply andb_true_iff in E as [E1 E2].
    unfold Deployed.unused_code, code_is in E1. apply andb_true_iff in E1 as [E0 E1].
    apply bool_decide_eq_true_1 in E0.
    destruct (H x) as [Hc|[Hu|Hp]]; [now left | done | |congruence].
    now destruct (AccessCode.used_at x).
  - apply IH. intros y Hy. apply H. now right.
Qed.

(** C5, as stated, fails on the coach page: its lookup asks for unused
    rows only, so for a code that records a consumer it answers what it
    answers for a text that is no code at all, and AlreadyUsed is never
    reported. *)
Lemma C5_coach_page_cannot_tell_used_from_missing :
  let d := Scenario.store [Scenario.CO_777_XX_used] in
  AccessCode.used_at Scenario.CO_777_XX_used = Some 5 /\
  Deployed.CoachAccessCode.error
    (Deployed.CoachAccessCode.handleSubmit (Some "C1") 100 [] d "CO-777-XX") =
    Some (Deployed.Error "Invalid or expired access code") /\
  Deployed.CoachAccessCode.error
    (Deployed.CoachAccessCode.handleSubmit (Some "C1") 100 [] d "NO-SUCH-CODE") =
    Some (Deployed.Error "Invalid or expired access code").
Proof. vm_compute. repeat split; reflexivity. Qed.

(** C5, amended.  On the coach page, validation of a candidate text for
    the account of the session looks for the unused rows with exactly that
    text that the account may see, which are those of an organization its
    profile names.  It fails with 'Invalid or expired access code' when
    the lookup is lost or does not show exactly one row, in particular
    when every row of the table has another text, records a consumption
    time or is hidden from the account; the store is untouched.  It fails
    with 'This code is not valid for coaches' (RoleMismatch) when the one
    row grants another role; the store is untouched.  Otherwise it passes
    with that row, which is a row of the table: when the page then
    navigates, the profiles of the account name the organization of the
    row, and for a row with a sport, unless the insert was lost, a
    UserSport row of the account with the sport and the organization of
    the row exists. *)
Theorem C5_validation u now faults d code :
  let r := Deployed.CoachAccessCode.handleSubmit u now faults d code in
  let seen := Deployed.visible_unused (caller_of u) code d in
  let untouched :=
    Deployed.CoachAccessCode.final r = d /\
    Deployed.CoachAccessCode.navigate r = None in
  (fault_at 0 faults = true \/ (forall x, seen <> [x]) ->
   Deployed.CoachAccessCode.error r =
     Some (Deployed.Error "Invalid or expired access code") /\ untouched) /\
  ((forall x, In x (access_codes d) ->
      AccessCode.code x <> code \/ AccessCode.used_at x <> None \/
      permits access_codes_policies SELECT (caller_of u) d x = false) ->
   seen = []) /\
  (forall x, fault_at 0 faults = false -> seen = [x] ->
   AccessCode.role x <> coach ->
   Deployed.CoachAccessCode.error r =
     Some (Deployed.Error "This code is not valid for coaches") /\ untouched) /\
  (forall x, fault_at 0 faults = false -> seen = [x] ->
   AccessCode.role x = coach ->
   In x (access_codes d) /\ AccessCode.code x = code /\
   AccessCode.used_at x = None /\
   (Deployed.CoachAccessCode.navigate r = Some "/coach" ->
    Deployed.CoachAccessCode.error r = None /\
    (forall p, In p (profiles (Deployed.CoachAccessCode.final r)) ->
       Some (Profile.id p) = u ->
       Profile.organization_id p = AccessCode.organization_id x) /\
    (AccessCode.sport_id x <> None -> fault_at 3 faults = false ->
     existsb (same_user_sport
                (UserSport.mk u (AccessCode.sport_id x)
                   (AccessCode.organization_id x) None))
       (user_sports (Deployed.CoachAccessCode.final r)) = true))).
Proof.
  intros r seen untouched. subst r seen untouched.
  split.
  { intros H. rewrite handleSubmit_not_found; [done|].
    now apply codeData_None. }
  split; [apply visible_unused_nil|].
  split.
  { intros x Hf Hx Hr.
    rewrite (handleSubmit_other_role u now faults d code x); [done | | done].
    apply codeData_Some. now rewrite Hf. }
  intros x Hf Hx Hr.
  assert (Hin : In x (Deployed.visible_unused (caller_of u) code d))
    by (rewrite Hx; now left).
  apply visible_unused_In in Hin as (Hin & Hcode & Hused & _).
  split; [done|]. split; [done|]. split; [done|].
  assert (Ex : Deployed.CoachAccessCode.codeData u (fault_at 0 faults) d code = Some x)
    by (apply codeData_Some; now rewrite Hf).
  destruct (handleSubmit_coach_code u now faults d code x Ex Hr)
    as (uid & o & -> & Ho & H).
  cbv zeta in H. rewrite H. clear H.
  destruct (fault_at 1 faults); [discriminate|]. intros _.
  split; [done|]. split.
  - intros p Hp [= Hid].
    assert (Hp' : In p (map (fun r => if bool_decide (Profile.id r = uid)
                                      then Api.set_profile None (Some (Some o)) r else r)
                          (profiles d))).
    { destruct (_ && _ && _); exact Hp. }
    apply in_map_iff in Hp' as (q & <- & _).
    destruct (bool_decide (Profile.id q = uid)) eqn:E.
    + now rewrite Ho.
    + apply bool_decide_eq_false_1 in E. contradiction.
  - intros Hs Hf3. rewrite Ho, Hf3. simpl.
    destruct (AccessCode.sport_id x) as [sp|]; [|done]. simpl.
    destruct (existsb _ (user_sports d)) eqn:E; simpl; [done|].
    rewrite existsb_app. apply orb_true_iff. right. simpl.
    rewrite orb_false_r. unfold same_user_sport. simpl.
    now rewrite !bool_decide_eq_true_2.
Qed.

(** At the scenario: the coach C1 submits the athlete code of O1, then
    the coach code. *)
Lemma C5_witness :
  Deployed.CoachAccessCode.error
    (Deployed.CoachAccessCode.handleSubmit (Some "C1") 100 [] Scenario.club "AB-123-CD") =
    Some (Deployed.Error "This code is not valid for coaches") /\
  forall p,
    In p (profiles
            (Deployed.CoachAccessCode.final
               (Deployed.CoachAccessCode.handleSubmit (Some "C1") 100 []
                  Scenario.club "CO-777-XX"))) ->
    Profile.id p = "C1" -> Profile.organization_id p = Some "O1".
Proof.
  split.
  - destruct (C5_validation (Some "C1") 100 [] Scenario.club "AB-123-CD")
      as (_ & _ & H & _).
    apply (H Scenario.AB_123_CD); [reflexivity | reflexivity | discriminate].
  - destruct (C5_validation (Some "C1") 100 [] Scenario.club "CO-777-XX")
      as (_ & _ & _ & H).
    destruct (H Scenario.CO_777_XX eq_refl eq_refl eq_refl) as (_ & _ & _ & Hnav).
    destruct (Hnav eq_refl) as (_ & Hp & _).
    intros p Hin Hid. apply (Hp p Hin). now rewrite Hid.
Defined.




(** * Further properties: the sign-up form *)

Lemma sql_space_is_space c : sql_space c = true -> c = " "%char.
Proof.
  unfold sql_space, ascii_code. intros H. apply Nat.eqb_eq in H.
  rewrite <- (ascii_nat_embedding c), H. reflexivity.
Qed.

Lemma drop_all_spaces s fuel :
  all_chars sql_space s = true -> String.length s <= fuel ->
  drop_all white_space fuel (list_ascii_of_string s) = [].
Proof.
  revert fuel. induction s as [|c s IH]; intros fuel Hs Hf.
  - now destruct fuel.
  - cbn in Hs. apply andb_true_iff in Hs as [Hc Hs].
    apply sql_space_is_space in Hc as ->.
    destruct fuel as [|fuel]; [simpl in Hf; lia|].
    simpl in Hf. change (drop_all white_space (S fuel) (list_ascii_of_string (String " " s)))
      with (drop_all white_space fuel (list_ascii_of_string s)).
    apply IH; [exact Hs | lia].
Qed.

Lemma length_list_ascii s : length (list_ascii_of_string s) = String.length s.
Proof. induction s as [|c s IH]; simpl; [done | now rewrite IH]. Qed.

(** A text of spaces only is blank for the browser too. *)
Lemma trim_spaces s : all_chars sql_space s = true -> trim s = "".
Proof.
  intros H. unfold trim, trimStart.
  rewrite (drop_all_spaces s) by (rewrite ?length_list_ascii; done || lia).
  reflexivity.
Qed.

(** A name that the form accepts is a name for the store. *)
Lemma trim_sql_trim s : trim s <> "" -> sql_trim s <> "".
Proof.
  intros H Hs. apply H. apply trim_spaces. now apply strip_blank.
Qed.

Lemma deployed_bind_Ok {A B} (r : Deployed.js A) (k : A -> Deployed.js B) (b : B) :
  (r ≫= k) = Ok b -> exists a, r = Ok a /\ k a = Ok b.
Proof. destruct r; simpl; [eauto | discriminate]. Qed.

Lemma deployed_throw_if_Ok b e u : Deployed.throw_if b e = Ok u -> b = false.
Proof. destruct b; [discriminate | done]. Qed.

Lemma signUp_catch_clears e c fault d st :
  SignUpForm.catch e c fault d st
  = SignUpForm.mk_result (Some e) d
      (AuthStore.mk_state None None None false (AuthStore.initialized st)).
Proof. reflexivity. Qed.

Lemma signUp_validation_Ok f :
  SignUpForm.validation f = Ok tt ->
  trim (SignUpForm.email f) <> "" /\ trim (SignUpForm.fullName f) <> "" /\
  SignUpForm.password f = SignUpForm.confirmPassword f /\
  8 <= utf16_length (SignUpForm.password f).
Proof.
  unfold SignUpForm.validation. intros H.
  apply deployed_bind_Ok in H as ([] & H1 & H).
  apply deployed_throw_if_Ok, bool_decide_eq_false in H1.
  apply deployed_bind_Ok in H as ([] & H2 & H).
  apply deployed_throw_if_Ok, bool_decide_eq_false in H2.
  apply deployed_bind_Ok in H as ([] & H3 & H).
  apply deployed_throw_if_Ok, negb_false_iff, bool_decide_eq_true in H3.
  apply deployed_throw_if_Ok, Nat.ltb_ge in H. auto.
Qed.

(** X22: a form that fails a check is rejected before anything is sent:
    the store is as before, whatever the sign-up service would have
    done, and nobody is signed in.  The checks are made in the order
    address, name, confirmation, length, and the first that fails gives
    the message; blank is what [trim] leaves empty, and the length of the
    password is counted in UTF-16 code units. *)
Theorem handleSignUp_rejects_form f sv s now faults d st e :
  SignUpForm.validation f = Err e ->
  SignUpForm.handleSignUp f sv s now faults d st
  = SignUpForm.mk_result (Some e) d
      (AuthStore.mk_state None None None false (AuthStore.initialized st)) /\
  (trim (SignUpForm.email f) = "" -> e = Deployed.Error "Email is required") /\
  (trim (SignUpForm.email f) <> "" -> trim (SignUpForm.fullName f) = "" ->
   e = Deployed.Error "Full name is required") /\
  (trim (SignUpForm.email f) <> "" -> trim (SignUpForm.fullName f) <> "" ->
   SignUpForm.password f <> SignUpForm.confirmPassword f ->
   e = Deployed.Error "Passwords do not match") /\
  (trim (SignUpForm.email f) <> "" -> trim (SignUpForm.fullName f) <> "" ->
   SignUpForm.password f = SignUpForm.confirmPassword f ->
   e = Deployed.Error "Password must be at least 8 characters long" /\
   utf16_length (SignUpForm.password f) < 8).
Proof.
  intros H. split.
  - unfold SignUpForm.handleSignUp. rewrite H. apply signUp_catch_clears.
  - revert H. unfold SignUpForm.validation.
    destruct (bool_decide (trim (SignUpForm.email f) = "")) eqn:E1;
      [apply bool_decide_eq_true in E1 | apply bool_decide_eq_false in E1];
    (destruct (bool_decide (trim (SignUpForm.fullName f) = "")) eqn:E2;
      [apply bool_decide_eq_true in E2 | apply bool_decide_eq_false in E2]);
    (destruct (bool_decide (SignUpForm.password f = SignUpForm.confirmPassword f)) eqn:E3;
      [apply bool_decide_eq_true in E3 | apply bool_decide_eq_false in E3]);
    (destruct (utf16_length (SignUpForm.password f) <? 8) eqn:E4;
      [apply Nat.ltb_lt in E4 | apply Nat.ltb_ge in E4]);
    cbn; intros H; try discriminate H; injection H as <-;
    (split; [intros; first [reflexivity | contradiction]|]);
    (split; [intros; first [reflexivity | contradiction]|]);
    (split; [intros; first [reflexivity | contradiction]|]);
    intros; first [contradiction | split; [reflexivity | assumption]].
Qed.

(** A password of six Cyrillic letters and a digit is thirteen bytes and
    seven code units: too short. *)
Lemma handleSignUp_rejects_form_witness :
  let seven :=
    string_of_list_ascii
      (map ascii_of_nat [208; 191; 208; 176; 209; 128; 208; 190; 208; 187; 209; 140; 49]) in
  String.length seven = 13 /\
  SignUpForm.handleSignUp
    (SignUpForm.mk_form "jane@example.com" seven seven "Jane" "AB-123-CD")
    (SignUpForm.inserts "u1" (authenticated "u1")) Bootstrap.quiet 5 [] Scenario.club
    (AuthStore.mk_state None None None false true)
  = SignUpForm.mk_result
      (Some (Deployed.Error "Password must be at least 8 characters long"))
      Scenario.club (AuthStore.mk_state None None None false true).
Proof.
  intros seven. split; [reflexivity|].
  apply (handleSignUp_rejects_form
           (SignUpForm.mk_form "jane@example.com" seven seven "Jane" "AB-123-CD")).
  reflexivity.
Defined.

Lemma signUp_extract_full_name f i :
  trim (SignUpForm.fullName f) <> "" ->
  extract_full_name (SignUpForm.new_account f i) = sql_trim (SignUpForm.fullName f).
Proof.
  intros H. apply trim_sql_trim in H.
  unfold extract_full_name, SignUpForm.new_account.
  cbn [AuthUser.raw_user_meta_data AuthUser.email jsonb_get_text].
  rewrite (bool_decide_eq_true_2 ("full_name" = "full_name")) by reflexivity.
  rewrite length_positive, bool_decide_eq_false_2 by exact H. reflexivity.
Qed.

Lemma signUp_creates f i c s d :
  trim (SignUpForm.fullName f) <> "" -> profile_exists i d = false ->
  Bootstrap.lookup s = Bootstrap.completes ->
  Bootstrap.ending_at 0 (Bootstrap.inserts s) = Bootstrap.completes ->
  valid_email (Some (SignUpForm.email f)) = true ->
  SignUpForm.auth_signUp f (SignUpForm.inserts i c) s d
  = (Ok (Some i),
     set_profiles
       (profiles d ++
        [Profile.mk i (Some athlete) None (Some (sql_trim (SignUpForm.fullName f)))
           (Some (SignUpForm.email f))]) d).
Proof.
  intros Hname Hfresh Hl He Hvalid. unfold SignUpForm.auth_signUp.
  rewrite (handle_new_user_three_attempts s i (SignUpForm.new_account f i) d
             eq_refl Hl Hfresh).
  unfold Bootstrap.three_attempts. cbv zeta.
  rewrite He, INSERT_completes by done.
  cbn [SignUpForm.new_account AuthUser.email]. rewrite Hvalid.
  now rewrite (signUp_extract_full_name f i Hname).
Qed.

(** X23: a sign-up without a code, the form being accepted, the lookup
    and the first insert of the bootstrap completing: the profile of the
    new account carries the name of the form with its surrounding spaces
    removed, which is not empty, so that the fall-back to the address is
    never taken; the account is signed in. *)
Theorem signUp_name_reaches_the_profile f i c s now faults d st :
  SignUpForm.validation f = Ok tt ->
  profile_exists i d = false ->
  Bootstrap.lookup s = Bootstrap.completes ->
  Bootstrap.ending_at 0 (Bootstrap.inserts s) = Bootstrap.completes ->
  valid_email (Some (SignUpForm.email f)) = true ->
  trim (SignUpForm.accessCode f) = "" ->
  let res := SignUpForm.handleSignUp f (SignUpForm.inserts i c) s now faults d st in
  SignUpForm.error res = None /\
  SignUpForm.final res
  = set_profiles
      (profiles d ++
       [Profile.mk i (Some athlete) None (Some (sql_trim (SignUpForm.fullName f)))
          (Some (SignUpForm.email f))]) d /\
  sql_trim (SignUpForm.fullName f) <> "" /\
  AuthStore.id <$> AuthStore.user (SignUpForm.auth res) = Some i.
Proof.
  intros Hv Hfresh Hl He Hvalid Hcode res. subst res.
  destruct (signUp_validation_Ok f Hv) as (_ & Hname & _).
  unfold SignUpForm.handleSignUp. rewrite Hv.
  rewrite (signUp_creates f i c s d Hname Hfresh Hl He Hvalid).
  unfold Deployed.SignUpPage.handleSignUp_accessCode.
  rewrite bool_decide_eq_true_2 by exact Hcode. cbn.
  split; [reflexivity|]. split; [reflexivity|]. split; [now apply trim_sql_trim|].
  unfold AuthStore.setUser. cbn.
  destruct (bool_decide (Some i = AuthStore.id <$> AuthStore.user st)) eqn:E;
    [now apply bool_decide_eq_true in E | reflexivity].
Qed.

Lemma signUp_name_reaches_the_profile_witness :
  profiles
    (SignUpForm.final
       (SignUpForm.handleSignUp
          (SignUpForm.mk_form "jane@example.com" "secret-word" "secret-word"
             "  Jane Doe " "")
          (SignUpForm.inserts "u1" (authenticated "u1")) Bootstrap.quiet 5 []
          Sample.empty (AuthStore.mk_state None None None false true)))
  = [Profile.mk "u1" (Some athlete) None (Some "Jane Doe") (Some "jane@example.com")].
Proof.
  destruct (signUp_name_reaches_the_profile
              (SignUpForm.mk_form "jane@example.com" "secret-word" "secret-word"
                 "  Jane Doe " "")
              "u1" (authenticated "u1") Bootstrap.quiet 5 [] Sample.empty
              (AuthStore.mk_state None None None false true))
    as (_ & H & _).
  - reflexivity.
  - reflexivity.
  - reflexivity.
  - reflexivity.
  - reflexivity.
  - reflexivity.
  - rewrite H. reflexivity.
Defined.

(** The codes are hidden from a caller none of whose profiles names an
    organization. *)
Lemma codes_hidden c d :
  (forall p, In p (profiles d) -> c = authenticated (Profile.id p) ->
     Profile.organization_id p = None) ->
  forall r, permits access_codes_policies SELECT c d r = false.
Proof.
  intros H r. destruct (permits access_codes_policies SELECT c d r) eqn:E; [|done].
  apply permits_access_codes_SELECT in E as (uid & o & p & -> & _ & Hin & Hid & Ho).
  rewrite (H p Hin) in Ho; [discriminate | now rewrite Hid].
Qed.

Lemma filter_hidden c d (q : AccessCode.row -> bool) :
  (forall r, permits access_codes_policies SELECT c d r = false) ->
  filter (fun r => q r && permits access_codes_policies SELECT c d r = true)
         (access_codes d) = [].
Proof.
  intros H. apply (filter_none (fun r => q r && permits access_codes_policies SELECT c d r)).
  intros r. now rewrite H, andb_false_r.
Qed.

(** X5: the code part of a sign-up, for a caller none of whose profiles
    names an organization, in particular without a session or for an
    account that the bootstrap has just given its profile: whatever the
    text, when it is not blank the lookup shows no row, the page reports
    'Invalid or expired access code', hands no role to [setRole] and
    leaves the store as it was. *)
Theorem sign_up_code_is_not_seen c newUser now faults d t :
  trim t <> "" ->
  (forall p, In p (profiles d) -> c = authenticated (Profile.id p) ->
     Profile.organization_id p = None) ->
  Deployed.SignUpPage.handleSignUp_accessCode c newUser now faults d t =
  Deployed.SignUpPage.mk_code_result
    (Some (Deployed.Error "Invalid or expired access code")) d None.
Proof.
  intros Ht Hc. unfold Deployed.SignUpPage.handleSignUp_accessCode.
  rewrite bool_decide_eq_false_2 by exact Ht.
  rewrite select_star, (filter_hidden c d _ (codes_hidden c d Hc)).
  now destruct (fault_at 0 faults).
Qed.

Lemma sign_up_code_is_not_seen_witness :
  let d := set_profiles
             (profiles Scenario.club ++
              [Profile.mk "u1" (Some athlete) None (Some "Jane Doe")
                 (Some "jane@example.com")]) Scenario.club in
  Deployed.SignUpPage.handleSignUp_accessCode (authenticated "u1") "u1" 7 [] d "AB-123-CD" =
  Deployed.SignUpPage.mk_code_result
    (Some (Deployed.Error "Invalid or expired access code")) d None.
Proof.
  intros d. apply sign_up_code_is_not_seen; [vm_compute; discriminate|].
  intros p Hin Hp. injection Hp as Hp.
  simpl in Hin. destruct Hin as [<-|[<-|[<-|[<-|[]]]]]; try discriminate Hp.
  reflexivity.
Defined.

(** X24: a sign-up with a code, by a form that is accepted, for a new
    account whose bootstrap stores its profile, the client holding
    afterwards a session for the new account, for an account without
    organization or for none.  The code is not seen: the page reports
    'Invalid or expired access code' and signs the user out, yet the
    account exists and its profile stays in the store; the codes are as
    they were; and the listener of the session, for the new account,
    routes to the choice of a role. *)
Theorem signUp_with_unusable_code f i c s now faults d st :
  SignUpForm.validation f = Ok tt ->
  profile_exists i d = false ->
  Bootstrap.lookup s = Bootstrap.completes ->
  Bootstrap.ending_at 0 (Bootstrap.inserts s) = Bootstrap.completes ->
  valid_email (Some (SignUpForm.email f)) = true ->
  trim (SignUpForm.accessCode f) <> "" ->
  (forall p, In p (profiles d) -> c = authenticated (Profile.id p) ->
     Profile.organization_id p = None) ->
  let res := SignUpForm.handleSignUp f (SignUpForm.inserts i c) s now faults d st in
  SignUpForm.error res = Some (Deployed.Error "Invalid or expired access code") /\
  SignUpForm.final res
  = set_profiles
      (profiles d ++
       [Profile.mk i (Some athlete) None (Some (sql_trim (SignUpForm.fullName f)))
          (Some (SignUpForm.email f))]) d /\
  profile_count i (SignUpForm.final res) = 1 /\
  AuthStore.user (SignUpForm.auth res) = None /\
  AuthStore.role (SignUpForm.auth res) = None /\
  forall fault,
    Deployed.SignUpPage.SIGNED_IN i fault (SignUpForm.final res) (SignUpForm.accessCode f)
    = "/RoleSelection".
Proof.
  intros Hv Hfresh Hl He Hvalid Hcode Hc res. subst res.
  destruct (signUp_validation_Ok f Hv) as (_ & Hname & _).
  unfold SignUpForm.handleSignUp. rewrite Hv.
  rewrite (signUp_creates f i c s d Hname Hfresh Hl He Hvalid).
  set (row := Profile.mk i _ _ _ _).
  set (d0 := set_profiles _ d).
  assert (Hhidden : forall c',
            (c' = c \/ c' = authenticated i) ->
            forall p, In p (profiles d0) -> c' = authenticated (Profile.id p) ->
              Profile.organization_id p = None).
  { intros c' Hc' p Hin Hp. simpl in Hin. apply in_app_or in Hin as [Hin|[<-|[]]].
    - destruct Hc' as [->| ->]; [now apply Hc|].
      injection Hp as Hp. exfalso.
      assert (profile_exists i d = true); [|congruence].
      apply existsb_exists. exists p. split; [exact Hin|].
      now apply bool_decide_eq_true_2.
    - reflexivity. }
  cbn [SignUpForm.session_of].
  rewrite (sign_up_code_is_not_seen c i now faults d0 _ Hcode (Hhidden c (or_introl eq_refl))).
  cbn [Deployed.SignUpPage.error Deployed.SignUpPage.final].
  rewrite signUp_catch_clears.
  cbn [SignUpForm.error SignUpForm.final SignUpForm.auth AuthStore.user AuthStore.role].
  split; [reflexivity|]. split; [reflexivity|]. split.
  { subst d0. rewrite profile_count_snoc.
    apply profile_exists_count in Hfresh. rewrite Hfresh. subst row. simpl.
    now rewrite bool_decide_eq_true_2. }
  split; [reflexivity|]. split; [reflexivity|].
  intros fault. unfold Deployed.SignUpPage.SIGNED_IN.
  rewrite bool_decide_eq_false_2 by exact Hcode. cbn [negb].
  rewrite select_star,
    (filter_hidden (authenticated i) d0 _
       (codes_hidden _ d0 (Hhidden _ (or_intror eq_refl)))).
  now destruct fault.
Qed.

Lemma signUp_with_unusable_code_witness :
  let res := SignUpForm.handleSignUp
               (SignUpForm.mk_form "jane@example.com" "secret-word" "secret-word"
                  "Jane Doe" "AB-123-CD")
               (SignUpForm.inserts "u1" (authenticated "u1")) Bootstrap.quiet 5 []
               Scenario.club (AuthStore.mk_state None None None false true) in
  SignUpForm.error res = Some (Deployed.Error "Invalid or expired access code") /\
  profile_count "u1" (SignUpForm.final res) = 1 /\
  Deployed.SignUpPage.SIGNED_IN "u1" false (SignUpForm.final res) "AB-123-CD"
    = "/RoleSelection".
Proof.
  intros res.
  destruct (signUp_with_unusable_code
              (SignUpForm.mk_form "jane@example.com" "secret-word" "secret-word"
                 "Jane Doe" "AB-123-CD")
              "u1" (authenticated "u1") Bootstrap.quiet 5 [] Scenario.club
              (AuthStore.mk_state None None None false true))
    as (H1 & _ & H2 & _ & _ & H3).
  - reflexivity.
  - reflexivity.
  - reflexivity.
  - reflexivity.
  - reflexivity.
  - vm_compute. discriminate.
  - intros p Hin Hp. injection Hp as Hp.
    simpl in Hin. destruct Hin as [<-|[<-|[<-|[]]]]; discriminate Hp.
  - split; [exact H1|]. split; [exact H2 | exact (H3 false)].
Defined.

(** * Further properties: the pages against the declared schema *)

Lemma deployed_with_session_pages i w k (P : Deployed.session -> Prop) :
  (forall s d, P s -> P (k s d).1) ->
  Forall P (Deployed.athletes w) ->
  Forall P (Deployed.athletes (Deployed.with_session i w k)).
Proof.
  intros Hk Hw. unfold Deployed.with_session.
  destruct (Deployed.athletes w !! i) as [s|] eqn:E; [|exact Hw].
  specialize (Hk s (Deployed.database w)).
  destruct (k s (Deployed.database w)) as [s' d']. simpl in *.
  apply Forall_insert; [exact Hw|]. apply Hk.
  eapply Forall_lookup_1; eauto.
Qed.

Lemma step_no_details w e :
  Forall Deployed.no_details (Deployed.athletes w) ->
  Forall Deployed.no_details (Deployed.athletes (Deployed.step w e)).
Proof.
  intros Hw.
  destruct e as [i t|i faults|i now faults|u c now faults|c nu t now faults
                 |new s|c t p|c r]; simpl; try exact Hw;
    apply deployed_with_session_pages; try exact Hw; intros s d Hs;
    unfold Deployed.no_details in *; simpl.
  - exact Hs.
  - unfold Deployed.AthleteAccessCode.validateCode.
    now rewrite validateCode_try_Err.
  - destruct (handleJoin_store (Deployed.user s) now faults d (Deployed.page s))
      as (_ & _ & H). now rewrite H.
Qed.

(** X1: against the declared tables the athlete page never verifies a
    code.  Its select embeds [created_by], which references no exposed
    table, and names [coach_id], which [access_codes] does not have, so
    [validateCode] always ends with an error (the blank text, the missing
    session, or 'Invalid access code' for every text) and stores no
    details.  [handleJoin], whatever the page holds, changes no table and
    does not navigate: without details it returns at once, and with
    details its insert into [coach_athletes] names [gender], which that
    table does not have.  So no page that starts without details ever
    holds any. *)
Theorem athlete_page_never_verifies user faults now jfaults d p :
  let v := Deployed.AthleteAccessCode.validateCode user faults d p in
  Deployed.AthleteAccessCode.codeDetails v = None /\
  Deployed.AthleteAccessCode.error v =
    Some (Deployed.Error
            (if bool_decide (trim (Deployed.AthleteAccessCode.code p) = "")
             then "Please enter an access code"
             else match user with
                  | None => "Authentication required"
                  | Some _ => "Invalid access code"
                  end)) /\
  (forall q,
     let j := Deployed.AthleteAccessCode.handleJoin user now jfaults d q in
     Deployed.AthleteAccessCode.final j = d /\
     Deployed.AthleteAccessCode.navigate j = None) /\
  (forall w es,
     Forall Deployed.no_details (Deployed.athletes w) ->
     Forall Deployed.no_details (Deployed.athletes (Deployed.run w es))).
Proof.
  intros v. subst v. unfold Deployed.AthleteAccessCode.validateCode.
  rewrite validateCode_try_Err. simpl.
  split; [reflexivity|]. split; [reflexivity|]. split.
  - intros q. destruct (handleJoin_store user now jfaults d q) as (H1 & H2 & _). done.
  - intros w es. unfold Deployed.run. revert w.
    induction es as [|e es IH]; intros w Hw; simpl; [exact Hw|].
    apply IH. now apply step_no_details.
Qed.




(** * Further properties: the trigger functions *)

(** X6: an unused athlete code that lacks its issuer, its sport or its
    organization cannot be consumed by a role that may write the table:
    for an update that names a consumer the trigger function raises on
    the NOT NULL columns of [coach_athletes], and the update is undone. *)
Theorem incomplete_code_is_not_consumed d c r :
  rows_of c d = [r] -> AccessCode.role r = athlete ->
  AccessCode.used_at r = None -> AccessCode.used_by r = None ->
  AccessCode.created_by r = None \/ AccessCode.sport_id r = None \/
  AccessCode.organization_id r = None ->
  forall uid now,
    update_access_codes c (mk_patch now (Some uid)) d = Err not_null_violation.
Proof.
  intros Hrows Hrole Hat Hby Hnull uid now.
  now apply (update_incomplete_code uid now d c r).
Qed.

Lemma incomplete_code_is_not_consumed_witness :
  let d := Sample.store
             [AccessCode.mk "QR-7K2-MN" None athlete (Some "soccer") (Some female)
                (Some "coach-1") None None None] in
  update_access_codes "QR-7K2-MN" (mk_patch 7 (Some "N")) d = Err not_null_violation.
Proof.
  intros d.
  apply (incomplete_code_is_not_consumed d "QR-7K2-MN"
           (AccessCode.mk "QR-7K2-MN" None athlete (Some "soccer") (Some female)
              (Some "coach-1") None None None)); try reflexivity.
  right. right. reflexivity.
Defined.

(** X7: [handle_new_user] always ends.  It raises exactly for an account
    without id.  It lets a condition through only when the lookup does not
    complete, an INSERT is cancelled or a sleep does not complete.  When it
    returns, the lookup has completed and the store is as before or has
    one more row at the end of [profiles]: the id and the address of the
    account, role athlete, no organization, and as name the extracted
    name or 'New User'; then no profile with this id existed and the
    address passes the CHECK.  Whatever the end, every table but
    [profiles] is as before once the statement that fired the trigger has
    ended. *)
Theorem bootstrap_frame s new d :
  exists o,
    Bootstrap.handle_new_user s new d = Some o /\
    match o with
    | Bootstrap.RAISE_EXCEPTION m =>
        AuthUser.id new = None /\ m = "User ID cannot be null"
    | Bootstrap.unhandled c log =>
        AuthUser.id new <> None /\
        (Bootstrap.lookup s <> Bootstrap.completes \/
         (exists k, k <= 3 /\
            Bootstrap.ending_at k (Bootstrap.inserts s) = Bootstrap.cancelled) \/
         (exists k, k < 3 /\
            Bootstrap.ending_at k (Bootstrap.sleeps s) <> Bootstrap.completes))
    | Bootstrap.RETURN_new d' log =>
        exists i,
          AuthUser.id new = Some i /\
          Bootstrap.lookup s = Bootstrap.completes /\
          (d' = d \/
           exists name,
             (name = extract_full_name new \/ name = "New User") /\
             profile_exists i d = false /\
             valid_email (AuthUser.email new) = true /\
             d' = set_profiles
                    (profiles d ++
                     [Profile.mk i (Some athlete) None (Some name) (AuthUser.email new)]) d)
    end /\
    let d' := Bootstrap.store_after (Some o) d in
    access_codes d' = access_codes d /\ user_sports d' = user_sports d /\
    coach_athletes d' = coach_athletes d.
Proof.
  destruct (handle_new_user_ends s new d) as [o Ho]. exists o.
  split; [exact Ho|]. split.
  2: { destruct (handle_new_user_frame s new d) as (H1 & H2 & H3 & _).
       rewrite Ho in H1, H2, H3. done. }
  destruct (AuthUser.id new) as [i|] eqn:Hid.
  2: { unfold Bootstrap.handle_new_user, Bootstrap.handle_new_user_fuel in Ho.
       rewrite Hid in Ho. injection Ho as <-. done. }
  destruct (lookup_completes_or_not s) as [Hl|Hl].
  2: { destruct (handle_new_user_lookup s new i d Hid Hl) as [c Hc].
       rewrite Hc in Ho. injection Ho as <-. split; [done | now left]. }
  destruct (profile_exists i d) eqn:Hp.
  { rewrite (handle_new_user_found s new i d Hid Hl Hp) in Ho. injection Ho as <-.
    exists i. split; [done|]. split; [done | now left]. }
  rewrite (handle_new_user_three_attempts s i new d Hid Hl Hp) in Ho.
  injection Ho as Ho.
  destruct o as [d' log|m|c log].
  - exists i. split; [done|]. split; [done|].
    destruct (three_attempts_store s i new d Hp) as [H|(Hv & [H|[H _]])];
      rewrite Ho in H; simpl in H.
    + now left.
    + right. exists (extract_full_name new). repeat split; auto.
    + right. exists "New User". repeat split; auto.
  - exfalso. revert Ho. unfold Bootstrap.three_attempts. cbv zeta.
    repeat (match goal with
            | |- context [match ?x with _ => _ end] => destruct x
            end); discriminate.
  - split; [done|]. right. now apply (three_attempts_unhandled s i new d c log).
Qed.

(** * Further properties: the age of a code *)

(** X14: [formatTimeAgo] names the largest unit of which at least one
    fits into the whole seconds elapsed, the first in the order year,
    month, week, day, hour, minute, with the number of such units rounded
    down; below a minute, and for a date in the future, it says 'just
    now'.  The count is never 0; it stays below 60 minutes, 24 hours and
    7 days, but reaches 4 weeks and 12 months, a month being 30 days and
    a year 365. *)
Theorem formatTimeAgo_units date now :
  let seconds := ((now - date) / 1000)%Z in
  (seconds < 60 -> CoachCodeGenerator.formatTimeAgo date now = "just now")%Z /\
  (60 <= seconds ->
   exists n unit size,
     In (unit, size) CoachCodeGenerator.intervals /\
     n = seconds / size /\ 1 <= n /\
     CoachCodeGenerator.formatTimeAgo date now
     = pretty n +:+ " " +:+ unit +:+ (if n =? 1 then "" else "s") +:+ " ago" /\
     (forall unit' size', In (unit', size') CoachCodeGenerator.intervals ->
        size' <= seconds -> size' <= size) /\
     (unit = "minute" -> n < 60) /\ (unit = "hour" -> n < 24) /\
     (unit = "day" -> n < 7) /\ (unit = "week" -> n <= 4) /\
     (unit = "month" -> n <= 12))%Z.
Proof.
  intros seconds. unfold CoachCodeGenerator.formatTimeAgo. fold seconds.
  unfold CoachCodeGenerator.intervals. cbn [CoachCodeGenerator.first_interval].
  rewrite !fits_once by lia.
  split.
  - intros H.
    repeat (match goal with
            | |- context [(?k <=? seconds)%Z] =>
                destruct (Z.leb_spec k seconds); [lia|]
            end).
    reflexivity.
  - intros H.
    repeat (match goal with
            | |- context [(?k <=? seconds)%Z] =>
                destruct (Z.leb_spec k seconds)
            end);
      try lia;
      match goal with
      | |- context [pretty (seconds / ?k)%Z +:+ " " +:+ ?u +:+ _] =>
          exists (seconds / k)%Z, u, k
      end;
      (split; [cbn; tauto|]);
      (split; [reflexivity|]);
      (split; [apply Z.div_le_lower_bound; lia|]);
      (split; [reflexivity|]);
      (split; [intros u' k' Hin Hle; cbn in Hin;
               repeat (destruct Hin as [Hin|Hin];
                       [injection Hin as <- <-; lia|]);
               contradiction|]);
      repeat split; intros [=];
      first [ apply Z.div_lt_upper_bound; lia
            | apply Z.lt_succ_r; apply Z.div_lt_upper_bound; lia ].
Qed.

Lemma formatTimeAgo_units_witness :
  CoachCodeGenerator.formatTimeAgo 0 59999 = "just now" /\
  CoachCodeGenerator.formatTimeAgo 0 (29 * 86400000) = "4 weeks ago" /\
  CoachCodeGenerator.formatTimeAgo 0 (30 * 86400000) = "1 month ago" /\
  CoachCodeGenerator.formatTimeAgo 0 (364 * 86400000) = "12 months ago" /\
  CoachCodeGenerator.formatTimeAgo 0 3600000 = "1 hour ago".
Proof.
  split; [apply (formatTimeAgo_units 0 59999); reflexivity|].
  repeat split; vm_compute; reflexivity.
Defined.

(** * Further properties: the two layers *)

Lemma after_any_solid c l :
  solid c = true -> after_any white_space (c :: l) = None.
Proof.
  destruct c as [[] [] [] [] [] [] [] []]; intros H; try discriminate H; reflexivity.
Qed.

Lemma after_any_rev_solid c l :
  solid c = true -> after_any (map (@rev ascii) white_space) (c :: l) = None.
Proof.
  destruct c as [[] [] [] [] [] [] [] []]; intros H; try discriminate H; reflexivity.
Qed.

Lemma string_of_list_ascii_inj_l l : list_ascii_of_string (string_of_list_ascii l) = l.
Proof. apply list_ascii_of_string_of_list_ascii. Qed.

(** X2: what [trim] keeps and what it removes.  A text whose first and
    last bytes are printable ASCII characters other than the space is
    left as it is, whatever lies between them; a text of spaces only
    becomes empty; and white space of more than one byte is removed like
    the space: the no-break space U+00A0 before a code and the
    ideographic space U+3000 after it. *)
Theorem trim_keeps_solid_ends c l c' :
  solid c = true -> solid c' = true ->
  trim (string_of_list_ascii (c :: l ++ [c'])) = string_of_list_ascii (c :: l ++ [c']) /\
  trim (String c "") = String c "" /\
  (forall s, all_chars sql_space s = true -> trim s = "") /\
  trim (string_of_list_ascii
          (map ascii_of_nat [194; 160] ++ list_ascii_of_string "AB-123-CD" ++
           map ascii_of_nat [227; 128; 128])) = "AB-123-CD".
Proof.
  intros Hc Hc'. split; [|split; [|split; [exact trim_spaces | reflexivity]]].
  - unfold trim. rewrite string_of_list_ascii_inj_l.
    assert (Hs : trimStart (c :: l ++ [c']) = c :: l ++ [c']).
    { unfold trimStart. cbn [length drop_all]. now rewrite after_any_solid. }
    rewrite Hs. unfold trimEnd.
    assert (Hr : rev (c :: l ++ [c']) = c' :: rev (c :: l)).
    { change (c :: l ++ [c']) with ((c :: l) ++ [c']). now rewrite List.rev_app_distr. }
    rewrite Hr. cbn [length drop_all]. rewrite after_any_rev_solid by exact Hc'.
    now rewrite <- Hr, List.rev_involutive.
  - unfold trim, trimStart, trimEnd.
    cbn [list_ascii_of_string length drop_all].
    rewrite after_any_solid by exact Hc.
    cbn [rev app length drop_all].
    now rewrite after_any_rev_solid.
Qed.

Lemma trim_keeps_solid_ends_witness :
  trim "AB-123-CD" = "AB-123-CD".
Proof.
  destruct (trim_keeps_solid_ends "A" (list_ascii_of_string "B-123-C") "D"
              eq_refl eq_refl) as [H _].
  exact H.
Defined.






